(** * The activity stack of typescene: navigation transitions

    A shallow embedding of the class [ActivityStack] and of the record
    [ActivityTransition] (TypeScript), with the properties of its
    transition engine.

    Activities, activity classes and stacks are JavaScript objects: they
    are compared by reference ([===]), so they are embedded as references
    (numbers) and what the stack reads from them is looked up in a
    [Runtime].  The class [Activity] and the library [Async] are imported by
    the source and are not part of it: what the stack consumes from them is
    a parameter of the development (record [Runtime]).

    What the embedding takes for granted:
    - the handlers of a signal are seen through their joint result only
      (all their futures resolve, or one rejects), and they do not call
      back into the stack;
    - the bodies that the methods hand to the promise chains run one after
      the other, each when the entries before it have resolved; what
      [then] does on a chain that holds a rejected entry is left to
      [Async];
    - [Async.sleep] only yields;
    - an activity always has its [options] object;
    - the array [_stack] holds activities only, never [undefined]. *)

From Stdlib Require Import List ZArith String Bool Lia Arith.
From Stdlib Require Import DecimalString DecimalNat Sorted.
Import ListNotations.

Local Open Scope Z_scope.

(** ** Data model *)

(** A reference to an [Activity] instance. *)
Definition Activity := nat.
(** A reference to a class derived from [Activity] (a constructor). *)
Definition ActivityClass := nat.
(** A reference to an [ActivityStack] instance. *)
Definition StackRef := nat.

Bind Scope nat_scope with Activity ActivityClass StackRef.

(** [options.parentActivity]: an instance, or a class. *)
Inductive ParentRef :=
| ParentInstance (a : Activity)
| ParentClass (c : ActivityClass).

Record ActivityOptions := {
  parentActivity : option ParentRef;
  isRootActivity : bool;
  isHubActivity : bool;
  isTransient : bool;
  isBackgroundActivity : bool
}.

(** The part of an [Activity] object that the stack reads.  [title] is
    [None] when the property is [undefined]; [path] is the result of
    [activation.getPath()], [None] when the call throws or yields
    [undefined].  [options] is taken to be always present (the guards
    [options &&] of the source then always pass). *)
Record ActivityObject := {
  title : option string;
  options : ActivityOptions;
  path : option string
}.

(** The argument of [upAsync] and [contains]: [Activity | typeof Activity]. *)
Inductive ActivityOrClass :=
| AnActivity (a : Activity)
| AClass (c : ActivityClass).

Inductive Operation := Push | Replace | Pop.

Definition Operation_eqb (a b : Operation) : bool :=
  match a, b with
  | Push, Push | Replace, Replace | Pop, Pop => true
  | _, _ => false
  end.

(** [interface ActivityTransition].  The id ["T" + n] is kept as [n]. *)
Module ActivityTransition.
#[warnings="-register-all"]
Inductive t := Build {
  id : nat;
  activityStack : StackRef;
  from : option Activity;
  to : option Activity;
  op : Operation;
  previous : option t
}.
End ActivityTransition.
Abbreviation ActivityTransition := ActivityTransition.t.

(** The lifecycle signals of an activity, and the two signals of a stack. *)
Inductive Signal :=
| Suspending | Suspended | Starting | Started | Resuming | Resumed
| Deactivated | Transition | TransitionSync.

Definition Signal_eqb (a b : Signal) : bool :=
  match a, b with
  | Suspending, Suspending | Suspended, Suspended | Starting, Starting
  | Started, Started | Resuming, Resuming | Resumed, Resumed
  | Deactivated, Deactivated | Transition, Transition
  | TransitionSync, TransitionSync => true
  | _, _ => false
  end.

(** The fields of one [ActivityStack] instance, with its reference
    [self].  A slot of [_historyIds] is [None] when the array has no value
    there.  (The two promise chains [_transitionP] and [_pushP] only order
    the bodies of the public methods: see the public operations below.) *)
Record ActivityStack := {
  self : StackRef;
  _stack : list Activity;
  topIndex : Z;
  _historyIds : list (option string)
}.

(** One emission of a signal: the signal, the activity it is emitted on
    ([None] for the two signals of the stack), the transition passed to the
    handlers, and (ghost) the stack as it was when the signal was emitted. *)
Record Emission := {
  signal : Signal;
  emitter : option Activity;
  payload : ActivityTransition;
  seen : ActivityStack
}.

Inductive Error :=
| NoActivityToSuspend                 (* Error("No activity to suspend") *)
| HandlerRejected (s : Signal) (a : Activity) (transition : nat)
| TypeError                           (* property read on undefined *)
| UndefinedPushed.                    (* see [pushCase] *)

(** How a future settles.  [Stalled] is the model running out of fuel in
    the one unbounded loop of the source ([_findParents]). *)
Inductive Outcome (A : Type) :=
| Resolved (a : A)
| Rejected (e : Error)
| Stalled.
Arguments Resolved {A} a.
Arguments Rejected {A} e.
Arguments Stalled {A}.

(** What the stack consumes from outside its own source file. *)
Record Runtime := {
  (** the heap of activity objects *)
  obj : Activity -> ActivityObject;
  (** [a instanceof C] *)
  instanceOf : Activity -> ActivityClass -> bool;
  (** [C.getInstance()] *)
  getInstance : ActivityClass -> Activity;
  (** Whether all the futures returned by the handlers of a signal
      resolve ([true]), or one handler throws or rejects ([false]).
      Handlers are taken not to call back into the stack. *)
  accepts : Signal -> Activity -> ActivityTransition -> bool;
  (** [String(Math.random()).slice(-5)] *)
  randomDigits : string
}.

(** The module-level variables of the source file, and the emissions so
    far (ghost). *)
Record World := {
  previousTransition : option ActivityTransition;
  _nextTransitionID : nat;
  _nextHistoryId : nat;
  emitted : list Emission;
  this : ActivityStack
}.

(** ** A state and error monad for the methods *)

Definition M (A : Type) := World -> Outcome A * World.

Definition ret {A} (a : A) : M A := fun w => (Resolved a, w).
Definition throw {A} (e : Error) : M A := fun w => (Rejected e, w).
Definition bind {A B} (m : M A) (k : A -> M B) : M B :=
  fun w =>
    match m w with
    | (Resolved a, w') => k a w'
    | (Rejected e, w') => (Rejected e, w')
    | (Stalled, w') => (Stalled, w')
    end.

Declare Scope act_scope.
Delimit Scope act_scope with act.
Notation "x <- m ;; k" := (bind m (fun x => k))
  (at level 61, m at next level, right associativity) : act_scope.
Notation "m ;; k" := (bind m (fun _ => k))
  (at level 61, right associativity) : act_scope.
Local Open Scope act_scope.

Definition get : M World := fun w => (Resolved w, w).
Definition setThis (s : ActivityStack) : M unit :=
  fun w => (Resolved tt,
            {| previousTransition := previousTransition w;
               _nextTransitionID := _nextTransitionID w;
               _nextHistoryId := _nextHistoryId w;
               emitted := emitted w;
               this := s |}).
Definition setPreviousTransition (p : option ActivityTransition) : M unit :=
  fun w => (Resolved tt,
            {| previousTransition := p;
               _nextTransitionID := _nextTransitionID w;
               _nextHistoryId := _nextHistoryId w;
               emitted := emitted w;
               this := this w |}).

Definition setTopIndex (s : ActivityStack) (i : Z) : ActivityStack :=
  {| self := self s; _stack := _stack s; topIndex := i;
     _historyIds := _historyIds s |}.

(** Updates of single fields. *)
Definition withEmitted (w : World) (l : list Emission) : World :=
  {| previousTransition := previousTransition w;
     _nextTransitionID := _nextTransitionID w;
     _nextHistoryId := _nextHistoryId w;
     emitted := l;
     this := this w |}.

Definition withThis (w : World) (s : ActivityStack) : World :=
  {| previousTransition := previousTransition w;
     _nextTransitionID := _nextTransitionID w;
     _nextHistoryId := _nextHistoryId w;
     emitted := emitted w;
     this := s |}.

Definition withStack (s : ActivityStack) (l : list Activity) : ActivityStack :=
  {| self := self s; _stack := l; topIndex := topIndex s;
     _historyIds := _historyIds s |}.

(** ** Queries of [ActivityStack] *)

(** [l[i]] on a JavaScript array: [undefined] outside of the array. *)
Definition item {A} (l : list A) (i : Z) : option A :=
  if i <? 0 then None else nth_error l (Z.to_nat i).

(** The indices visited by [for (i = n - 1; i >= 0; i--)]. *)
Fixpoint downFrom (n : nat) : list Z :=
  match n with
  | O => []
  | S k => Z.of_nat k :: downFrom k
  end.

(** The indices visited by [for (i = top; i >= 0; i--)]. *)
Definition downTo (top : Z) : list Z := downFrom (Z.to_nat (top + 1)).

Definition option_eqb (x y : option Activity) : bool :=
  match x, y with
  | Some a, Some b => Nat.eqb a b
  | None, None => true
  | _, _ => false
  end.

Section Stack.

Variable rt : Runtime.

(** [get top()] *)
Definition top (s : ActivityStack) : option Activity :=
  if topIndex s <? 0 then None else item (_stack s) (topIndex s).

(** [get length()] *)
Definition get_length (s : ActivityStack) : Z := topIndex s + 1.

(** [x instanceof C], for an [x] that may be [undefined]. *)
Definition isInstance (x : option Activity) (c : ActivityClass) : bool :=
  match x with
  | Some a => instanceOf rt a c
  | None => false
  end.

(** [contains(activityOrClass)] *)
Definition contains (x : ActivityOrClass) (s : ActivityStack) : bool :=
  match x with
  | AnActivity a =>
      existsb (fun i => option_eqb (item (_stack s) i) (Some a))
              (downTo (topIndex s))
  | AClass c =>
      existsb (fun i => isInstance (item (_stack s) i) c)
              (downTo (topIndex s))
  end.

(** The loop of [getParent], over the indices still to visit. *)
Fixpoint getParent_loop (c : ActivityClass) (before : option Activity)
    (stack : list Activity) (seenBefore : bool) (idxs : list Z)
  : option Activity :=
  match idxs with
  | [] => None
  | i :: rest =>
      if (seenBefore || match before with Some _ => false | None => true end)
         && isInstance (item stack i) c
      then item stack i
      else getParent_loop c before stack
             (seenBefore || option_eqb (item stack i) before) rest
  end.

(** [getParent(ActivityClass, before?)] *)
Definition getParent (c : ActivityClass) (before : option Activity)
    (s : ActivityStack) : option Activity :=
  getParent_loop c before (_stack s)
    (option_eqb (item (_stack s) (topIndex s)) before)
    (downTo (topIndex s - 1)).

(** The loop of [get title()]: reading [.title] of a missing entry throws. *)
Fixpoint title_loop (stack : list Activity) (idxs : list Z)
  : Outcome string :=
  match idxs with
  | [] => Resolved EmptyString
  | i :: rest =>
      match item stack i with
      | None => Rejected TypeError
      | Some a =>
          match title (obj rt a) with
          | Some s => Resolved s
          | None => title_loop stack rest
          end
      end
  end.

(** [get title()] *)
Definition get_title (s : ActivityStack) : Outcome string :=
  title_loop (_stack s) (downTo (topIndex s)).

(** *** The cursor of [getCursor], as far as [_popTransient] uses it *)

Record Cursor := { idx : Z; stack : list Activity }.

(** [getCursor()] *)
Definition getCursor (s : ActivityStack) : Cursor :=
  {| idx := topIndex s; stack := _stack s |}.

(** [get activity()]: the read clamps the index first. *)
Definition Cursor_clamp (c : Cursor) : Cursor :=
  if idx c >=? Z.of_nat (List.length (stack c))
  then {| idx := Z.of_nat (List.length (stack c)) - 1; stack := stack c |}
  else c.

Definition Cursor_activity (c : Cursor) : option Activity :=
  let c' := Cursor_clamp c in
  if idx c' <? 0 then None else item (stack c') (idx c').

(** [goBack()] *)
Definition Cursor_goBack (c : Cursor) : Cursor :=
  {| idx := idx c - 1; stack := stack c |}.

(** [while (current.activity && current.activity.options.isTransient)
       current.goBack()]; the index only moves down, [n] bounds the
    number of turns. *)
Fixpoint skipTransient (n : nat) (c : Cursor) : Cursor :=
  match n with
  | O => Cursor_clamp c
  | S n' =>
      match Cursor_activity c with
      | Some a =>
          if isTransient (options (obj rt a))
          then skipTransient n' (Cursor_goBack (Cursor_clamp c))
          else Cursor_clamp c
      | None => Cursor_clamp c
      end
  end.

(** ** The transition engine *)

(** [new a.Signal(t).emit()], [a.Signal(t)], [this.Transition(t)] and
    [this.TransitionSync.emitSync(t)]: recorded in the order of the calls. *)
Definition emit (sg : Signal) (a : option Activity) (t : ActivityTransition)
  : M unit :=
  fun w => (Resolved tt,
            {| previousTransition := previousTransition w;
               _nextTransitionID := _nextTransitionID w;
               _nextHistoryId := _nextHistoryId w;
               emitted := emitted w ++
                 [{| signal := sg; emitter := a; payload := t;
                     seen := this w |}];
               this := this w |}).

(** [Async.Promise.all(results)] for the results of the handlers of one
    emission. *)
Definition awaitAll (sg : Signal) (a : Activity) (t : ActivityTransition)
  : M unit :=
  if accepts rt sg a t then ret tt
  else throw (HandlerRejected sg a (ActivityTransition.id t)).

(** The record frozen at the start of [_processTransition], which becomes
    [previousTransition] at once. *)
Definition newTransition (to : option Activity) (op : Operation)
  : M ActivityTransition :=
  fun w =>
    let t := ActivityTransition.Build (_nextTransitionID w)
               (self (this w)) (top (this w)) to op (previousTransition w) in
    (Resolved t,
     {| previousTransition := Some t;
        _nextTransitionID := S (_nextTransitionID w);
        _nextHistoryId := _nextHistoryId w;
        emitted := emitted w;
        this := this w |}).

(** [_historyIdBase + _nextHistoryId] *)
Definition _historyIdBase : string := "_A" ++ randomDigits rt.
Definition historyId (n : nat) : string :=
  _historyIdBase ++ NilEmpty.string_of_uint (Nat.to_uint n).

(** [a.length = n] on an array: cut, or extend with empty slots. *)
Definition setLength {A} (l : list (option A)) (n : nat) : list (option A) :=
  firstn n l ++ repeat None (n - List.length l).

(** [a[i] = x] for [i] inside the array. *)
Fixpoint setItem {A} (l : list A) (i : nat) (x : A) : list A :=
  match l, i with
  | [], _ => []
  | _ :: r, O => x :: r
  | y :: r, S j => y :: setItem r j x
  end.

(** [while (this._stack.length > this.topIndex + 1) { var oldTop =
    this._stack.pop()!; if (!this.contains(oldTop)) oldTop.Deactivated(t) }].
    [n] bounds the number of turns by the length of the array; on an empty
    array [pop()] yields [undefined] and the emission throws. *)
Fixpoint truncate_loop (t : ActivityTransition) (n : nat) : M unit :=
  fun w =>
    let s := this w in
    if Z.of_nat (List.length (_stack s)) >? topIndex s + 1 then
      match n, rev (_stack s) with
      | S n', oldTop :: _ =>
          (setThis {| self := self s; _stack := removelast (_stack s);
                      topIndex := topIndex s;
                      _historyIds := _historyIds s |};;
           w' <- get;;
           (if contains (AnActivity oldTop) (this w') then ret tt
            else emit Deactivated (Some oldTop) t);;
           truncate_loop t n') w
      | _, _ => (Rejected TypeError, w)
      end
    else (Resolved tt, w).

(** The [else] branch of the [Push] case: cut the forward history, append
    [a] and give it a new history ID. *)
Definition pushTo (t : ActivityTransition) (a : Activity) : M unit :=
  w0 <- get;;
  truncate_loop t (List.length (_stack (this w0)));;
  fun w =>
    let s := this w in
    let stack' := _stack s ++ [a] in
    let top' := Z.of_nat (List.length stack') - 1 in
    (Resolved tt,
     {| previousTransition := previousTransition w;
        _nextTransitionID := _nextTransitionID w;
        _nextHistoryId := S (_nextHistoryId w);
        emitted := emitted w;
        this := {| self := self s; _stack := stack'; topIndex := top';
                   _historyIds :=
                     setItem (setLength (_historyIds s) (List.length stack'))
                       (Z.to_nat top') (Some (historyId (_nextHistoryId w)))
                |} |}).

(** The [Push] case of the [switch], which the [Replace] case falls
    into.  [Push] and [Replace] are requested for an [Activity] only (the
    callers pass the elements of [_findParents]); the embedding of the
    array holds no [undefined], so that appending [undefined] ends the
    model with [UndefinedPushed]. *)
Definition pushCase (t : ActivityTransition) : M unit :=
  w <- get;;
  let s := this w in
  if (Z.of_nat (List.length (_stack s)) >? topIndex s + 1)
     && option_eqb (item (_stack s) (topIndex s + 1)) (ActivityTransition.to t)
  then setThis (setTopIndex s (topIndex s + 1))
  else match ActivityTransition.to t with
       | Some a => pushTo t a
       | None => throw UndefinedPushed
       end.

(** [switch (t.op)] *)
Definition mutate (t : ActivityTransition) : M unit :=
  match ActivityTransition.op t with
  | Pop => w <- get;; setThis (setTopIndex (this w) (topIndex (this w) - 1))
  | Replace =>
      w <- get;;
      setThis (setTopIndex (this w) (topIndex (this w) - 1));;
      pushCase t
  | Push => pushCase t
  end.

(** What [_processTransition] has found out when it starts to wait. *)
Record Pending := {
  transition : ActivityTransition;
  oldTop : option Activity;
  resuming : bool
}.

(** First part of [_processTransition], up to the first wait: the record,
    the check for nothing to do, the emission of [Suspending]. *)
Definition processTransition_begin (to : option Activity) (op : Operation)
  : M (ActivityTransition + Pending) :=
  t <- newTransition to op;;
  w <- get;;
  let s := this w in
  if option_eqb (top s) to then
    (if Operation_eqb op Pop
     then setThis (setTopIndex s (topIndex s - 1))
     else ret tt);;
    ret (inl t)
  else
    (match top s with
     | Some a => emit Suspending (Some a) t
     | None => ret tt
     end);;
    ret (inr {| transition := t; oldTop := top s;
                resuming := match to with
                            | Some a => contains (AnActivity a) s
                            | None => false
                            end |}).

(** Second part: once the handlers of [Suspending] are done, emit
    [Resuming] or [Starting]. *)
Definition processTransition_announce (p : Pending) : M unit :=
  let t := transition p in
  (match oldTop p with
   | Some a => awaitAll Suspending a t
   | None => ret tt
   end);;
  match ActivityTransition.to t with
  | Some a => emit (if resuming p then Resuming else Starting) (Some a) t
  | None => ret tt
  end.

(** Third part: once these handlers are done too, go ahead. *)
Definition processTransition_commit (p : Pending) : M ActivityTransition :=
  let t := transition p in
  (match ActivityTransition.to t with
   | Some a => awaitAll (if resuming p then Resuming else Starting) a t
   | None => ret tt
   end);;
  emit Transition None t;;
  mutate t;;
  emit TransitionSync None t;;
  (match ActivityTransition.to t with
   | Some a =>
       (if resuming p then ret tt else emit Started (Some a) t);;
       emit Resumed (Some a) t
   | None => ret tt
   end);;
  (match oldTop p with
   | Some a => emit Suspended (Some a) t
   | None => ret tt
   end);;
  ret t.

(** [_processTransition(to, op)] *)
Definition _processTransition (to : option Activity) (op : Operation)
  : M ActivityTransition :=
  r <- processTransition_begin to op;;
  match r with
  | inl t => ret t
  | inr p => processTransition_announce p;; processTransition_commit p
  end.

(** ** The public operations

    Every public operation hands its body to the promise chain
    [_transitionP] ([pushAsync] and [replaceAsync] after a first step on
    [_pushP]), and the chain runs the bodies one after the other.  The
    functions below give what one body does when the chain gets to it, all
    the entries before it having resolved. *)

(** [isActivity ? (this.top === activityOrClass)
               : (this.top instanceof activityOrClass)] *)
Definition arrived (x : ActivityOrClass) (s : ActivityStack) : bool :=
  match x with
  | AnActivity a => option_eqb (top s) (Some a)
  | AClass c => isInstance (top s) c
  end.

(** The closure [recurse] of [upAsync], with the value that ends up in
    [result].  [budget] is [1000 - count]. *)
Fixpoint recurse (budget : nat) (x : ActivityOrClass) : M (option Activity) :=
  fun w =>
    let s := this w in
    if arrived x s then (Resolved (top s), w)
    else match budget with
         | S b =>
             if contains x s then
               (_processTransition (item (_stack s) (topIndex s - 1)) Pop;;
                recurse b x) w
             else (Resolved None, w)
         | O => (Resolved None, w)
         end.

(** [upAsync(activityOrClass)] *)
Definition upAsync (x : ActivityOrClass) : M (option Activity) :=
  setPreviousTransition None;;
  recurse 1000 x.

(** [_popTransient()]: the activity it calls [upAsync] with, if any.  The
    call only appends to [_transitionP]; it runs after the caller is done
    (see [_upToHubOrRoot]). *)
Definition _popTransient (s : ActivityStack) : option Activity :=
  match top s with
  | Some a =>
      if isTransient (options (obj rt a)) then
        Cursor_activity
          (skipTransient (S (List.length (_stack s))) (getCursor s))
      else None
  | None => None
  end.

(** The activity that [_upToHubOrRoot] moves up to, if any: the root
    activity itself, or a hub parent. *)
Definition hubOrRoot (activity : Activity) (s : ActivityStack)
  : option Activity :=
  if isRootActivity (options (obj rt activity))
     && contains (AnActivity activity) s
  then Some activity
  else match parentActivity (options (obj rt activity)) with
       | Some p =>
           match (match p with
                  | ParentInstance x => Some x
                  | ParentClass c => getParent c None s
                  end) with
           | Some parent =>
               if isHubActivity (options (obj rt parent))
               then Some parent else None
           | None => None
           end
       | None => None
       end.

(** [_upToHubOrRoot(activity)]: both decisions are taken on the stack as it
    is at the call; then the chain runs the [upAsync] of [_popTransient],
    and after it the [upAsync] to the root or hub (followed by
    [Async.sleep(2, t)], which only yields). *)
Definition _upToHubOrRoot (activity : Activity) : M unit :=
  w <- get;;
  let transient := _popTransient (this w) in
  let target := hubOrRoot activity (this w) in
  (match transient with
   | Some b => upAsync (AnActivity b);; ret tt
   | None => ret tt
   end);;
  match target with
  | Some x => upAsync (AnActivity x);; ret tt
  | None => ret tt
  end.

(** The loop of [_findParents]: [head] is [result[0]], [result] the rest of
    the array.  The loop of the source has no bound (a parent chain may be
    cyclic): [None] when [fuel] parents were not enough. *)
Fixpoint _findParents_loop (fuel : nat) (excludeTop : bool)
    (s : ActivityStack) (head : Activity) (result : list Activity)
  : option (list Activity) :=
  match parentActivity (options (obj rt head)) with
  | None => Some (head :: result)
  | Some p =>
      match fuel with
      | O => None
      | S f =>
          match p with
          | ParentInstance parent =>
              if contains (AnActivity parent) s
                 && (negb excludeTop
                     || negb (option_eqb (top s) (Some parent)))
              then Some (head :: result)
              else _findParents_loop f excludeTop s parent (head :: result)
          | ParentClass c =>
              if (negb excludeTop && isInstance (top s) c)
                 || match getParent c None s with
                    | Some _ => true
                    | None => false
                    end
              then Some (head :: result)
              else _findParents_loop f excludeTop s (getInstance rt c)
                     (head :: result)
          end
      end
  end.

(** [_findParents(activity, excludeTop?)] *)
Definition _findParents (fuel : nat) (activity : Activity)
    (excludeTop : bool) (s : ActivityStack) : option (list Activity) :=
  _findParents_loop fuel excludeTop s activity [].

(** The [forEach] of [pushAsync] and [replaceAsync]: the first transition
    is started at once, each later one when the one before has resolved.
    [opFor] is evaluated when a transition starts, with the [result] of
    that moment. *)
Fixpoint forEachParent (opFor : option ActivityTransition -> Operation)
    (l : list Activity) (result : option ActivityTransition)
  : M (option ActivityTransition) :=
  match l with
  | [] => ret result
  | a :: rest =>
      t <- _processTransition (Some a) (opFor result);;
      forEachParent opFor rest (Some t)
  end.

(** The body that [pushAsync] and [replaceAsync] give to [_transitionP]
    runs when [_upToHubOrRoot] has settled. *)
Definition stalled {A} : M A := fun w => (Stalled, w).

(** [pushAsync(activity)] *)
Definition pushAsync (fuel : nat) (activity : Activity)
  : M (option ActivityTransition) :=
  _upToHubOrRoot activity;;
  setPreviousTransition None;;
  w <- get;;
  match _findParents fuel activity false (this w) with
  | Some l => forEachParent (fun _ => Push) l None
  | None => stalled
  end.

(** [replaceAsync(activity)] *)
Definition replaceAsync (fuel : nat) (activity : Activity)
  : M (option ActivityTransition) :=
  _upToHubOrRoot activity;;
  setPreviousTransition None;;
  w <- get;;
  let s := this w in
  let lonely := topIndex s <? 0 in
  if negb lonely
     && option_eqb (item (_stack s) (topIndex s - 1)) (Some activity)
  then t <- _processTransition (Some activity) Pop;; ret (Some t)
  else match _findParents fuel activity true s with
       | Some l =>
           forEachParent
             (fun result =>
                if match result with Some _ => true | None => false end
                   || lonely
                then Push else Replace)
             l None
       | None => stalled
       end.

(** [popAsync(activity?)] *)
Definition popAsync (activity : option Activity)
  : M (option ActivityTransition) :=
  setPreviousTransition None;;
  w <- get;;
  let s := this w in
  if topIndex s <? 0 then throw NoActivityToSuspend
  else if match activity with
          | Some a => negb (option_eqb (top s) (Some a))
          | None => false
          end
  then ret None
  else t <- _processTransition (item (_stack s) (topIndex s - 1)) Pop;;
       ret (Some t).

(** ** History *)

(** [a.lastIndexOf(x)] *)
Fixpoint lastIndexOf (l : list (option string)) (x : string) : Z :=
  match l with
  | [] => -1
  | y :: r =>
      let i := lastIndexOf r x in
      if 0 <=? i then i + 1
      else match y with
           | Some s => if String.eqb s x then 0 else -1
           | None => -1
           end
  end.

(** [getHistoryPosition(historyId)] *)
Definition getHistoryPosition (h : string) (s : ActivityStack) : option Z :=
  let i := lastIndexOf (_historyIds s) h in
  if i <? 0 then None
  else if i =? topIndex s then Some 0
  else if i <? topIndex s then Some (-1) else Some 1.

(** The object returned by [getHistoryState] and [getHistoryAfter]. *)
Record HistoryState := {
  hs_title : string;
  hs_activity : Activity;
  hs_path : option string;
  hs_historyId : option string
}.

(** The indices [from], [from + 1], ... ([n] of them). *)
Fixpoint upFrom (from : Z) (n : nat) : list Z :=
  match n with
  | O => []
  | S k => from :: upFrom (from + 1) k
  end.

(** [while (++idx <= top && this._stack[idx].options &&
           this._stack[idx].options.isBackgroundActivity) {}], over the
    indices up to [top] still to visit: the index the loop leaves at, or
    [None] when it runs past [top]. *)
Fixpoint skipBackground (l : list Activity) (idxs : list Z)
  : Outcome (option Z) :=
  match idxs with
  | [] => Resolved None
  | i :: rest =>
      match item l i with
      | None => Rejected TypeError
      | Some a =>
          if isBackgroundActivity (options (obj rt a))
          then skipBackground l rest
          else Resolved (Some i)
      end
  end.

(** [for (var i = idx; i >= 0; i--) if (this._stack[i].title !== undefined)
      { title = this._stack[i].title!; break }], from the title [dflt]. *)
Fixpoint titleBelow (l : list Activity) (dflt : string) (idxs : list Z)
  : Outcome string :=
  match idxs with
  | [] => Resolved dflt
  | i :: rest =>
      match item l i with
      | None => Rejected TypeError
      | Some a =>
          match title (obj rt a) with
          | Some s => Resolved s
          | None => titleBelow l dflt rest
          end
      end
  end.

(** [getHistoryAfter(historyId)] *)
Definition getHistoryAfter (h : string) (s : ActivityStack)
  : Outcome (option HistoryState) :=
  let i := lastIndexOf (_historyIds s) h in
  if negb (String.eqb h "") && (i <? 0) then Resolved None
  else
    match skipBackground (_stack s)
            (upFrom (i + 1) (Z.to_nat (topIndex s - i))) with
    | Resolved (Some j) =>
        match get_title s with
        | Resolved t0 =>
            match titleBelow (_stack s) t0 (downTo j) with
            | Resolved t1 =>
                match item (_stack s) j with
                | Some a =>
                    Resolved (Some {| hs_title := t1; hs_activity := a;
                                      hs_path := path (obj rt a);
                                      hs_historyId :=
                                        match item (_historyIds s) j with
                                        | Some x => x
                                        | None => None
                                        end |})
                | None => Rejected TypeError
                end
            | Rejected e => Rejected e
            | Stalled => Stalled
            end
        | Rejected e => Rejected e
        | Stalled => Stalled
        end
    | Resolved None => Resolved None
    | Rejected e => Rejected e
    | Stalled => Stalled
    end.

(** ** More of the class: [peek], [getHistoryState], the cursor's
    [goParent] *)

(** The loop of [peek], over the indices above the top index still to
    visit.  Without [ignoreBackgroundActivities] the entry is returned as
    it is (possibly [undefined]); with it, [.options] is read and throws on
    a missing entry. *)
Fixpoint peek_loop (ignoreBackgroundActivities : bool) (l : list Activity)
    (idxs : list Z) : Outcome (option Activity) :=
  match idxs with
  | [] => Resolved None
  | i :: rest =>
      if negb ignoreBackgroundActivities then Resolved (item l i)
      else match item l i with
           | None => Rejected TypeError
           | Some a =>
               if negb (isBackgroundActivity (options (obj rt a)))
               then Resolved (Some a)
               else peek_loop ignoreBackgroundActivities l rest
           end
  end.

(** [peek(ignoreBackgroundActivities?)]: the loop runs for [idx] from
    [topIndex + 1] while [idx < this._stack.length]. *)
Definition peek (ignoreBackgroundActivities : bool) (s : ActivityStack)
  : Outcome (option Activity) :=
  peek_loop ignoreBackgroundActivities (_stack s)
    (upFrom (topIndex s + 1)
       (Z.to_nat (Z.of_nat (List.length (_stack s)) - (topIndex s + 1)))).

(** [getHistoryState()]: the title is read when the result is built, and
    throws when the entry at the top index is missing. *)
Definition getHistoryState (s : ActivityStack)
  : Outcome (option HistoryState) :=
  if topIndex s <? 0 then Resolved None
  else
    match get_title s with
    | Resolved t =>
        match item (_stack s) (topIndex s) with
        | Some a =>
            Resolved (Some {| hs_title := t; hs_activity := a;
                              hs_path := path (obj rt a);
                              hs_historyId :=
                                match item (_historyIds s) (topIndex s) with
                                | Some x => x
                                | None => None
                                end |})
        | None => Rejected TypeError
        end
    | Rejected e => Rejected e
    | Stalled => Stalled
    end.

(** [current === parent || isClass && (current instanceof parent)], for
    the entry [current] of the array and the declared parent. *)
Definition isParent (parent : option ParentRef) (current : option Activity)
  : bool :=
  match parent with
  | Some (ParentInstance p) => option_eqb current (Some p)
  | Some (ParentClass c) => isInstance current c
  | None => option_eqb current None
  end.

(** [for (idx--; idx >= 0; idx--) { current = stack[idx]; if (...) return
    this }]: the index the loop leaves at, [-1] when it runs to the end. *)
Fixpoint goParent_loop (parent : option ParentRef) (l : list Activity)
    (idxs : list Z) : Z :=
  match idxs with
  | [] => -1
  | i :: rest =>
      if isParent parent (item l i) then i
      else goParent_loop parent l rest
  end.

(** [goParent()] *)
Definition Cursor_goParent (c : Cursor) : Cursor :=
  match Cursor_activity c with
  | Some current =>
      {| idx := goParent_loop (parentActivity (options (obj rt current)))
                  (stack c) (downTo (idx (Cursor_clamp c) - 1));
         stack := stack c |}
  | None => Cursor_clamp c
  end.

(** [clone()]: a cursor with the same index on the same array. *)
Definition Cursor_clone (c : Cursor) : Cursor :=
  {| idx := idx c; stack := stack c |}.

(** ** Two stacks in one program

    [previousTransition] is a variable of the module: all the stacks of a
    program share it.  A transition waits twice for handlers, and the body
    of another stack's operation can run in between.  The machine below
    runs the body that [pushAsync] gives to [_transitionP] one synchronous
    part at a time, so that the parts of two stacks can alternate. *)

(** Where the body of a [pushAsync] is. *)
Inductive Task :=
| Queued (fuel : nat) (activity : Activity)
    (* handed to [_transitionP], not started *)
| AwaitingSuspending (p : Pending) (rest : list Activity)
    (* waits for the handlers of [Suspending] *)
| AwaitingAnnounced (p : Pending) (rest : list Activity)
    (* waits for the handlers of [Resuming] or [Starting] *)
| Chained (rest : list Activity) (result : option ActivityTransition)
    (* a transition has resolved, [then(p)] comes next *)
| Settled (r : Outcome (option ActivityTransition)).

Inductive Turn := First | Second.

(** [p()] for the next parent: the first part of its transition. *)
Definition startNext (rest : list Activity)
    (result : option ActivityTransition) : M Task :=
  match rest with
  | [] => ret (Settled (Resolved result))
  | a :: rest' =>
      r <- processTransition_begin (Some a) Push;;
      match r with
      | inl t => ret (Chained rest' (Some t))
      | inr p => ret (AwaitingSuspending p rest')
      end
  end.

(** One synchronous part of the body. *)
Definition advance (task : Task) : M Task :=
  match task with
  | Queued fuel activity =>
      setPreviousTransition None;;
      w <- get;;
      match _findParents fuel activity false (this w) with
      | Some l => startNext l None
      | None => stalled
      end
  | AwaitingSuspending p rest =>
      processTransition_announce p;; ret (AwaitingAnnounced p rest)
  | AwaitingAnnounced p rest =>
      t <- processTransition_commit p;; ret (Chained rest (Some t))
  | Chained rest result => startNext rest result
  | Settled r => ret (Settled r)
  end.

Definition step (task : Task) (w : World) : Task * World :=
  match advance task w with
  | (Resolved task', w') => (task', w')
  | (Rejected e, w') => (Settled (Rejected e), w')
  | (Stalled, w') => (Settled Stalled, w')
  end.

(** [n] parts of one body, with nothing in between. *)
Fixpoint runAlone (n : nat) (task : Task) (w : World) : Task * World :=
  match n with
  | O => (task, w)
  | S k => let (task', w') := step task w in runAlone k task' w'
  end.

(** A program with two stacks: the module variables and emissions
    ([vars], whose [this] is the first stack), the second stack, and the
    body that each stack is running. *)
Record Program := {
  vars : World;
  second : ActivityStack;
  task1 : Task;
  task2 : Task
}.

(** One part of the body of the first or of the second stack. *)
Definition turn (who : Turn) (g : Program) : Program :=
  match who with
  | First =>
      let (task', w') := step (task1 g) (vars g) in
      {| vars := w'; second := second g; task1 := task'; task2 := task2 g |}
  | Second =>
      let (task', w') := step (task2 g) (withThis (vars g) (second g)) in
      {| vars := withThis w' (this (vars g)); second := this w';
         task1 := task1 g; task2 := task' |}
  end.

Definition schedule (turns : list Turn) (g : Program) : Program :=
  fold_left (fun g who => turn who g) turns g.

End Stack.

(** * The vocabulary of the statements *)

Section Statements.

Variable rt : Runtime.

(** The world after an operation that only clears [previousTransition]. *)
Definition cleared (w : World) : World :=
  {| previousTransition := None;
     _nextTransitionID := _nextTransitionID w;
     _nextHistoryId := _nextHistoryId w;
     emitted := emitted w;
     this := this w |}.

(** The emission of [sg] on [a] with the transition [t], seen with the
    stack [s]. *)
Definition Emit (sg : Signal) (a : option Activity) (t : ActivityTransition)
    (s : ActivityStack) : Emission :=
  {| signal := sg; emitter := a; payload := t; seen := s |}.

(** The active region: the entries up to the top index. *)
Definition cutForward (s : ActivityStack) : list Activity :=
  firstn (Z.to_nat (topIndex s + 1)) (_stack s).

(** An emission of [Deactivated] with the transition [t]. *)
Definition isDeactivated (t : ActivityTransition) (e : Emission) : Prop :=
  signal e = Deactivated /\ payload e = t.

(** [this._stack.length > this.topIndex + 1 &&
     this._stack[this.topIndex + 1] === t.to] *)
Definition redo (s : ActivityStack) (to : option Activity) : bool :=
  (Z.of_nat (List.length (_stack s)) >? topIndex s + 1)
  && option_eqb (item (_stack s) (topIndex s + 1)) to.

(** The stack after the [Push] case for the activity [a], when the next
    history ID is number [hid]. *)
Definition afterPush (s : ActivityStack) (a : Activity) (hid : nat)
  : ActivityStack :=
  if redo s (Some a) then setTopIndex s (topIndex s + 1)
  else
    let stack' := cutForward s ++ [a] in
    let top' := Z.of_nat (List.length stack') - 1 in
    {| self := self s; _stack := stack'; topIndex := top';
       _historyIds :=
         setItem (setLength (_historyIds s) (List.length stack'))
           (Z.to_nat top') (Some (historyId rt hid)) |}.

(** The stack after [switch (t.op)]. *)
Definition afterMutate (op : Operation) (to : option Activity)
    (s : ActivityStack) (hid : nat) : ActivityStack :=
  match op, to with
  | Pop, _ => setTopIndex s (topIndex s - 1)
  | Replace, Some a => afterPush (setTopIndex s (topIndex s - 1)) a hid
  | Push, Some a => afterPush s a hid
  | _, None => s
  end.

(** Whether the [switch] takes a new history ID. *)
Definition mints (op : Operation) (to : option Activity) (s : ActivityStack)
  : bool :=
  match op with
  | Pop => false
  | Replace => negb (redo (setTopIndex s (topIndex s - 1)) to)
  | Push => negb (redo s to)
  end.

(** What the [switch] needs to go through: an activity to push, and a
    top index that the decrement of [Replace] leaves at [-1] or above. *)
Definition canMutate (op : Operation) (to : option Activity)
    (s : ActivityStack) : Prop :=
  match op with
  | Pop => True
  | Push => -1 <= topIndex s /\ to <> None
  | Replace => 0 <= topIndex s /\ to <> None
  end.

(** The record that [_processTransition(to, op)] creates in the world [w]. *)
Definition newRecord (to : option Activity) (op : Operation) (w : World)
  : ActivityTransition :=
  ActivityTransition.Build (_nextTransitionID w) (self (this w))
    (top (this w)) to op (previousTransition w).

(** [!!to && this.contains(to)] *)
Definition willResume (to : option Activity) (s : ActivityStack) : bool :=
  match to with
  | Some a => contains rt (AnActivity a) s
  | None => false
  end.

(** The signal emitted on [to] before the change. *)
Definition announced (r : bool) : Signal := if r then Resuming else Starting.

(** The first handler that the transition waits for and that rejects. *)
Definition firstVeto (t : ActivityTransition) (old : option Activity)
    (r : bool) : option (Signal * Activity) :=
  let next :=
    match ActivityTransition.to t with
    | Some a => if accepts rt (announced r) a t then None
                else Some (announced r, a)
    | None => None
    end in
  match old with
  | Some o => if accepts rt Suspending o t then next else Some (Suspending, o)
  | None => next
  end.

(** The emissions of a transition that goes through, in the order of the
    source: [s] is the stack before the [switch], [s'] the stack after it,
    [des] the [Deactivated] emissions of the [switch]. *)
Definition transitionEmissions (t : ActivityTransition)
    (old : option Activity) (r : bool) (s s' : ActivityStack)
    (des : list Emission) : list Emission :=
  match old with Some o => [Emit Suspending (Some o) t s] | None => [] end
  ++ match ActivityTransition.to t with
     | Some a => [Emit (announced r) (Some a) t s]
     | None => []
     end
  ++ [Emit Transition None t s]
  ++ des
  ++ [Emit TransitionSync None t s']
  ++ match ActivityTransition.to t with
     | Some a => (if r then [] else [Emit Started (Some a) t s'])
                 ++ [Emit Resumed (Some a) t s']
     | None => []
     end
  ++ match old with Some o => [Emit Suspended (Some o) t s'] | None => [] end.

(** The world after the first part of a transition that has work to do. *)
Definition begun (to : option Activity) (op : Operation) (w : World) : World :=
  {| previousTransition := Some (newRecord to op w);
     _nextTransitionID := S (_nextTransitionID w);
     _nextHistoryId := _nextHistoryId w;
     emitted :=
       emitted w
       ++ match top (this w) with
          | Some o => [Emit Suspending (Some o) (newRecord to op w) (this w)]
          | None => []
          end;
     this := this w |}.

Definition pendingOf (to : option Activity) (op : Operation) (w : World)
  : Pending :=
  {| transition := newRecord to op w; oldTop := top (this w);
     resuming := willResume to (this w) |}.

(** The world after a transition to the foreground that had nothing to do,
    started from the world [w]. *)
Definition afterNoop (to : option Activity) (op : Operation) (w : World)
  : World :=
  {| previousTransition := Some (newRecord to op w);
     _nextTransitionID := S (_nextTransitionID w);
     _nextHistoryId := _nextHistoryId w;
     emitted := emitted w;
     this := if Operation_eqb op Pop
             then setTopIndex (this w) (topIndex (this w) - 1)
             else this w |}.

(** The transitions announced by the [Transition] signal, in order. *)
Definition committed (l : list Emission) : list ActivityTransition :=
  map payload (filter (fun e => Signal_eqb (signal e) Transition) l).

(** Every awaited handler accepts. *)
Definition allAccept : Prop := forall sg a t, accepts rt sg a t = true.


(** The activity at index [i] has no title. *)
Definition untitled (s : ActivityStack) (i : Z) : Prop :=
  forall b, item (_stack s) i = Some b -> title (obj rt b) = None.

(** The accessor as the specification words it: the nearest title, from
    the top index down, that is not empty. *)
Fixpoint nearestNonEmptyTitle_loop (l : list Activity) (idxs : list Z)
  : string :=
  match idxs with
  | [] => EmptyString
  | i :: rest =>
      match item l i with
      | Some a =>
          match title (obj rt a) with
          | Some str => if String.eqb str EmptyString
                        then nearestNonEmptyTitle_loop l rest else str
          | None => nearestNonEmptyTitle_loop l rest
          end
      | None => nearestNonEmptyTitle_loop l rest
      end
  end.

Definition nearestNonEmptyTitle (s : ActivityStack) : string :=
  nearestNonEmptyTitle_loop (_stack s) (downTo (topIndex s)).

(** The activity at index [i] is a background activity. *)
Definition inBackground (s : ActivityStack) (i : Z) : Prop :=
  forall b, item (_stack s) i = Some b ->
            isBackgroundActivity (options (obj rt b)) = true.

(** The title in the state for index [j]: the nearest defined title at or
    below [j], and the title of the stack when there is none. *)
Definition titleAt (s : ActivityStack) (j : Z) : Outcome string :=
  match get_title rt s with
  | Resolved t0 => titleBelow rt (_stack s) t0 (downTo j)
  | Rejected e => Rejected e
  | Stalled => Stalled
  end.

(** *** One transition, as a function of the world it starts in *)

(** The stack as the class keeps it between two operations: the top index
    is [-1] or the index of an entry, and every entry has a slot for its
    history ID. *)
Definition wellFormed (s : ActivityStack) : Prop :=
  -1 <= topIndex s < Z.of_nat (List.length (_stack s)) /\
  List.length (_historyIds s) = List.length (_stack s).

(** What the callers of [_processTransition] in the class see to: [Pop]
    is requested with a foreground activity, [Push] and [Replace] for an
    activity, [Replace] with a foreground activity. *)
Definition callOK (to : option Activity) (op : Operation) (s : ActivityStack)
  : Prop :=
  match op with
  | Pop => 0 <= topIndex s
  | Push => to <> None
  | Replace => to <> None /\ 0 <= topIndex s
  end.

(** The [Deactivated] emissions of the loop that cuts the forward history,
    in [n] turns at most, from the stack [s]. *)
Fixpoint deactivations (t : ActivityTransition) (n : nat) (s : ActivityStack)
  : list Emission :=
  match n with
  | O => []
  | S n' =>
      if Z.of_nat (List.length (_stack s)) >? topIndex s + 1 then
        match rev (_stack s) with
        | oldTop :: _ =>
            let s1 := withStack s (removelast (_stack s)) in
            (if contains rt (AnActivity oldTop) s1 then []
             else [Emit Deactivated (Some oldTop) t s1])
            ++ deactivations t n' s1
        | [] => []
        end
      else []
  end.

(** The [Deactivated] emissions of the [Push] case on the stack [s]. *)
Definition pushDeactivations (t : ActivityTransition) (a : Activity)
    (s : ActivityStack) : list Emission :=
  if redo s (Some a) then []
  else deactivations t (List.length (_stack s)) s.

(** The [Deactivated] emissions of [switch (t.op)]. *)
Definition switchDeactivations (t : ActivityTransition) (op : Operation)
    (to : option Activity) (s : ActivityStack) : list Emission :=
  match op, to with
  | Pop, _ => []
  | Replace, Some a =>
      pushDeactivations t a (setTopIndex s (topIndex s - 1))
  | Push, Some a => pushDeactivations t a s
  | _, None => []
  end.

(** The emissions of a transition that a handler rejects. *)
Definition vetoedEmissions (t : ActivityTransition) (old : option Activity)
    (r : bool) (s : ActivityStack) : list Emission :=
  let next :=
    match ActivityTransition.to t with
    | Some a => [Emit (announced r) (Some a) t s]
    | None => []
    end in
  match old with
  | Some o =>
      Emit Suspending (Some o) t s
      :: (if accepts rt Suspending o t then next else [])
  | None => next
  end.

(** The world after a transition that a handler rejects. *)
Definition afterVeto (to : option Activity) (op : Operation) (w : World)
  : World :=
  {| previousTransition := Some (newRecord to op w);
     _nextTransitionID := S (_nextTransitionID w);
     _nextHistoryId := _nextHistoryId w;
     emitted := emitted w
                ++ vetoedEmissions (newRecord to op w) (top (this w))
                     (willResume to (this w)) (this w);
     this := this w |}.

(** The world after a transition that goes through. *)
Definition afterRun (to : option Activity) (op : Operation) (w : World)
  : World :=
  {| previousTransition := Some (newRecord to op w);
     _nextTransitionID := S (_nextTransitionID w);
     _nextHistoryId := (if mints op to (this w) then S (_nextHistoryId w)
                        else _nextHistoryId w);
     emitted := emitted w
                ++ transitionEmissions (newRecord to op w) (top (this w))
                     (willResume to (this w)) (this w)
                     (afterMutate op to (this w) (_nextHistoryId w))
                     (switchDeactivations (newRecord to op w) op to (this w));
     this := afterMutate op to (this w) (_nextHistoryId w) |}.

(** The three ways in which [_processTransition(to, op)] ends: nothing to
    do, a handler that rejects, or the change of the stack. *)
Definition transitionOutcome (to : option Activity) (op : Operation)
    (w : World) : Outcome ActivityTransition * World :=
  if option_eqb (top (this w)) to
  then (Resolved (newRecord to op w), afterNoop to op w)
  else
    match firstVeto (newRecord to op w) (top (this w))
            (willResume to (this w)) with
    | Some (sg, a) =>
        (Rejected (HandlerRejected sg a (_nextTransitionID w)),
         afterVeto to op w)
    | None => (Resolved (newRecord to op w), afterRun to op w)
    end.

(** *** The history IDs *)

(** No history ID is held by two slots. *)
Definition distinctIds (ids : list (option string)) : Prop :=
  forall i j h,
    nth_error ids i = Some (Some h) -> nth_error ids j = Some (Some h) ->
    i = j.

(** Every history ID of a slot was made from a number below [n]. *)
Definition issuedIds (n : nat) (ids : list (option string)) : Prop :=
  forall i h,
    nth_error ids i = Some (Some h) ->
    exists k, (k < n)%nat /\ h = historyId rt k.

(** The history IDs of the stack are distinct, and made from numbers that
    [_nextHistoryId] has passed. *)
Definition historyOk (w : World) : Prop :=
  distinctIds (_historyIds (this w)) /\
  issuedIds (_nextHistoryId w) (_historyIds (this w)).

(** *** The forward history *)

(** The entries above the top index: what the class keeps of the
    activities that were popped. *)
Definition forward (s : ActivityStack) : list Activity :=
  skipn (Z.to_nat (topIndex s + 1)) (_stack s).

(** Not a background activity. *)
Definition isForeground (a : Activity) : bool :=
  negb (isBackgroundActivity (options (obj rt a))).

(** [o === a], or [o instanceof C]: the test of [contains], and of
    [upAsync] on the foreground activity. *)
Definition matches (x : ActivityOrClass) (o : option Activity) : bool :=
  match x with
  | AnActivity a => option_eqb o (Some a)
  | AClass c => isInstance rt o c
  end.

(** The stack on which the [Push] case runs: [Replace] has decremented
    the top index. *)
Definition switchBase (op : Operation) (s : ActivityStack) : ActivityStack :=
  match op with
  | Replace => setTopIndex s (topIndex s - 1)
  | _ => s
  end.

(** The activities on which an emission of [Deactivated] was made. *)
Definition deactivated (l : list Emission) : list (option Activity) :=
  map emitter (filter (fun e => Signal_eqb (signal e) Deactivated) l).

(** *** The numbers and the links of the transitions *)

(** The transition IDs given out so far are below [_nextTransitionID], and
    the IDs of the transitions announced by [Transition] increase. *)
Definition numbered (w : World) : Prop :=
  Forall (fun e => (ActivityTransition.id (payload e)
                    < _nextTransitionID w)%nat) (emitted w) /\
  StronglySorted lt (map ActivityTransition.id (committed (emitted w))).



(** *** Parents *)

(** The activity that [c] declares as its parent: the instance itself, or
    [getInstance()] of the class. *)
Definition declaredParent (c : Activity) : option Activity :=
  match parentActivity (options (obj rt c)) with
  | Some (ParentInstance p) => Some p
  | Some (ParentClass cl) => Some (getInstance rt cl)
  | None => None
  end.

(** Whether the stack [s] holds the parent that [c] declares, as
    [_findParents] tests it. *)
Definition parentOnStack (excludeTop : bool) (s : ActivityStack)
    (c : Activity) : bool :=
  match parentActivity (options (obj rt c)) with
  | Some (ParentInstance p) =>
      contains rt (AnActivity p) s
      && (negb excludeTop || negb (option_eqb (top s) (Some p)))
  | Some (ParentClass cl) =>
      (negb excludeTop && isInstance rt (top s) cl)
      || match getParent rt cl None s with
         | Some _ => true
         | None => false
         end
  | None => false
  end.

(** Each activity of the list is the parent that the next one declares,
    and that the stack does not hold. *)
Fixpoint lineage (excludeTop : bool) (s : ActivityStack) (l : list Activity)
  : Prop :=
  match l with
  | p :: (c :: _) as rest =>
      declaredParent c = Some p /\ parentOnStack excludeTop s c = false /\
      lineage excludeTop s rest
  | _ => True
  end.

(** The machine at rest on the outcome of a body. *)
Definition settle (x : Outcome (option ActivityTransition) * World)
  : Task * World :=
  (Settled (fst x), snd x).

End Statements.

(** ** Sample runtimes and worlds, for the concrete runs *)

Module Sample.

Local Open Scope nat_scope.

Definition noOptions : ActivityOptions :=
  {| parentActivity := None; isRootActivity := false;
     isHubActivity := false; isTransient := false;
     isBackgroundActivity := false |}.

Definition plain : ActivityObject :=
  {| title := None; options := noOptions; path := None |}.

Definition childOf (p : Activity) : ActivityObject :=
  {| title := None;
     options := {| parentActivity := Some (ParentInstance p);
                   isRootActivity := false; isHubActivity := false;
                   isTransient := false; isBackgroundActivity := false |};
     path := None |}.

Definition transient : ActivityObject :=
  {| title := None;
     options := {| parentActivity := None;
                   isRootActivity := false; isHubActivity := false;
                   isTransient := true; isBackgroundActivity := false |};
     path := None |}.

Definition background : ActivityObject :=
  {| title := None;
     options := {| parentActivity := None;
                   isRootActivity := false; isHubActivity := false;
                   isTransient := false; isBackgroundActivity := true |};
     path := None |}.

Definition titled (s : string) : ActivityObject :=
  {| title := Some s; options := noOptions; path := None |}.

(** A runtime over the heap [heap], where every handler accepts. *)
Definition runtime (heap : Activity -> ActivityObject) : Runtime :=
  {| obj := heap;
     instanceOf := fun _ _ => false;
     getInstance := fun c => c;
     accepts := fun _ _ _ => true;
     randomDigits := "04217" |}.

(** The same, but the handlers of [sg] on the activity [a] reject. *)
Definition vetoing (heap : Activity -> ActivityObject) (sg : Signal)
    (a : Activity) : Runtime :=
  {| obj := heap;
     instanceOf := fun _ _ => false;
     getInstance := fun c => c;
     accepts := fun sg' a' _ => negb (Signal_eqb sg sg' && Nat.eqb a a');
     randomDigits := "04217" |}.

(** Plain activities only. *)
Definition plainHeap : Activity -> ActivityObject := fun _ => plain.

(** Activity 3 declares the parent 2, which declares the parent 1. *)
Definition chainHeap : Activity -> ActivityObject :=
  fun a => match a with
           | 3 => childOf 2
           | 2 => childOf 1
           | _ => plain
           end.

(** A hub and its child: activity 1 is a hub, activity 2 declares it as
    its parent, activity 3 is plain. *)
Definition hubHeap : Activity -> ActivityObject :=
  fun a => match a with
           | 1 =>
               {| title := None;
                  options := {| parentActivity := None;
                                isRootActivity := false;
                                isHubActivity := true;
                                isTransient := false;
                                isBackgroundActivity := false |};
                  path := None |}
           | 2 => childOf 1
           | _ => plain
           end.

(** A stack [ref] with the array [l] and the top index [i]. *)
Definition stackOf (ref : StackRef) (l : list Activity) (i : Z)
  : ActivityStack :=
  {| self := ref; _stack := l; topIndex := i;
     _historyIds := map (fun n => Some (historyId (runtime plainHeap) n))
                      (seq 0 (List.length l)) |}.

(** A world in which [List.length l] history IDs have been given out. *)
Definition worldOf (l : list Activity) (i : Z) : World :=
  {| previousTransition := None;
     _nextTransitionID := 0;
     _nextHistoryId := List.length l;
     emitted := [];
     this := stackOf 1 l i |}.

End Sample.

(** * Properties *)

Ltac unfold_monad :=
  unfold bind, ret, throw, get, setThis, setPreviousTransition, emit,
    stalled in *.

Section PopAsync.

Variable rt : Runtime.


End PopAsync.

(** ** Small facts on arrays and indices *)

Lemma option_eqb_eq : forall x y, option_eqb x y = true <-> x = y.
Proof.
  intros [a|] [b|]; cbn; split; intros H; try congruence; try discriminate.
  - apply Nat.eqb_eq in H. congruence.
  - inversion H. apply Nat.eqb_refl.
Qed.

Lemma option_eqb_neq : forall x y, option_eqb x y = false <-> x <> y.
Proof.
  intros x y. split.
  - intros H E. apply option_eqb_eq in E. congruence.
  - intros H. destruct (option_eqb x y) eqn:E; [|reflexivity].
    apply option_eqb_eq in E. contradiction.
Qed.

Lemma item_Some_lt : forall A (l : list A) i x,
    item l i = Some x -> 0 <= i < Z.of_nat (List.length l).
Proof.
  intros A l i x H. unfold item in H.
  destruct (i <? 0) eqn:E; [discriminate|].
  apply Z.ltb_ge in E.
  assert (Hlt : (Z.to_nat i < List.length l)%nat).
  { apply nth_error_Some. congruence. }
  lia.
Qed.

Lemma top_Some_lt : forall s a,
    top s = Some a -> 0 <= topIndex s < Z.of_nat (List.length (_stack s)).
Proof.
  intros s a H. unfold top in H.
  destruct (topIndex s <? 0); [discriminate|].
  eapply item_Some_lt; eauto.
Qed.

Lemma item_app_last : forall A (l : list A) x,
    item (l ++ [x]) (Z.of_nat (List.length l)) = Some x.
Proof.
  intros A l x. unfold item.
  destruct (Z.of_nat (List.length l) <? 0) eqn:E; [apply Z.ltb_lt in E; lia|].
  rewrite Nat2Z.id. rewrite nth_error_app2 by lia.
  rewrite Nat.sub_diag. reflexivity.
Qed.

Lemma removelast_is_firstn : forall A (l : list A),
    removelast l = firstn (List.length l - 1) l.
Proof.
  intros A l. induction l as [|x l IH]; [reflexivity|].
  destruct l as [|y l]; [reflexivity|].
  change (removelast (x :: y :: l)) with (x :: removelast (y :: l)).
  rewrite IH. cbn [List.length]. 
  replace (S (S (List.length l)) - 1)%nat with (S (S (List.length l) - 1))
    by lia.
  reflexivity.
Qed.

(** ** The structural part of a transition *)

Section Engine.

Variable rt : Runtime.

(** The loop that cuts the forward history stops, leaves exactly the
    active region, and emits nothing but [Deactivated]. *)
Lemma truncate_loop_run : forall t n w,
    -1 <= topIndex (this w) ->
    (List.length (_stack (this w)) <= n + Z.to_nat (topIndex (this w) + 1))%nat ->
    exists des,
      Forall (isDeactivated t) des /\
      truncate_loop rt t n w =
        (Resolved tt,
         withThis (withEmitted w (emitted w ++ des))
           (withStack (this w) (cutForward (this w)))).
Proof.
  intros t n. induction n as [|n IH]; intros w Htop Hlen.
  - exists []. split; [constructor|].
    cbn [truncate_loop].
    destruct (Z.of_nat (List.length (_stack (this w))) >? topIndex (this w) + 1)
      eqn:E.
    + apply Z.gtb_lt in E. lia.
    + rewrite Z.gtb_ltb in E. apply Z.ltb_ge in E.
      destruct w as [p i h e s]; destruct s as [sf st ti hi]; cbn in *.
      unfold withThis, withEmitted, withStack, cutForward; cbn.
      rewrite app_nil_r. rewrite firstn_all2 by lia. reflexivity.
  - cbn [truncate_loop].
    destruct (Z.of_nat (List.length (_stack (this w))) >? topIndex (this w) + 1)
      eqn:E.
    + apply Z.gtb_lt in E.
      destruct (rev (_stack (this w))) as [|oldTop r] eqn:R.
      * apply (f_equal (@List.length _)) in R. rewrite length_rev in R.
        cbn in R. lia.
      * unfold_monad.
        set (s1 := {| self := self (this w);
                      _stack := removelast (_stack (this w));
                      topIndex := topIndex (this w);
                      _historyIds := _historyIds (this w) |}).
        assert (Hrl : List.length (removelast (_stack (this w)))
                      = (List.length (_stack (this w)) - 1)%nat).
        { rewrite removelast_is_firstn. rewrite length_firstn. lia. }
        assert (Hcut : cutForward s1 = cutForward (this w)).
        { unfold cutForward, s1; cbn. rewrite removelast_is_firstn.
          rewrite firstn_firstn. f_equal. lia. }
        destruct (contains rt (AnActivity oldTop) s1) eqn:C.
        -- destruct (IH (withThis w s1)) as [des [Hdes Hrun]];
             [cbn; lia | cbn; lia |].
           exists des. split; [exact Hdes|].
           cbn in *. rewrite C. cbn. fold s1. unfold withThis in Hrun.
           cbn in Hrun. rewrite Hrun. unfold withThis, withEmitted, withStack; cbn.
           rewrite Hcut. reflexivity.
        -- destruct (IH (withEmitted (withThis w s1)
                           (emitted w ++ [Emit Deactivated (Some oldTop) t s1])))
             as [des [Hdes Hrun]]; [cbn; lia | cbn; lia |].
           exists (Emit Deactivated (Some oldTop) t s1 :: des).
           split; [constructor; [split; reflexivity|exact Hdes]|].
           cbn in *. rewrite C. cbn. fold s1.
           unfold withThis, withEmitted, Emit in Hrun.
           cbn in Hrun. rewrite Hrun.
           unfold withThis, withEmitted, withStack; cbn.
           rewrite Hcut. rewrite <- app_assoc. reflexivity.
    + rewrite Z.gtb_ltb in E. apply Z.ltb_ge in E.
      exists []. split; [constructor|].
      destruct w as [p i h e s]; destruct s as [sf st ti hi]; cbn in *.
      unfold withThis, withEmitted, withStack, cutForward; cbn.
      rewrite app_nil_r. rewrite firstn_all2 by lia. reflexivity.
Qed.

Lemma pushCase_run : forall t a w,
    ActivityTransition.to t = Some a ->
    -1 <= topIndex (this w) ->
    exists des,
      Forall (isDeactivated t) des /\
      pushCase rt t w =
        (Resolved tt,
         {| previousTransition := previousTransition w;
            _nextTransitionID := _nextTransitionID w;
            _nextHistoryId :=
              (if redo (this w) (Some a) then _nextHistoryId w
               else S (_nextHistoryId w));
            emitted := emitted w ++ des;
            this := afterPush rt (this w) a (_nextHistoryId w) |}).
Proof.
  intros t a w Hto Htop.
  unfold pushCase, afterPush, redo. unfold_monad. rewrite Hto.
  destruct ((Z.of_nat (List.length (_stack (this w))) >? topIndex (this w) + 1)
            && option_eqb (item (_stack (this w)) (topIndex (this w) + 1))
                 (Some a)) eqn:E.
  - exists []. split; [constructor|]. cbn. rewrite app_nil_r. reflexivity.
  - unfold pushTo. unfold_monad.
    destruct (truncate_loop_run t (List.length (_stack (this w))) w Htop)
      as [des [Hdes Hrun]]; [lia|].
    exists des. split; [exact Hdes|].
    rewrite Hrun. cbn. reflexivity.
Qed.

Lemma mutate_run : forall t w,
    canMutate (ActivityTransition.op t) (ActivityTransition.to t) (this w) ->
    exists des,
      Forall (isDeactivated t) des /\
      mutate rt t w =
        (Resolved tt,
         {| previousTransition := previousTransition w;
            _nextTransitionID := _nextTransitionID w;
            _nextHistoryId :=
              (if mints (ActivityTransition.op t) (ActivityTransition.to t)
                    (this w)
               then S (_nextHistoryId w) else _nextHistoryId w);
            emitted := emitted w ++ des;
            this := afterMutate rt (ActivityTransition.op t)
                      (ActivityTransition.to t) (this w)
                      (_nextHistoryId w) |}).
Proof.
  intros t w Hcan. unfold mutate, afterMutate, mints.
  destruct (ActivityTransition.op t) eqn:Hop; cbn in Hcan.
  - destruct Hcan as [Htop Hto].
    destruct (ActivityTransition.to t) as [a|] eqn:Ht; [|congruence].
    destruct (pushCase_run t a w Ht Htop) as [des [Hdes Hrun]].
    exists des. split; [exact Hdes|]. rewrite Hrun.
    destruct (redo (this w) (Some a)); reflexivity.
  - destruct Hcan as [Htop Hto].
    destruct (ActivityTransition.to t) as [a|] eqn:Ht; [|congruence].
    unfold_monad.
    destruct (pushCase_run t a
                (withThis w (setTopIndex (this w) (topIndex (this w) - 1)))
                Ht) as [des [Hdes Hrun]]; [cbn; lia|].
    exists des. split; [exact Hdes|].
    unfold withThis in Hrun. cbn in Hrun. cbn. rewrite Hrun.
    destruct (redo (setTopIndex (this w) (topIndex (this w) - 1)) (Some a));
      reflexivity.
  - exists []. split; [constructor|]. unfold_monad. cbn.
    rewrite app_nil_r. reflexivity.
Qed.

(** ** One transition *)

(** Nothing to do: [to] is the foreground already. *)
Lemma processTransition_noop : forall to op w,
    top (this w) = to ->
    _processTransition rt to op w =
      (Resolved (newRecord to op w),
       {| previousTransition := Some (newRecord to op w);
          _nextTransitionID := S (_nextTransitionID w);
          _nextHistoryId := _nextHistoryId w;
          emitted := emitted w;
          this := if Operation_eqb op Pop
                  then setTopIndex (this w) (topIndex (this w) - 1)
                  else this w |}).
Proof.
  intros to op w Htop.
  unfold _processTransition, processTransition_begin, newTransition.
  unfold_monad. cbn.
  assert (E : option_eqb (top (this w)) to = true)
    by (apply option_eqb_eq; exact Htop).
  rewrite E. unfold newRecord. destruct (Operation_eqb op Pop); reflexivity.
Qed.

Lemma processTransition_begin_run : forall to op w,
    top (this w) <> to ->
    processTransition_begin rt to op w =
      (Resolved (inr (pendingOf rt to op w)), begun to op w).
Proof.
  intros to op w Hne.
  unfold processTransition_begin, newTransition. unfold_monad. cbn.
  assert (E : option_eqb (top (this w)) to = false)
    by (apply option_eqb_neq; exact Hne).
  rewrite E. unfold begun, pendingOf, newRecord, willResume.
  destruct (top (this w)); cbn; [reflexivity|].
  rewrite app_nil_r. reflexivity.
Qed.

(** A handler rejects: the future rejects and the stack is as before. *)
Lemma processTransition_veto : forall to op w sg a,
    top (this w) <> to ->
    firstVeto rt (newRecord to op w) (top (this w)) (willResume rt to (this w))
      = Some (sg, a) ->
    exists l,
      _processTransition rt to op w =
        (Rejected (HandlerRejected sg a (_nextTransitionID w)),
         {| previousTransition := Some (newRecord to op w);
            _nextTransitionID := S (_nextTransitionID w);
            _nextHistoryId := _nextHistoryId w;
            emitted := emitted w ++ l;
            this := this w |}).
Proof.
  intros to op w sg a Hne Hveto.
  unfold _processTransition, bind.
  rewrite (processTransition_begin_run to op w Hne).
  unfold processTransition_announce, processTransition_commit, awaitAll,
    firstVeto, begun, pendingOf in *.
  cbn [transition oldTop resuming ActivityTransition.to newRecord] in *.
  destruct (top (this w)) as [o|] eqn:Ho.
  - destruct (accepts rt Suspending o (newRecord to op w)) eqn:A1.
    + destruct to as [b|]; [|discriminate].
      fold (announced (willResume rt (Some b) (this w))).
      destruct (accepts rt (announced (willResume rt (Some b) (this w))) b
                  (newRecord (Some b) op w)) eqn:A2; [discriminate|].
      injection Hveto as <- <-. unfold_monad. cbn.
      eexists. rewrite <- app_assoc. reflexivity.
    + injection Hveto as <- <-. unfold_monad. cbn. eexists. reflexivity.
  - destruct to as [b|]; [|discriminate].
    fold (announced (willResume rt (Some b) (this w))).
    destruct (accepts rt (announced (willResume rt (Some b) (this w))) b
                (newRecord (Some b) op w)) eqn:A2; [discriminate|].
    injection Hveto as <- <-. unfold_monad. cbn.
    eexists. rewrite <- app_assoc. reflexivity.
Qed.

(** No handler rejects: the transition goes through. *)
Lemma processTransition_run : forall to op w,
    top (this w) <> to ->
    firstVeto rt (newRecord to op w) (top (this w)) (willResume rt to (this w))
      = None ->
    canMutate op to (this w) ->
    exists des,
      Forall (isDeactivated (newRecord to op w)) des /\
      _processTransition rt to op w =
        (Resolved (newRecord to op w),
         {| previousTransition := Some (newRecord to op w);
            _nextTransitionID := S (_nextTransitionID w);
            _nextHistoryId :=
              (if mints op to (this w) then S (_nextHistoryId w)
               else _nextHistoryId w);
            emitted :=
              emitted w ++
              transitionEmissions (newRecord to op w) (top (this w))
                (willResume rt to (this w)) (this w)
                (afterMutate rt op to (this w) (_nextHistoryId w)) des;
            this := afterMutate rt op to (this w) (_nextHistoryId w) |}).
Proof.
  intros to op w Hne Hveto Hcan.
  unfold _processTransition, bind.
  rewrite (processTransition_begin_run to op w Hne).
  unfold begun, pendingOf, firstVeto, transitionEmissions in *.
  assert (Hto : ActivityTransition.to (newRecord to op w) = to)
    by reflexivity.
  assert (Hop : ActivityTransition.op (newRecord to op w) = op)
    by reflexivity.
  remember (newRecord to op w) as t eqn:Ht.
  remember (willResume rt to (this w)) as r eqn:Hr.
  remember (top (this w)) as old eqn:Hold.
  set (w1 := {| previousTransition := Some t;
                _nextTransitionID := S (_nextTransitionID w);
                _nextHistoryId := _nextHistoryId w;
                emitted :=
                  emitted w
                  ++ match old with
                     | Some o => [Emit Suspending (Some o) t (this w)]
                     | None => []
                     end
                  ++ match to with
                     | Some a => [Emit (announced r) (Some a) t (this w)]
                     | None => []
                     end
                  ++ [Emit Transition None t (this w)];
                this := this w |}).
  destruct (mutate_run t w1) as [des [Hdes Hrun]];
    [rewrite Hto, Hop; exact Hcan|].
  rewrite Hto, Hop in Hrun. cbn [this _nextHistoryId emitted w1] in Hrun.
  exists des. split; [exact Hdes|].
  unfold processTransition_announce, processTransition_commit, awaitAll.
  cbn [transition oldTop resuming].
  rewrite Hto in *. fold (announced r) in *.
  assert (Hacc : match old with
                 | Some o => accepts rt Suspending o t = true
                 | None => True
                 end /\
                 match to with
                 | Some a => accepts rt (announced r) a t = true
                 | None => True
                 end).
  { destruct old as [o|]; [destruct (accepts rt Suspending o t)|];
      destruct to as [b|]; try destruct (accepts rt (announced r) b t);
      try discriminate; split; trivial. }
  destruct Hacc as [A1 A2]. clear Hveto.
  unfold w1 in Hrun. clear w1. unfold Emit in *.
  destruct old as [o|]; [rewrite A1|]; (destruct to as [b|]; [rewrite A2|]);
    unfold_monad; cbn [previousTransition _nextTransitionID _nextHistoryId
                       emitted this];
    repeat rewrite <- app_assoc in *; cbn [app] in *;
    rewrite Hrun;
    cbn [previousTransition _nextTransitionID _nextHistoryId emitted this];
    try (destruct r);
    cbn [previousTransition _nextTransitionID _nextHistoryId emitted this];
    unfold Emit; repeat rewrite <- app_assoc; cbn [app]; reflexivity.
Qed.

(** *** What the [Push] case does to the active region *)

Lemma length_cutForward : forall s,
    -1 <= topIndex s < Z.of_nat (List.length (_stack s)) ->
    Z.of_nat (List.length (cutForward s)) = topIndex s + 1.
Proof.
  intros s H. unfold cutForward. rewrite length_firstn. lia.
Qed.

Lemma firstn_succ_item : forall A (l : list A) n x,
    nth_error l n = Some x -> firstn (S n) l = firstn n l ++ [x].
Proof.
  intros A l. induction l as [|y l IH]; intros n x H.
  - destruct n; discriminate.
  - destruct n as [|n]; cbn in *.
    + inversion H. reflexivity.
    + rewrite (IH n x H). reflexivity.
Qed.

(** After a push of [a] the foreground is [a], one slot higher, and the
    active region is the old one with [a] on top. *)
Lemma afterPush_top : forall s a hid,
    -1 <= topIndex s < Z.of_nat (List.length (_stack s)) ->
    topIndex (afterPush rt s a hid) = topIndex s + 1 /\
    top (afterPush rt s a hid) = Some a /\
    cutForward (afterPush rt s a hid) = cutForward s ++ [a].
Proof.
  intros s a hid H. unfold afterPush, redo.
  destruct ((Z.of_nat (List.length (_stack s)) >? topIndex s + 1)
            && option_eqb (item (_stack s) (topIndex s + 1)) (Some a)) eqn:E.
  - apply andb_prop in E. destruct E as [E1 E2].
    apply option_eqb_eq in E2.
    split; [reflexivity|]. split.
    + unfold top, setTopIndex. cbn.
      destruct (topIndex s + 1 <? 0) eqn:L; [apply Z.ltb_lt in L; lia|].
      exact E2.
    + unfold cutForward, setTopIndex. cbn.
      unfold item in E2.
      destruct (topIndex s + 1 <? 0) eqn:L; [discriminate|].
      replace (Z.to_nat (topIndex s + 1 + 1))
        with (S (Z.to_nat (topIndex s + 1))) by lia.
      apply firstn_succ_item. exact E2.
  - pose proof (length_cutForward s H) as Hlen.
    assert (Hl : Z.of_nat (List.length (cutForward s ++ [a])) - 1
                 = topIndex s + 1).
    { rewrite length_app. cbn. lia. }
    split; [cbn; exact Hl|]. split.
    + unfold top. cbn [topIndex _stack]. rewrite Hl.
      destruct (topIndex s + 1 <? 0) eqn:L; [apply Z.ltb_lt in L; lia|].
      rewrite <- Hlen. apply item_app_last.
    + unfold cutForward at 1. cbn [topIndex _stack]. rewrite Hl.
      apply firstn_all2. rewrite length_app. cbn. lia.
Qed.

Lemma length_setItem : forall A (l : list A) i x,
    List.length (setItem l i x) = List.length l.
Proof.
  intros A l. induction l as [|y l IH]; intros i x; [reflexivity|].
  destruct i; cbn; [reflexivity|]. rewrite IH. reflexivity.
Qed.

Lemma length_setLength : forall A (l : list (option A)) n,
    List.length (setLength l n) = n.
Proof.
  intros A l n. unfold setLength.
  rewrite length_app, length_firstn, repeat_length. lia.
Qed.


(** The [switch] keeps the top index inside the array. *)
Lemma afterMutate_keeps_top_inside : forall op to s hid,
    canMutate op to s ->
    topIndex s < Z.of_nat (List.length (_stack s)) ->
    topIndex (afterMutate rt op to s hid)
    < Z.of_nat (List.length (_stack (afterMutate rt op to s hid))).
Proof.
  intros op to s hid Hcan Hwf.
  assert (P : forall s' a,
             -1 <= topIndex s' < Z.of_nat (List.length (_stack s')) ->
             topIndex (afterPush rt s' a hid)
             < Z.of_nat (List.length (_stack (afterPush rt s' a hid)))).
  { intros s' a Hr.
    destruct (afterPush_top s' a hid Hr) as [_ [Ht _]].
    apply top_Some_lt in Ht. lia. }
  unfold afterMutate. destruct op; cbn in Hcan.
  - destruct Hcan as [H0 Hto]. destruct to as [a|]; [|congruence].
    apply P. lia.
  - destruct Hcan as [H0 Hto]. destruct to as [a|]; [|congruence].
    apply P. cbn. lia.
  - cbn. lia.
Qed.

End Engine.

(** ** The order of the emissions of one transition *)

Section Order.

Variable rt : Runtime.

(** C1.  A [Push] of an activity [new] onto a stack whose foreground is
    another activity [old], with handlers that accept: the emissions of the
    transition are, in this order, [Suspending] on [old], [Starting] on
    [new], [Transition], then the change of the stack (during which only
    [Deactivated] is emitted, on the entries cut from the forward history),
    [TransitionSync], [Started] and [Resumed] on [new], [Suspended] on
    [old].  The emissions up to [Transition] see the stack as it was, those
    from [TransitionSync] on see the stack with [new] in the foreground, one
    slot higher.  When [new] is already in the active region, [Resuming]
    stands in the place of [Starting] and there is no [Started]. *)
Theorem push_emission_order :
  forall (w : World) (old new : Activity),
    top (this w) = Some old ->
    old <> new ->
    let t := newRecord (Some new) Push w in
    let r := contains rt (AnActivity new) (this w) in
    accepts rt Suspending old t = true ->
    accepts rt (if r then Resuming else Starting) new t = true ->
    exists (des : list Emission) (w' : World),
      _processTransition rt (Some new) Push w = (Resolved t, w') /\
      Forall (isDeactivated t) des /\
      topIndex (this w') = topIndex (this w) + 1 /\
      top (this w') = Some new /\
      emitted w' =
        emitted w
        ++ [Emit Suspending (Some old) t (this w);
            Emit (if r then Resuming else Starting) (Some new) t (this w);
            Emit Transition None t (this w)]
        ++ des
        ++ [Emit TransitionSync None t (this w')]
        ++ (if r then [] else [Emit Started (Some new) t (this w')])
        ++ [Emit Resumed (Some new) t (this w');
            Emit Suspended (Some old) t (this w')].
Proof.
  intros w old new Htop Hne t r A1 A2.
  assert (Hne' : top (this w) <> Some new) by congruence.
  pose proof (top_Some_lt _ _ Htop) as Hrange.
  destruct (processTransition_run rt (Some new) Push w)
    as [des [Hdes Hrun]]; try assumption.
  - unfold firstVeto, willResume, announced. rewrite Htop.
    cbn [ActivityTransition.to newRecord]. fold t r.
    rewrite A1, A2. reflexivity.
  - cbn. split; [lia|discriminate].
  - exists des. eexists. split; [exact Hrun|]. split; [exact Hdes|].
    cbn [this emitted afterMutate].
    destruct (afterPush_top rt (this w) new (_nextHistoryId w))
      as [H1 [H2 _]]; [lia|].
    split; [exact H1|]. split; [exact H2|].
    unfold transitionEmissions, willResume, announced. rewrite Htop.
    cbn [ActivityTransition.to newRecord]. fold t r.
    repeat rewrite <- app_assoc. cbn [app].
    destruct r; reflexivity.
Qed.

End Order.

(** A run of C1: the plain activity 2 is pushed onto the stack [[1]]. *)
Lemma push_emission_order_witness :
  exists (des : list Emission) (w' : World),
    _processTransition (Sample.runtime Sample.plainHeap) (Some 2%nat) Push
      (Sample.worldOf [1%nat] 0) =
      (Resolved (newRecord (Some 2%nat) Push (Sample.worldOf [1%nat] 0)), w')
    /\ Forall (isDeactivated
                 (newRecord (Some 2%nat) Push (Sample.worldOf [1%nat] 0))) des
    /\ topIndex (this w') = 1
    /\ top (this w') = Some 2%nat
    /\ map signal (emitted w') =
         [Suspending; Starting; Transition] ++ map signal des
         ++ [TransitionSync; Started; Resumed; Suspended].
Proof.
  destruct (push_emission_order (Sample.runtime Sample.plainHeap)
              (Sample.worldOf [1%nat] 0) 1%nat 2%nat)
    as [des [w' [H1 [H2 [H3 [H4 H5]]]]]];
    [reflexivity | discriminate | reflexivity | reflexivity |].
  exists des, w'. split; [exact H1|]. split; [exact H2|].
  split; [exact H3|]. split; [exact H4|].
  rewrite H5. cbn. rewrite !map_app. reflexivity.
Defined.

(** ** Handlers that reject *)

Section Veto.

Variable rt : Runtime.

Lemma bind_resolved : forall A B (m : M A) (k : A -> M B) w a w',
    m w = (Resolved a, w') -> bind m k w = k a w'.
Proof. intros A B m k w a w' H. unfold bind. rewrite H. reflexivity. Qed.

Lemma bind_rejected : forall A B (m : M A) (k : A -> M B) w e w',
    m w = (Rejected e, w') -> bind m k w = (Rejected e, w').
Proof. intros A B m k w e w' H. unfold bind. rewrite H. reflexivity. Qed.

(** The transitions of a list are those of its first part, then those of
    the rest. *)
Lemma forEachParent_app : forall opFor l1 l2 result w,
    forEachParent rt opFor (l1 ++ l2) result w =
    bind (forEachParent rt opFor l1 result)
         (fun r => forEachParent rt opFor l2 r) w.
Proof.
  intros opFor l1. induction l1 as [|a l1 IH]; intros l2 result w.
  - reflexivity.
  - cbn [forEachParent app]. unfold bind.
    destruct (_processTransition rt (Some a) (opFor result) w)
      as [[t|e|] w1]; [|reflexivity|reflexivity].
    rewrite IH. reflexivity.
Qed.

(** C2.  A transition that has work to do ([to] is not the foreground) and
    one of whose awaited handlers rejects (the handlers of [Suspending] on
    the foreground, or those of [Resuming] or [Starting] on [to]): the
    future rejects, and [_stack], [topIndex] and [_historyIds] are what they
    were before the step.  In a chain of transitions
    ([pushAsync], [replaceAsync]) the steps that went through before the
    rejected one stay: the chain rejects and the stack is the one those
    steps left. *)
Theorem rejected_step_leaves_stack :
  forall (to : option Activity) (op : Operation) (w : World),
    top (this w) <> to ->
    (exists o, top (this w) = Some o /\
               accepts rt Suspending o (newRecord to op w) = false) \/
    (exists a, to = Some a /\
               accepts rt (announced (willResume rt to (this w))) a
                 (newRecord to op w) = false) ->
    (exists sg a w',
        _processTransition rt to op w =
          (Rejected (HandlerRejected sg a (_nextTransitionID w)), w') /\
        this w' = this w) /\
    (forall opFor before after result w0 x r,
        to = Some x -> op = opFor r ->
        forEachParent rt opFor before result w0 = (Resolved r, w) ->
        exists e w',
          forEachParent rt opFor (before ++ x :: after) result w0 =
            (Rejected e, w') /\
          this w' = this w).
Proof.
  intros to op w Hne Hrej.
  assert (Hveto : exists sg a,
             firstVeto rt (newRecord to op w) (top (this w))
               (willResume rt to (this w)) = Some (sg, a)).
  { unfold firstVeto. cbn [ActivityTransition.to newRecord].
    destruct (top (this w)) as [o|] eqn:Ho.
    - destruct (accepts rt Suspending o (newRecord to op w)) eqn:A1.
      + destruct Hrej as [[o' [Ho' A]]|[a [Ha A]]].
        * inversion Ho'; subst. congruence.
        * subst to. rewrite A. eauto.
      + eauto.
    - destruct Hrej as [[o' [Ho' A]]|[a [Ha A]]]; [discriminate|].
      subst to. rewrite A. eauto. }
  destruct Hveto as [sg [a Hveto]].
  destruct (processTransition_veto rt to op w sg a Hne Hveto) as [l Hrun].
  split.
  - exists sg, a. eexists. split; [exact Hrun|reflexivity].
  - intros opFor before after result w0 x r Hto Hop Hbefore.
    subst to op. rewrite forEachParent_app.
    rewrite (bind_resolved _ _ _ _ _ _ _ Hbefore).
    cbn [forEachParent].
    rewrite (bind_rejected _ _ _ _ _ _ _ Hrun).
    eexists. eexists. split; reflexivity.
Qed.

End Veto.

(** A run of C2: [pushAsync(3)] on an empty stack, where 3 declares the
    parent 2 and 2 the parent 1, and the handlers of [Starting] on 2
    reject.  The transition to 1 has gone through when the one to 2 is
    rejected, and 1 stays on the stack. *)
Lemma rejected_step_leaves_stack_witness :
  exists e w',
    forEachParent (Sample.vetoing Sample.chainHeap Starting 2%nat)
      (fun _ => Push) ([1%nat] ++ 2%nat :: [3%nat]) None
      (Sample.worldOf [] (-1)) = (Rejected e, w') /\
    _stack (this w') = [1%nat] /\ topIndex (this w') = 0.
Proof.
  pose (rt := Sample.vetoing Sample.chainHeap Starting 2%nat).
  pose (w0 := Sample.worldOf [] (-1)).
  pose (w1 := snd (_processTransition rt (Some 1%nat) Push w0)).
  destruct (rejected_step_leaves_stack rt (Some 2%nat) Push w1) as [_ H].
  - vm_compute. discriminate.
  - right. exists 2%nat. split; [reflexivity|]. vm_compute. reflexivity.
  - destruct (H (fun _ => Push) [1%nat] [3%nat] None w0 2%nat
                (Some (newRecord (Some 1%nat) Push w0)) eq_refl eq_refl)
      as [e [w' [Hrun Hthis]]].
    + vm_compute. reflexivity.
    + exists e, w'. split; [exact Hrun|].
      rewrite Hthis. vm_compute. split; reflexivity.
Defined.

(** ** Moving up *)

Section Up.

Variable rt : Runtime.

Lemma downTo_head : forall i, 0 <= i -> exists r, downTo i = i :: r.
Proof.
  intros i H. unfold downTo.
  replace (Z.to_nat (i + 1)) with (S (Z.to_nat i)) by lia.
  cbn. rewrite Z2Nat.id by lia. eauto.
Qed.

(** The foreground is in the active region. *)
Lemma arrived_contains : forall x s,
    arrived rt x s = true -> contains rt x s = true.
Proof.
  intros x s H. unfold arrived, top in H. unfold contains.
  destruct (topIndex s <? 0) eqn:L.
  - destruct x; cbn in H; discriminate.
  - apply Z.ltb_ge in L. destruct (downTo_head _ L) as [r Hr]. rewrite Hr.
    destruct x; cbn [existsb]; rewrite H; reflexivity.
Qed.

Lemma recurse_arrived : forall b x w,
    arrived rt x (this w) = true ->
    recurse rt b x w = (Resolved (top (this w)), w).
Proof.
  intros b x w H. destruct b; cbn [recurse]; rewrite H; reflexivity.
Qed.


(** [upAsync] to what is in the foreground already pops nothing. *)
Lemma upAsync_arrived : forall x w,
    arrived rt x (this w) = true ->
    upAsync rt x w = (Resolved (top (this w)), cleared w).
Proof.
  intros x w H. unfold upAsync, bind, setPreviousTransition.
  apply (recurse_arrived 1000 x (cleared w)). exact H.
Qed.





End Up.

(** ** A transition to the activity in the foreground *)

Section Foreground.

Variable rt : Runtime.

(** [_upToHubOrRoot] when there is nothing to pop: no transient activity
    to leave, and no root or hub to move up to other than the foreground
    itself. *)
Lemma upToHubOrRoot_quiet : forall a w,
    _popTransient rt (this w) = None ->
    hubOrRoot rt a (this w) = None \/
    (hubOrRoot rt a (this w) = top (this w) /\ top (this w) <> None) ->
    exists w',
      _upToHubOrRoot rt a w = (Resolved tt, w') /\
      (w' = w \/ w' = cleared w).
Proof.
  intros a w Hpop Hhub. unfold _upToHubOrRoot, bind, get.
  rewrite Hpop. unfold ret at 1.
  destruct Hhub as [H|[H Hsome]]; rewrite H.
  - eexists. split; [reflexivity|]. left. reflexivity.
  - destruct (top (this w)) as [b|] eqn:T; [|congruence].
    rewrite (upAsync_arrived rt (AnActivity b) w).
    + eexists. split; [reflexivity|]. right. reflexivity.
    + unfold arrived. rewrite T. apply option_eqb_eq. reflexivity.
Qed.


End Foreground.



(** ** The transitions that a call commits *)

Lemma committed_app : forall l1 l2,
    committed (l1 ++ l2) = committed l1 ++ committed l2.
Proof.
  intros l1 l2. unfold committed. rewrite filter_app, map_app. reflexivity.
Qed.

Lemma committed_deactivated : forall t des,
    Forall (isDeactivated t) des -> committed des = [].
Proof.
  intros t des H. induction H as [|e des [Hs _] _ IH]; [reflexivity|].
  unfold committed in *. cbn. rewrite Hs. cbn. exact IH.
Qed.

(** A transition that goes through is announced once. *)
Lemma committed_transitionEmissions : forall t old r s s' des,
    Forall (isDeactivated t) des ->
    committed (transitionEmissions t old r s s' des) = [t].
Proof.
  intros t old r s s' des H. unfold transitionEmissions.
  repeat rewrite committed_app. rewrite (committed_deactivated t des H).
  destruct old, (ActivityTransition.to t), r; reflexivity.
Qed.

(** ** Pushing an activity with its ancestors *)

Section Ancestors.

Variable rt : Runtime.

Lemma firstVeto_allAccept : forall t old r,
    allAccept rt -> firstVeto rt t old r = None.
Proof.
  intros t old r H. unfold firstVeto.
  destruct old as [o|]; [rewrite H|];
    (destruct (ActivityTransition.to t); [rewrite H|]); reflexivity.
Qed.




End Ancestors.


(** ** Replacing the foreground by the activity beneath it *)

Section ReplaceAsync.

Variable rt : Runtime.

Lemma In_downFrom : forall n i, 0 <= i < Z.of_nat n -> In i (downFrom n).
Proof.
  induction n as [|n IH]; intros i H; [lia|].
  cbn [downFrom]. destruct (Z.eq_dec i (Z.of_nat n)) as [->|Hne].
  - left. reflexivity.
  - right. apply IH. lia.
Qed.

Lemma In_downTo : forall top i, 0 <= i <= top -> In i (downTo top).
Proof.
  intros top i H. unfold downTo. apply In_downFrom. lia.
Qed.

(** An entry at or below the top index is in the active region. *)
Lemma item_contains : forall s i a,
    item (_stack s) i = Some a -> 0 <= i <= topIndex s ->
    contains rt (AnActivity a) s = true.
Proof.
  intros s i a Hitem Hi. unfold contains. apply existsb_exists.
  exists i. split; [apply In_downTo; exact Hi|].
  rewrite Hitem. apply option_eqb_eq. reflexivity.
Qed.


End ReplaceAsync.



(** ** The title of the stack *)

Section Title.

Variable rt : Runtime.

Lemma item_in_range : forall A (l : list A) i,
    0 <= i < Z.of_nat (List.length l) -> exists x, item l i = Some x.
Proof.
  intros A l i H. unfold item.
  destruct (i <? 0) eqn:E; [apply Z.ltb_lt in E; lia|].
  destruct (nth_error l (Z.to_nat i)) eqn:N; [eauto|].
  apply nth_error_None in N. lia.
Qed.

Lemma title_loop_nearest : forall l dflt n,
    (n <= List.length l)%nat ->
    (exists i a str,
        0 <= i < Z.of_nat n /\ item l i = Some a /\
        title (obj rt a) = Some str /\
        (forall j b, i < j < Z.of_nat n -> item l j = Some b ->
                     title (obj rt b) = None) /\
        titleBelow rt l dflt (downFrom n) = Resolved str) \/
    ((forall j b, 0 <= j < Z.of_nat n -> item l j = Some b ->
                  title (obj rt b) = None) /\
     titleBelow rt l dflt (downFrom n) = Resolved dflt).
Proof.
  intros l dflt n. induction n as [|n IH]; intros Hn.
  - right. split; [intros; lia|reflexivity].
  - cbn [downFrom titleBelow].
    destruct (item_in_range _ l (Z.of_nat n)) as [a Ha]; [lia|].
    rewrite Ha. destruct (title (obj rt a)) as [str|] eqn:T.
    + left. exists (Z.of_nat n), a, str.
      repeat split; try lia; try assumption; try (intros; lia).
    + destruct IH as [[i [a' [str [Hi [Hit [Ht [Hab Hrun]]]]]]]|[Hall Hrun]];
        [lia| |].
      * left. exists i, a', str. repeat split; try lia; try assumption.
        intros j b Hj Hb.
        destruct (Z.eq_dec j (Z.of_nat n)) as [->|Hne].
        -- congruence.
        -- apply (Hab j b); [lia|exact Hb].
      * right. split; [|exact Hrun]. intros j b Hj Hb.
        destruct (Z.eq_dec j (Z.of_nat n)) as [->|Hne].
        -- congruence.
        -- apply (Hall j b); [lia|exact Hb].
Qed.

Lemma title_loop_titleBelow : forall l idxs,
    title_loop rt l idxs = titleBelow rt l EmptyString idxs.
Proof.
  intros l idxs. induction idxs as [|i r IH]; [reflexivity|].
  cbn. destruct (item l i) as [a|]; [|reflexivity].
  destruct (title (obj rt a)); [reflexivity|exact IH].
Qed.

(** On a stack whose top index is inside the array, [title] does not
    throw. *)
Lemma get_title_resolves : forall s,
    topIndex s < Z.of_nat (List.length (_stack s)) ->
    exists str, get_title rt s = Resolved str.
Proof.
  intros s Hwf. unfold get_title, downTo. rewrite title_loop_titleBelow.
  destruct (title_loop_nearest (_stack s) EmptyString
              (Z.to_nat (topIndex s + 1)))
    as [[i [a [str [_ [_ [_ [_ H]]]]]]]|[_ H]]; [lia| |]; eauto.
Qed.

(** C9 (as amended).  On a stack whose top index is inside the array,
    [title] is the title of the nearest activity, from the top index
    down, whose title is defined (not [undefined]); it is the empty string
    when no activity at or below the top index has a title. *)
Theorem title_is_nearest_defined :
  forall (s : ActivityStack),
    topIndex s < Z.of_nat (List.length (_stack s)) ->
    (exists i a str,
        0 <= i <= topIndex s /\ item (_stack s) i = Some a /\
        title (obj rt a) = Some str /\
        (forall j, i < j <= topIndex s -> untitled rt s j) /\
        get_title rt s = Resolved str) \/
    ((forall j, 0 <= j <= topIndex s -> untitled rt s j) /\
     get_title rt s = Resolved EmptyString).
Proof.
  intros s Hwf. unfold get_title, downTo, untitled.
  rewrite title_loop_titleBelow.
  destruct (title_loop_nearest (_stack s) EmptyString
              (Z.to_nat (topIndex s + 1)))
    as [[i [a [str [Hi [Hit [Ht [Hab Hrun]]]]]]]|[Hall Hrun]]; [lia| |].
  - left. exists i, a, str. repeat split; try lia; try assumption.
    intros j Hj b Hb. apply (Hab j b); [lia|exact Hb].
  - right. split; [|exact Hrun].
    intros j Hj b Hb. apply (Hall j b); [lia|exact Hb].
Qed.

End Title.

(** A run of C9 as amended: the foreground has no title, the activity
    beneath it has the title "Home". *)
Lemma title_is_nearest_defined_witness :
  get_title (Sample.runtime
               (fun a => match a with
                         | 1%nat => Sample.titled "Home"
                         | _ => Sample.plain
                         end))
    (Sample.stackOf 1 [1%nat; 2%nat] 1) = Resolved "Home"%string.
Proof.
  destruct (title_is_nearest_defined
              (Sample.runtime
                 (fun a => match a with
                           | 1%nat => Sample.titled "Home"
                           | _ => Sample.plain
                           end))
              (Sample.stackOf 1 [1%nat; 2%nat] 1))
    as [[i [a [str [_ [_ [_ [_ H]]]]]]]|[_ H]]; [cbn; lia| |];
    reflexivity.
Defined.

(** C9 as stated fails: the foreground 2 has the empty string as its
    title, and the activity 1 beneath it has the title "Home".  The title
    of the stack is the empty string, not "Home". *)
Lemma title_stops_at_empty_title :
  let rt := Sample.runtime
              (fun a => match a with
                        | 1%nat => Sample.titled "Home"
                        | 2%nat => Sample.titled ""
                        | _ => Sample.plain
                        end) in
  let s := Sample.stackOf 1 [1%nat; 2%nat] 1 in
  get_title rt s = Resolved ""%string /\
  nearestNonEmptyTitle rt s = "Home"%string.
Proof.
  cbv zeta. split; reflexivity.
Qed.

(** ** The history state after a history ID *)

Section History.

Variable rt : Runtime.

Lemma lastIndexOf_absent : forall l h,
    ~ In (Some h) l -> lastIndexOf l h = -1.
Proof.
  intros l h. induction l as [|y r IH]; intros Hn; [reflexivity|].
  cbn [lastIndexOf]. rewrite IH by (intros H; apply Hn; right; exact H).
  cbn. destruct y as [s|]; [|reflexivity].
  destruct (String.eqb s h) eqn:E; [|reflexivity].
  apply String.eqb_eq in E. subst. exfalso. apply Hn. left. reflexivity.
Qed.

Lemma skipBackground_first : forall l n from,
    0 <= from -> from + Z.of_nat n <= Z.of_nat (List.length l) ->
    (exists j a,
        from <= j < from + Z.of_nat n /\ item l j = Some a /\
        isBackgroundActivity (options (obj rt a)) = false /\
        (forall i b, from <= i < j -> item l i = Some b ->
                     isBackgroundActivity (options (obj rt b)) = true) /\
        skipBackground rt l (upFrom from n) = Resolved (Some j)) \/
    ((forall i b, from <= i < from + Z.of_nat n -> item l i = Some b ->
                  isBackgroundActivity (options (obj rt b)) = true) /\
     skipBackground rt l (upFrom from n) = Resolved None).
Proof.
  intros l n. induction n as [|n IH]; intros from H0 Hn.
  - right. split; [intros; lia|reflexivity].
  - cbn [upFrom skipBackground].
    destruct (item_in_range _ l from) as [a Ha]; [lia|].
    rewrite Ha.
    destruct (isBackgroundActivity (options (obj rt a))) eqn:B.
    + destruct (IH (from + 1))
        as [[j [a' [Hj [Hit [Hb [Hall Hrun]]]]]]|[Hall Hrun]]; try lia.
      * left. exists j, a'. repeat split; try lia; try assumption.
        intros i b Hi Hib.
        destruct (Z.eq_dec i from) as [->|Hne]; [congruence|].
        apply (Hall i b); [lia|exact Hib].
      * right. split; [|exact Hrun]. intros i b Hi Hib.
        destruct (Z.eq_dec i from) as [->|Hne]; [congruence|].
        apply (Hall i b); [lia|exact Hib].
    + left. exists from, a.
      repeat split; try lia; try assumption; try (intros; lia).
Qed.

(** C10.  [getHistoryAfter] with an ID that is not the empty string and is
    not among the history IDs returns [undefined].  With the empty string
    (which is not among the history IDs either: they all start with "_A")
    the test for an unknown ID does not apply and the search starts at
    index 0: on a stack whose top index is inside the array, the result
    is the state of the first activity from the bottom, at or below the
    top index, that is not a background activity (that activity, its path,
    the history ID of its slot, and the title for its index), and it is
    [undefined] exactly when there is no such activity (all the active
    entries are background activities, or there is none). *)
Theorem getHistoryAfter_unknown_or_empty_id :
  forall (s : ActivityStack) (h : string),
    (h <> EmptyString -> ~ In (Some h) (_historyIds s) ->
     getHistoryAfter rt h s = Resolved None) /\
    (~ In (Some EmptyString) (_historyIds s) ->
     topIndex s < Z.of_nat (List.length (_stack s)) ->
     (exists j a str,
         0 <= j <= topIndex s /\ item (_stack s) j = Some a /\
         isBackgroundActivity (options (obj rt a)) = false /\
         (forall i, 0 <= i < j -> inBackground rt s i) /\
         titleAt rt s j = Resolved str /\
         getHistoryAfter rt EmptyString s =
           Resolved (Some {| hs_title := str; hs_activity := a;
                             hs_path := path (obj rt a);
                             hs_historyId :=
                               match item (_historyIds s) j with
                               | Some x => x
                               | None => None
                               end |})) \/
     ((forall i, 0 <= i <= topIndex s -> inBackground rt s i) /\
      getHistoryAfter rt EmptyString s = Resolved None)).
Proof.
  intros s h. split.
  - intros Hne Habs. unfold getHistoryAfter.
    rewrite (lastIndexOf_absent _ _ Habs).
    destruct (String.eqb h "") eqn:E.
    + apply String.eqb_eq in E. contradiction.
    + reflexivity.
  - intros Habs Hwf. unfold getHistoryAfter, inBackground, titleAt.
    rewrite (lastIndexOf_absent _ _ Habs). cbn [String.eqb negb andb].
    replace (-1 + 1) with 0 by lia.
    destruct (skipBackground_first (_stack s)
                (Z.to_nat (topIndex s - -1)) 0)
      as [[j [a [Hj [Hit [Hb [Hall Hrun]]]]]]|[Hall Hrun]]; try lia.
    + rewrite Hrun.
      destruct (get_title_resolves rt s Hwf) as [t0 Ht0]. rewrite Ht0.
      assert (Ht1 : exists t1,
                 titleBelow rt (_stack s) t0 (downTo j) = Resolved t1).
      { unfold downTo.
        destruct (title_loop_nearest rt (_stack s) t0 (Z.to_nat (j + 1)))
          as [[i1 [a1 [t1 [_ [_ [_ [_ H]]]]]]]|[_ H]]; [lia| |]; eauto. }
      destruct Ht1 as [t1 Ht1]. rewrite Ht1, Hit.
      left. exists j, a, t1.
      repeat split; try lia; try assumption.
      intros i Hi b Hib. apply (Hall i b); [lia|exact Hib].
    + rewrite Hrun. right. split; [|reflexivity].
      intros i Hi b Hib. apply (Hall i b); [lia|exact Hib].
Qed.

(** *** History IDs are never empty *)

Lemma historyId_not_empty : forall n, historyId rt n <> EmptyString.
Proof. intros n. unfold historyId, _historyIdBase. cbn. discriminate. Qed.

Lemma In_setItem : forall A (l : list A) i x y,
    In x (setItem l i y) -> x = y \/ In x l.
Proof.
  intros A l. induction l as [|z l IH]; intros i x y H; [contradiction|].
  destruct i as [|i]; cbn in H.
  - destruct H as [H|H]; [left; congruence|right; right; exact H].
  - destruct H as [H|H]; [right; left; exact H|].
    destruct (IH i x y H) as [E|E]; [left; exact E|right; right; exact E].
Qed.

Lemma In_setLength : forall A (l : list (option A)) n x,
    In x (setLength l n) -> x = None \/ In x l.
Proof.
  intros A l n x H. unfold setLength in H. apply in_app_or in H.
  destruct H as [H|H].
  - right. rewrite <- (firstn_skipn n l). apply in_or_app. left. exact H.
  - left. apply repeat_spec in H. exact H.
Qed.

(** The [switch] of a transition keeps the empty string out of the
    history IDs. *)
Lemma afterMutate_keeps_ids_nonempty : forall op to s hid,
    ~ In (Some EmptyString) (_historyIds s) ->
    ~ In (Some EmptyString) (_historyIds (afterMutate rt op to s hid)).
Proof.
  assert (P : forall s a hid,
             ~ In (Some EmptyString) (_historyIds s) ->
             ~ In (Some EmptyString) (_historyIds (afterPush rt s a hid))).
  { intros s a hid H. unfold afterPush.
    destruct (redo s (Some a)); [exact H|].
    cbn [_historyIds]. intros Hin.
    apply In_setItem in Hin. destruct Hin as [E|Hin].
    - apply (historyId_not_empty hid). congruence.
    - apply In_setLength in Hin. destruct Hin as [E|Hin];
        [discriminate|contradiction]. }
  intros op to s hid H. unfold afterMutate.
  destruct op, to as [a|]; try exact H; apply P; exact H.
Qed.

End History.

(** A run of C10: the activity 1 at the bottom is a background activity;
    the state after the empty ID is that of the activity 2 above it. *)
Lemma getHistoryAfter_unknown_or_empty_id_witness :
  let rt := Sample.runtime
              (fun a => match a with
                        | 1%nat => Sample.background
                        | _ => Sample.plain
                        end) in
  let s := Sample.stackOf 1 [1%nat; 2%nat; 3%nat] 2 in
  getHistoryAfter rt "_A999990" s = Resolved None /\
  exists str,
    getHistoryAfter rt "" s =
      Resolved (Some {| hs_title := str; hs_activity := 2%nat;
                        hs_path := None;
                        hs_historyId := Some "_A042171"%string |}).
Proof.
  cbv zeta.
  destruct (getHistoryAfter_unknown_or_empty_id
              (Sample.runtime
                 (fun a => match a with
                           | 1%nat => Sample.background
                           | _ => Sample.plain
                           end))
              (Sample.stackOf 1 [1%nat; 2%nat; 3%nat] 2) "_A999990")
    as [H1 H2].
  split.
  - apply H1; [discriminate|].
    cbn. intros [H|[H|[H|H]]]; try discriminate; exact H.
  - destruct H2 as [[j [a [str [Hj [Hit [Hb [Hall [Ht Hrun]]]]]]]]|[Hall Hrun]].
    + cbn. intros [H|[H|[H|H]]]; try discriminate; exact H.
    + cbn. lia.
    + exists str. rewrite Hrun.
      assert (Hj2 : j = 1).
      { destruct (Z.eq_dec j 0) as [->|N0].
        - cbn in Hit. inversion Hit; subst. discriminate.
        - destruct (Z.eq_dec j 1) as [E|N1]; [exact E|].
          exfalso. assert (H : 0 <= 1 < j) by (cbn in Hj; lia).
          specialize (Hall 1 H 2%nat eq_refl). discriminate. }
      subst j. cbn in Hit. inversion Hit; subst. reflexivity.
    + exfalso. assert (H : 0 <= 1 <= 2) by lia.
      specialize (Hall 1 H 2%nat eq_refl). discriminate.
Defined.

Section Interleaving.

Variable rt : Runtime.

(** *** Run alone, the machine is the chain of [pushAsync] *)

Lemma runAlone_settled : forall n r w,
    runAlone rt n (Settled r) w = (Settled r, w).
Proof.
  induction n as [|n IH]; intros r w; [reflexivity|].
  cbn [runAlone]. unfold step, advance, ret. apply IH.
Qed.

Lemma runAlone_add : forall n m task w,
    runAlone rt (n + m) task w =
    let (task', w') := runAlone rt n task w in runAlone rt m task' w'.
Proof.
  induction n as [|n IH]; intros m task w; [reflexivity|].
  cbn [runAlone Nat.add]. destruct (step rt task w) as [task' w']. apply IH.
Qed.

Lemma runAlone_chain : forall l result w,
    runAlone rt (3 * List.length l + 1) (Chained l result) w =
    settle (forEachParent rt (fun _ => Push) l result w).
Proof.
  induction l as [|a l IH]; intros result w; [reflexivity|].
  replace (3 * List.length (a :: l) + 1)%nat
    with (3 + (3 * List.length l + 1))%nat by (cbn [List.length]; lia).
  cbn [forEachParent]. unfold _processTransition, bind.
  assert (Hlate : forall k r w0,
             runAlone rt (k + (3 * List.length l + 1)) (Settled r) w0
             = (Settled r, w0)) by (intros; apply runAlone_settled).
  assert (Hnext : forall k t w0,
             runAlone rt (k + (3 * List.length l + 1)) (Chained l (Some t)) w0
             = settle (forEachParent rt (fun _ => Push) l (Some t) w0)).
  { intros k t w0. rewrite Nat.add_comm, runAlone_add, IH.
    unfold settle. cbn [fst snd]. apply runAlone_settled. }
  change (3 + (3 * List.length l + 1))%nat
    with (S (2 + (3 * List.length l + 1))).
  cbn [runAlone]. unfold step at 1. cbn [advance startNext]. unfold bind.
  destruct (processTransition_begin rt (Some a) Push w) as [[[t|p]|e|] w1].
  - unfold ret. apply Hnext.
  - unfold ret at 1.
    change (2 + (3 * List.length l + 1))%nat
      with (S (1 + (3 * List.length l + 1))).
    cbn [runAlone]. unfold step at 1. cbn [advance]. unfold bind.
    destruct (processTransition_announce rt p w1) as [[[]|e|] w2].
    + unfold ret at 1.
      change (1 + (3 * List.length l + 1))%nat
        with (S (0 + (3 * List.length l + 1))).
      cbn [runAlone]. unfold step at 1. cbn [advance]. unfold bind.
      destruct (processTransition_commit rt p w2) as [[t|e|] w3].
      * unfold ret. apply Hnext.
      * apply Hlate.
      * apply Hlate.
    + apply Hlate.
    + apply Hlate.
  - apply Hlate.
  - apply Hlate.
Qed.

(** From the start of the body: the machine run alone gives what the
    body of [pushAsync] gives. *)
Lemma runAlone_body : forall fuel activity w l,
    _findParents rt fuel activity false (this w) = Some l ->
    runAlone rt (3 * List.length l + 1) (Queued fuel activity) w =
    settle (forEachParent rt (fun _ => Push) l None (cleared w)).
Proof.
  intros fuel activity w l Hfind.
  rewrite <- runAlone_chain.
  replace (3 * List.length l + 1)%nat with (S (3 * List.length l)) by lia.
  assert (Hs : step rt (Queued fuel activity) w
               = step rt (Chained l None) (cleared w)).
  { unfold step. cbn [advance].
    unfold bind at 1. unfold setPreviousTransition. fold (cleared w).
    unfold bind at 1. unfold get. cbn [this cleared]. rewrite Hfind.
    reflexivity. }
  cbn [runAlone]. rewrite Hs. reflexivity.
Qed.

End Interleaving.

(** C5, the code on two stacks.  The first stack runs [pushAsync(3)], where
    3 declares the parent 2 and 2 the parent 1; the second stack runs
    [pushAsync(4)].  The body of the second stack starts while the first
    transition of the first stack waits for its handlers.  The transition
    to 2 on the first stack then has for [previous] the transition of the
    second stack, not the transition to 1 that its own operation has
    committed just before. *)
Theorem previous_links_to_other_stack :
  let rt := Sample.runtime Sample.chainHeap in
  let g := schedule rt [First; Second; First; First; First]
             {| vars := Sample.worldOf [] (-1);
                second := Sample.stackOf 2 [] (-1);
                task1 := Queued 5 3;
                task2 := Queued 5 4 |} in
  exists tA tB tD p rest,
    task1 g = AwaitingSuspending p rest /\
    transition p = tB /\
    committed (emitted (vars g)) = [tA] /\
    ActivityTransition.activityStack tA = 1%nat /\
    ActivityTransition.to tA = Some 1%nat /\
    ActivityTransition.previous tA = None /\
    ActivityTransition.activityStack tB = 1%nat /\
    ActivityTransition.to tB = Some 2%nat /\
    ActivityTransition.previous tB = Some tD /\
    ActivityTransition.activityStack tD = 2%nat /\
    ActivityTransition.to tD = Some 4%nat.
Proof.
  cbv zeta. do 5 eexists.
  split; [vm_compute; reflexivity|].
  vm_compute. repeat split; reflexivity.
Qed.


(** With [topIndex = -1] and entries left above it (four pushes, then four
    pops), [pushAsync(3)] moves back into the forward history: the active
    region and the top index are those of C3, and the array and the history
    IDs keep their four entries. *)
Example pushAsync_into_forward_history :
  exists t w',
    pushAsync (Sample.runtime Sample.chainHeap) 2 3
      (Sample.worldOf [1%nat; 2%nat; 3%nat; 4%nat] (-1))
      = (Resolved (Some t), w') /\
    _stack (this w') = [1%nat; 2%nat; 3%nat; 4%nat] /\
    topIndex (this w') = 2 /\
    List.length (_historyIds (this w')) = 4%nat.
Proof.
  eexists. eexists. split; [vm_compute; reflexivity|].
  vm_compute. repeat split; reflexivity.
Qed.

(** On the stack [[1; 2; 3]] (pushed in this order), [replaceAsync(2)]
    first moves up to the hub 1, the parent of 2, and then pushes 2 again:
    two pops and a push are committed. *)
Example replaceAsync_child_of_hub :
  exists t w',
    replaceAsync (Sample.runtime Sample.hubHeap) 5 2
      (Sample.worldOf [1%nat; 2%nat; 3%nat] 2) = (Resolved (Some t), w') /\
    map ActivityTransition.op (committed (emitted w')) = [Pop; Pop; Push] /\
    top (this w') = Some 2%nat /\
    topIndex (this w') = 1.
Proof.
  eexists. eexists. split; [vm_compute; reflexivity|].
  vm_compute. repeat split; reflexivity.
Qed.

(** On the stack [[1; 2]], [pushAsync(2)] for the foreground 2 moves up to
    the hub 1 and comes back: a pop and a push are committed, with their
    signals, and the stack ends as it was. *)
Example pushAsync_foreground_child_of_hub :
  exists t w',
    pushAsync (Sample.runtime Sample.hubHeap) 5 2
      (Sample.worldOf [1%nat; 2%nat] 1) = (Resolved (Some t), w') /\
    map ActivityTransition.op (committed (emitted w')) = [Pop; Push] /\
    map signal (emitted w') =
      [Suspending; Resuming; Transition; TransitionSync; Resumed; Suspended;
       Suspending; Starting; Transition; TransitionSync; Started; Resumed;
       Suspended] /\
    this w' = this (Sample.worldOf [1%nat; 2%nat] 1).
Proof.
  eexists. eexists. split; [vm_compute; reflexivity|].
  vm_compute. repeat split; reflexivity.
Qed.

(** * More of the class *)

(** ** One transition as a function *)

Section Outcome.

Variable rt : Runtime.

(** The loop that cuts the forward history, with its emissions. *)
Lemma truncate_loop_exact : forall t n w,
    -1 <= topIndex (this w) ->
    (List.length (_stack (this w))
     <= n + Z.to_nat (topIndex (this w) + 1))%nat ->
    truncate_loop rt t n w =
      (Resolved tt,
       withThis (withEmitted w (emitted w ++ deactivations rt t n (this w)))
         (withStack (this w) (cutForward (this w)))).
Proof.
  intros t n. induction n as [|n IH]; intros w Htop Hlen.
  - cbn [truncate_loop deactivations].
    destruct (Z.of_nat (List.length (_stack (this w))) >? topIndex (this w) + 1)
      eqn:E.
    + apply Z.gtb_lt in E. lia.
    + rewrite Z.gtb_ltb in E. apply Z.ltb_ge in E.
      destruct w as [p i h e s]; destruct s as [sf st ti hi]; cbn in *.
      unfold withThis, withEmitted, withStack, cutForward; cbn.
      rewrite app_nil_r. rewrite firstn_all2 by lia. reflexivity.
  - cbn [truncate_loop deactivations].
    destruct (Z.of_nat (List.length (_stack (this w))) >? topIndex (this w) + 1)
      eqn:E.
    + apply Z.gtb_lt in E.
      destruct (rev (_stack (this w))) as [|oldTop r] eqn:R.
      * apply (f_equal (@List.length _)) in R. rewrite length_rev in R.
        cbn in R. lia.
      * unfold_monad.
        set (s1 := withStack (this w) (removelast (_stack (this w)))).
        assert (Hrl : List.length (removelast (_stack (this w)))
                      = (List.length (_stack (this w)) - 1)%nat).
        { rewrite removelast_is_firstn. rewrite length_firstn. lia. }
        assert (Hcut : cutForward s1 = cutForward (this w)).
        { unfold cutForward, s1; cbn. rewrite removelast_is_firstn.
          rewrite firstn_firstn. f_equal. lia. }
        change {| self := self (this w);
                  _stack := removelast (_stack (this w));
                  topIndex := topIndex (this w);
                  _historyIds := _historyIds (this w) |} with s1.
        cbn [this].
        destruct (contains rt (AnActivity oldTop) s1) eqn:C.
        -- pose proof (IH (withThis w s1)) as Hrun.
           unfold withThis in Hrun. cbn in Hrun. cbn.
           rewrite Hrun by lia.
           unfold withThis, withEmitted, withStack; cbn.
           rewrite Hcut. reflexivity.
        -- pose proof (IH (withEmitted (withThis w s1)
                          (emitted w ++ [Emit Deactivated (Some oldTop) t s1])))
             as Hrun.
           unfold withThis, withEmitted, Emit in Hrun. cbn in Hrun. cbn.
           rewrite Hrun by lia.
           unfold withThis, withEmitted, withStack, Emit; cbn.
           rewrite Hcut. rewrite <- app_assoc. reflexivity.
    + rewrite Z.gtb_ltb in E. apply Z.ltb_ge in E.
      destruct w as [p i h e s]; destruct s as [sf st ti hi]; cbn in *.
      unfold withThis, withEmitted, withStack, cutForward; cbn.
      rewrite app_nil_r. rewrite firstn_all2 by lia. reflexivity.
Qed.

Lemma pushCase_exact : forall t a w,
    ActivityTransition.to t = Some a ->
    -1 <= topIndex (this w) ->
    pushCase rt t w =
      (Resolved tt,
       {| previousTransition := previousTransition w;
          _nextTransitionID := _nextTransitionID w;
          _nextHistoryId :=
            (if redo (this w) (Some a) then _nextHistoryId w
             else S (_nextHistoryId w));
          emitted := emitted w ++ pushDeactivations rt t a (this w);
          this := afterPush rt (this w) a (_nextHistoryId w) |}).
Proof.
  intros t a w Hto Htop.
  unfold pushCase, afterPush, pushDeactivations, redo. unfold_monad.
  rewrite Hto.
  destruct ((Z.of_nat (List.length (_stack (this w))) >? topIndex (this w) + 1)
            && option_eqb (item (_stack (this w)) (topIndex (this w) + 1))
                 (Some a)) eqn:E.
  - cbn. rewrite app_nil_r. reflexivity.
  - unfold pushTo. unfold_monad.
    rewrite (truncate_loop_exact t (List.length (_stack (this w))) w Htop)
      by lia.
    cbn. reflexivity.
Qed.

Lemma mutate_exact : forall t w,
    canMutate (ActivityTransition.op t) (ActivityTransition.to t) (this w) ->
    mutate rt t w =
      (Resolved tt,
       {| previousTransition := previousTransition w;
          _nextTransitionID := _nextTransitionID w;
          _nextHistoryId :=
            (if mints (ActivityTransition.op t) (ActivityTransition.to t)
                  (this w)
             then S (_nextHistoryId w) else _nextHistoryId w);
          emitted := emitted w
                     ++ switchDeactivations rt t (ActivityTransition.op t)
                          (ActivityTransition.to t) (this w);
          this := afterMutate rt (ActivityTransition.op t)
                    (ActivityTransition.to t) (this w)
                    (_nextHistoryId w) |}).
Proof.
  intros t w Hcan. unfold mutate, afterMutate, mints, switchDeactivations.
  destruct (ActivityTransition.op t) eqn:Hop; cbn in Hcan.
  - destruct Hcan as [Htop Hto].
    destruct (ActivityTransition.to t) as [a|] eqn:Ht; [|congruence].
    rewrite (pushCase_exact t a w Ht Htop).
    destruct (redo (this w) (Some a)); reflexivity.
  - destruct Hcan as [Htop Hto].
    destruct (ActivityTransition.to t) as [a|] eqn:Ht; [|congruence].
    unfold_monad.
    pose proof (pushCase_exact t a
                  (withThis w (setTopIndex (this w) (topIndex (this w) - 1)))
                  Ht) as Hrun.
    unfold withThis in Hrun. cbn in Hrun. cbn. rewrite Hrun by lia.
    destruct (redo (setTopIndex (this w) (topIndex (this w) - 1)) (Some a));
      reflexivity.
  - unfold_monad. cbn. rewrite app_nil_r. reflexivity.
Qed.

(** A handler rejects: the emissions made so far, and nothing else. *)
Lemma processTransition_vetoed : forall to op w sg a,
    top (this w) <> to ->
    firstVeto rt (newRecord to op w) (top (this w)) (willResume rt to (this w))
      = Some (sg, a) ->
    _processTransition rt to op w =
      (Rejected (HandlerRejected sg a (_nextTransitionID w)),
       afterVeto rt to op w).
Proof.
  intros to op w sg a Hne Hveto.
  unfold _processTransition, bind.
  rewrite (processTransition_begin_run rt to op w Hne).
  unfold processTransition_announce, processTransition_commit, awaitAll,
    firstVeto, begun, pendingOf, afterVeto, vetoedEmissions in *.
  cbn [transition oldTop resuming ActivityTransition.to newRecord] in *.
  destruct (top (this w)) as [o|] eqn:Ho.
  - destruct (accepts rt Suspending o (newRecord to op w)) eqn:A1.
    + destruct to as [b|]; [|discriminate].
      fold (announced (willResume rt (Some b) (this w))).
      destruct (accepts rt (announced (willResume rt (Some b) (this w))) b
                  (newRecord (Some b) op w)) eqn:A2; [discriminate|].
      injection Hveto as <- <-. unfold_monad. cbn.
      rewrite <- app_assoc. reflexivity.
    + injection Hveto as <- <-. unfold_monad. cbn. reflexivity.
  - destruct to as [b|]; [|discriminate].
    fold (announced (willResume rt (Some b) (this w))).
    destruct (accepts rt (announced (willResume rt (Some b) (this w))) b
                (newRecord (Some b) op w)) eqn:A2; [discriminate|].
    injection Hveto as <- <-. unfold_monad. cbn.
    rewrite app_nil_r. reflexivity.
Qed.

(** No handler rejects: the transition goes through, with these emissions. *)
Lemma processTransition_exact : forall to op w,
    top (this w) <> to ->
    firstVeto rt (newRecord to op w) (top (this w)) (willResume rt to (this w))
      = None ->
    canMutate op to (this w) ->
    _processTransition rt to op w =
      (Resolved (newRecord to op w), afterRun rt to op w).
Proof.
  intros to op w Hne Hveto Hcan.
  unfold _processTransition, bind.
  rewrite (processTransition_begin_run rt to op w Hne).
  unfold begun, pendingOf, firstVeto, afterRun, transitionEmissions in *.
  assert (Hto : ActivityTransition.to (newRecord to op w) = to)
    by reflexivity.
  assert (Hop : ActivityTransition.op (newRecord to op w) = op)
    by reflexivity.
  remember (newRecord to op w) as t eqn:Ht.
  remember (willResume rt to (this w)) as r eqn:Hr.
  remember (top (this w)) as old eqn:Hold.
  set (w1 := {| previousTransition := Some t;
                _nextTransitionID := S (_nextTransitionID w);
                _nextHistoryId := _nextHistoryId w;
                emitted :=
                  emitted w
                  ++ match old with
                     | Some o => [Emit Suspending (Some o) t (this w)]
                     | None => []
                     end
                  ++ match to with
                     | Some a => [Emit (announced r) (Some a) t (this w)]
                     | None => []
                     end
                  ++ [Emit Transition None t (this w)];
                this := this w |}).
  pose proof (mutate_exact t w1) as Hrun.
  rewrite Hto, Hop in Hrun. specialize (Hrun Hcan).
  cbn [this _nextHistoryId emitted w1] in Hrun.
  unfold processTransition_announce, processTransition_commit, awaitAll.
  cbn [transition oldTop resuming].
  rewrite Hto in *. fold (announced r) in *.
  assert (Hacc : match old with
                 | Some o => accepts rt Suspending o t = true
                 | None => True
                 end /\
                 match to with
                 | Some a => accepts rt (announced r) a t = true
                 | None => True
                 end).
  { destruct old as [o|]; [destruct (accepts rt Suspending o t)|];
      destruct to as [b|]; try destruct (accepts rt (announced r) b t);
      try discriminate; split; trivial. }
  destruct Hacc as [A1 A2]. clear Hveto.
  unfold w1 in Hrun. clear w1. unfold Emit in *.
  destruct old as [o|]; [rewrite A1|]; (destruct to as [b|]; [rewrite A2|]);
    unfold_monad; cbn [previousTransition _nextTransitionID _nextHistoryId
                       emitted this];
    repeat rewrite <- app_assoc in *; cbn [app] in *;
    rewrite Hrun;
    cbn [previousTransition _nextTransitionID _nextHistoryId emitted this];
    try (destruct r);
    cbn [previousTransition _nextTransitionID _nextHistoryId emitted this];
    unfold Emit; repeat rewrite <- app_assoc; cbn [app]; reflexivity.
Qed.

(** [_processTransition] ends in one of the three ways. *)
Lemma processTransition_outcome : forall to op w,
    canMutate op to (this w) ->
    _processTransition rt to op w = transitionOutcome rt to op w.
Proof.
  intros to op w Hcan. unfold transitionOutcome.
  destruct (option_eqb (top (this w)) to) eqn:E.
  - apply option_eqb_eq in E.
    rewrite (processTransition_noop rt to op w E). reflexivity.
  - apply option_eqb_neq in E.
    destruct (firstVeto rt (newRecord to op w) (top (this w))
                (willResume rt to (this w))) as [[sg a]|] eqn:V.
    + apply processTransition_vetoed; assumption.
    + apply processTransition_exact; assumption.
Qed.

Lemma callOK_canMutate : forall to op s,
    wellFormed s -> callOK to op s -> canMutate op to s.
Proof.
  intros to op s [[H1 H2] _] Hc. destruct op; cbn in *.
  - split; assumption.
  - destruct Hc; split; assumption.
  - exact I.
Qed.

End Outcome.

(** ** Invariants of the public operations

    A property [J] of the world that holds of well-formed stacks only,
    that clearing [previousTransition] keeps, and that every transition
    requested as the class requests it keeps, is kept by the four public
    operations, whatever their outcome. *)

Section Invariant.

Variable rt : Runtime.
Variable J : World -> Prop.

Hypothesis J_wellFormed : forall w, J w -> wellFormed (this w).
Hypothesis J_cleared : forall w, J w -> J (cleared w).
Hypothesis J_transition : forall to op w,
    J w -> callOK to op (this w) -> J (snd (transitionOutcome rt to op w)).

Lemma bind_keeps : forall A B (m : M A) (k : A -> M B) w,
    J (snd (m w)) ->
    (forall a w1, m w = (Resolved a, w1) -> J (snd (k a w1))) ->
    J (snd (bind m k w)).
Proof.
  intros A B m k w Hm Hk. unfold bind.
  destruct (m w) as [[a|e|] w1]; cbn in *; auto.
Qed.

Lemma processTransition_keeps : forall to op w,
    J w -> callOK to op (this w) -> J (snd (_processTransition rt to op w)).
Proof.
  intros to op w HJ Hc.
  rewrite processTransition_outcome
    by (apply callOK_canMutate; [apply J_wellFormed; exact HJ | exact Hc]).
  apply J_transition; assumption.
Qed.

Lemma processTransition_keeps_eq : forall to op w r w1,
    J w -> callOK to op (this w) ->
    _processTransition rt to op w = (r, w1) -> J w1.
Proof.
  intros to op w r w1 HJ Hc E.
  pose proof (processTransition_keeps to op w HJ Hc) as H.
  rewrite E in H. exact H.
Qed.

Lemma contains_top : forall x s, contains rt x s = true -> 0 <= topIndex s.
Proof.
  intros x s H.
  destruct (Z.ltb_spec (topIndex s) 0) as [L|L]; [|exact L].
  unfold contains, downTo in H.
  replace (Z.to_nat (topIndex s + 1)) with 0%nat in H by lia.
  destruct x; cbn in H; discriminate.
Qed.

Lemma recurse_keeps : forall x b w, J w -> J (snd (recurse rt b x w)).
Proof.
  intros x b. induction b as [|b IH]; intros w HJ; cbn [recurse].
  - destruct (arrived rt x (this w)); exact HJ.
  - destruct (arrived rt x (this w)); [exact HJ|].
    destruct (contains rt x (this w)) eqn:C; [|exact HJ].
    apply contains_top in C.
    apply bind_keeps.
    + apply processTransition_keeps; [exact HJ | exact C].
    + intros t w1 E. apply IH.
      exact (processTransition_keeps_eq _ Pop _ _ _ HJ C E).
Qed.

Lemma upAsync_keeps : forall x w, J w -> J (snd (upAsync rt x w)).
Proof.
  intros x w HJ. unfold upAsync. apply bind_keeps.
  - apply J_cleared. exact HJ.
  - intros [] w1 E. injection E as <-. apply recurse_keeps.
    apply J_cleared. exact HJ.
Qed.

Lemma upAsync_keeps_eq : forall x w r w1,
    J w -> upAsync rt x w = (r, w1) -> J w1.
Proof.
  intros x w r w1 HJ E. pose proof (upAsync_keeps x w HJ) as H.
  rewrite E in H. exact H.
Qed.

Lemma upToHubOrRoot_keeps : forall a w,
    J w -> J (snd (_upToHubOrRoot rt a w)).
Proof.
  intros a w HJ. unfold _upToHubOrRoot.
  apply bind_keeps; [exact HJ|].
  intros w0 w1 E. injection E as <- <-.
  assert (H1 : J (snd ((match _popTransient rt (this w) with
                        | Some b => upAsync rt (AnActivity b);; ret tt
                        | None => ret tt
                        end) w))).
  { destruct (_popTransient rt (this w)) as [b|]; [|exact HJ].
    apply bind_keeps; [apply upAsync_keeps; exact HJ|].
    intros r w1 E. exact (upAsync_keeps_eq _ _ _ _ HJ E). }
  apply bind_keeps; [exact H1|].
  intros [] w1 E. rewrite E in H1. cbn in H1.
  destruct (hubOrRoot rt a (this w)) as [x|]; [|exact H1].
  apply bind_keeps; [apply upAsync_keeps; exact H1|].
  intros r w2 E2. exact (upAsync_keeps_eq _ _ _ _ H1 E2).
Qed.

Lemma forEachParent_keeps : forall opFor l result w,
    J w ->
    (forall a, callOK (Some a) (opFor result) (this w)) ->
    (forall t, opFor (Some t) = Push) ->
    J (snd (forEachParent rt opFor l result w)).
Proof.
  intros opFor l. induction l as [|a l IH]; intros result w HJ H0 Hnext.
  - exact HJ.
  - cbn [forEachParent]. apply bind_keeps.
    + apply processTransition_keeps; [exact HJ | apply H0].
    + intros t w1 E. apply IH.
      * exact (processTransition_keeps_eq _ _ _ _ _ HJ (H0 a) E).
      * intros a'. rewrite Hnext. cbn. discriminate.
      * exact Hnext.
Qed.

Lemma pushAsync_keeps : forall fuel a w,
    J w -> J (snd (pushAsync rt fuel a w)).
Proof.
  intros fuel a w HJ. unfold pushAsync.
  apply bind_keeps; [apply upToHubOrRoot_keeps; exact HJ|].
  intros [] w1 E1.
  assert (J1 : J w1).
  { pose proof (upToHubOrRoot_keeps a w HJ) as H. rewrite E1 in H. exact H. }
  apply bind_keeps; [apply J_cleared; exact J1|].
  intros [] w2 E2. injection E2 as <-.
  apply bind_keeps; [apply J_cleared; exact J1|].
  intros w3 w4 E3. injection E3 as <- <-.
  cbn [this].
  destruct (_findParents rt fuel a false (this w1)) as [l|].
  - apply forEachParent_keeps.
    + exact (J_cleared _ J1).
    + intros a'. cbn. discriminate.
    + reflexivity.
  - exact (J_cleared _ J1).
Qed.

Lemma replaceAsync_keeps : forall fuel a w,
    J w -> J (snd (replaceAsync rt fuel a w)).
Proof.
  intros fuel a w HJ. unfold replaceAsync.
  apply bind_keeps; [apply upToHubOrRoot_keeps; exact HJ|].
  intros [] w1 E1.
  assert (J1 : J w1).
  { pose proof (upToHubOrRoot_keeps a w HJ) as H. rewrite E1 in H. exact H. }
  apply bind_keeps; [apply J_cleared; exact J1|].
  intros [] w2 E2. injection E2 as <-.
  apply bind_keeps; [apply J_cleared; exact J1|].
  intros w3 w4 E3. injection E3 as <- <-.
  apply J_cleared in J1.
  change {| previousTransition := None;
            _nextTransitionID := _nextTransitionID w1;
            _nextHistoryId := _nextHistoryId w1;
            emitted := emitted w1;
            this := this w1 |} with (cleared w1).
  set (w2 := cleared w1) in *.
  destruct (Z.ltb_spec (topIndex (this w2)) 0) as [L|L]; cbn [negb andb].
  - destruct (_findParents rt fuel a true (this w2)) as [l|]; [|exact J1].
    apply forEachParent_keeps; [exact J1| |].
    + intros a'. rewrite orb_true_r. cbn. discriminate.
    + intros t. reflexivity.
  - destruct (option_eqb (item (_stack (this w2)) (topIndex (this w2) - 1))
                (Some a)).
    + apply bind_keeps; [apply processTransition_keeps; [exact J1|exact L]|].
      intros t w5 E5. cbn.
      exact (processTransition_keeps_eq _ Pop _ _ _ J1 L E5).
    + destruct (_findParents rt fuel a true (this w2)) as [l|]; [|exact J1].
      apply forEachParent_keeps; [exact J1| |].
      * intros a'. cbn. split; [discriminate|exact L].
      * intros t. reflexivity.
Qed.

Lemma popAsync_keeps : forall activity w,
    J w -> J (snd (popAsync rt activity w)).
Proof.
  intros activity w HJ. unfold popAsync.
  apply bind_keeps; [apply J_cleared; exact HJ|].
  intros [] w2 E2. injection E2 as <-.
  apply bind_keeps; [apply J_cleared; exact HJ|].
  intros w3 w4 E3. injection E3 as <- <-.
  apply J_cleared in HJ.
  change {| previousTransition := None;
            _nextTransitionID := _nextTransitionID w;
            _nextHistoryId := _nextHistoryId w;
            emitted := emitted w;
            this := this w |} with (cleared w).
  set (w2 := cleared w) in *.
  destruct (Z.ltb_spec (topIndex (this w2)) 0) as [L|L]; [exact HJ|].
  destruct (match activity with
            | Some a0 => negb (option_eqb (top (this w2)) (Some a0))
            | None => false
            end); [exact HJ|].
  apply bind_keeps; [apply processTransition_keeps; [exact HJ|exact L]|].
  intros t w5 E5. cbn.
  exact (processTransition_keeps_eq _ Pop _ _ _ HJ L E5).
Qed.

End Invariant.

(** ** The shape of the stack *)

Section WellFormed.

Variable rt : Runtime.

Lemma afterPush_wellFormed : forall s a hid,
    wellFormed s -> wellFormed (afterPush rt s a hid).
Proof.
  intros s a hid [[H1 H2] H3]. unfold afterPush, redo.
  destruct ((Z.of_nat (List.length (_stack s)) >? topIndex s + 1)
            && option_eqb (item (_stack s) (topIndex s + 1)) (Some a)) eqn:E.
  - apply andb_true_iff in E. destruct E as [E _]. apply Z.gtb_lt in E.
    unfold wellFormed; cbn. repeat split; [lia | lia | exact H3].
  - unfold wellFormed; cbn [_stack topIndex _historyIds].
    rewrite length_setItem, length_setLength. repeat split; lia.
Qed.

Lemma afterMutate_wellFormed : forall op to s hid,
    wellFormed s -> callOK to op s -> wellFormed (afterMutate rt op to s hid).
Proof.
  intros op to s hid Hwf Hc. pose proof Hwf as [[H1 H2] H3].
  destruct op; cbn in Hc |- *.
  - destruct to as [a|]; [|exact Hwf]. apply afterPush_wellFormed. exact Hwf.
  - destruct to as [a|]; [|exact Hwf]. apply afterPush_wellFormed.
    unfold wellFormed; cbn. repeat split; [lia | lia | exact H3].
  - unfold wellFormed; cbn. repeat split; [lia | lia | exact H3].
Qed.

Lemma transitionOutcome_wellFormed : forall to op w,
    wellFormed (this w) -> callOK to op (this w) ->
    wellFormed (this (snd (transitionOutcome rt to op w))).
Proof.
  intros to op w Hwf Hc. unfold transitionOutcome.
  destruct (option_eqb (top (this w)) to).
  - cbn. destruct op; cbn; try exact Hwf.
    destruct Hwf as [[H1 H2] H3]. cbn in Hc.
    unfold wellFormed; cbn. repeat split; [lia | lia | exact H3].
  - destruct (firstVeto rt (newRecord to op w) (top (this w))
                (willResume rt to (this w))) as [[sg a]|]; cbn.
    + exact Hwf.
    + apply afterMutate_wellFormed; assumption.
Qed.

(** X1: the four public operations keep the stack well-formed, whatever
    their outcome: the top index stays [-1] or the index of an entry of
    [_stack], and [_historyIds] stays as long as [_stack]. *)
Theorem operations_keep_wellFormed : forall fuel a act x w,
    wellFormed (this w) ->
    wellFormed (this (snd (pushAsync rt fuel a w))) /\
    wellFormed (this (snd (replaceAsync rt fuel a w))) /\
    wellFormed (this (snd (popAsync rt act w))) /\
    wellFormed (this (snd (upAsync rt x w))).
Proof.
  intros fuel a act x w Hwf.
  set (J := fun w0 : World => wellFormed (this w0)).
  assert (Jwf : forall w0, J w0 -> wellFormed (this w0))
    by (intros; assumption).
  assert (Jcl : forall w0, J w0 -> J (cleared w0)) by (intros; assumption).
  assert (Jtr : forall to op w0, J w0 -> callOK to op (this w0) ->
                  J (snd (transitionOutcome rt to op w0)))
    by (intros; apply transitionOutcome_wellFormed; assumption).
  split; [|split; [|split]].
  - exact (pushAsync_keeps rt J Jwf Jcl Jtr fuel a w Hwf).
  - exact (replaceAsync_keeps rt J Jwf Jcl Jtr fuel a w Hwf).
  - exact (popAsync_keeps rt J Jwf Jcl Jtr act w Hwf).
  - exact (upAsync_keeps rt J Jwf Jcl Jtr x w Hwf).
Qed.

End WellFormed.

Lemma operations_keep_wellFormed_witness :
  let rt := Sample.runtime Sample.chainHeap in
  let w := Sample.worldOf [1%nat; 2%nat; 4%nat] 1 in
  wellFormed (this w) /\
  wellFormed (this (snd (pushAsync rt 5 3%nat w))) /\
  wellFormed (this (snd (replaceAsync rt 5 3%nat w))) /\
  wellFormed (this (snd (popAsync rt None w))) /\
  wellFormed (this (snd (upAsync rt (AnActivity 1%nat) w))).
Proof.
  assert (H : wellFormed (this (Sample.worldOf [1%nat; 2%nat; 4%nat] 1)))
    by (unfold wellFormed; cbn; lia).
  split; [exact H|].
  exact (operations_keep_wellFormed (Sample.runtime Sample.chainHeap) 5
           3%nat None (AnActivity 1%nat) _ H).
Defined.

(** ** The history IDs *)

Section HistoryIds.

Variable rt : Runtime.

Lemma append_cancel : forall p a b : string,
    (p ++ a)%string = (p ++ b)%string -> a = b.
Proof.
  intros p. induction p as [|c p IH]; intros a b H; cbn in H.
  - exact H.
  - injection H as H. apply IH. exact H.
Qed.

(** Two numbers give two history IDs. *)
Lemma historyId_inj : forall n m, historyId rt n = historyId rt m -> n = m.
Proof.
  intros n m H. unfold historyId in H. apply append_cancel in H.
  assert (E : Some (Nat.to_uint n) = Some (Nat.to_uint m)).
  { rewrite <- (NilEmpty.usu (Nat.to_uint n)).
    rewrite <- (NilEmpty.usu (Nat.to_uint m)).
    rewrite H. reflexivity. }
  injection E as E.
  rewrite <- (Unsigned.of_to n), <- (Unsigned.of_to m), E. reflexivity.
Qed.

Lemma nth_error_setItem : forall A (l : list A) m x i,
    nth_error (setItem l m x) i =
      if (i =? m)%nat && (m <? List.length l)%nat then Some x
      else nth_error l i.
Proof.
  intros A l. induction l as [|y l IH]; intros m x i.
  - cbn. rewrite andb_false_r. reflexivity.
  - destruct m as [|m]; destruct i as [|i]; cbn [setItem nth_error];
      try reflexivity.
    rewrite IH. reflexivity.
Qed.

Lemma nth_error_setLength : forall A (l : list (option A)) n i,
    nth_error (setLength l n) i =
      if (i <? n)%nat
      then Some (match nth_error l i with Some v => v | None => None end)
      else None.
Proof.
  intros A l n i. unfold setLength. rewrite nth_error_app.
  rewrite length_firstn.
  destruct (Nat.ltb_spec i (Nat.min n (List.length l))) as [L|L].
  - rewrite nth_error_firstn.
    destruct (Nat.ltb_spec i n) as [L2|L2]; [|lia].
    destruct (nth_error l i) eqn:E; [reflexivity|].
    apply nth_error_None in E. lia.
  - destruct (Nat.ltb_spec i n) as [L2|L2].
    + rewrite nth_error_repeat by lia.
      assert (E : nth_error l i = None) by (apply nth_error_None; lia).
      rewrite E. reflexivity.
    + apply nth_error_None. rewrite repeat_length. lia.
Qed.

(** The slots after the [Push] case that appends: the old ones below the
    new top, and the new ID. *)
Lemma nth_error_pushed_ids : forall (ids : list (option string)) n x i h,
    (0 < n)%nat ->
    nth_error (setItem (setLength ids n) (n - 1) (Some x)) i = Some (Some h) ->
    (i = (n - 1)%nat /\ h = x) \/
    (i <> (n - 1)%nat /\ nth_error ids i = Some (Some h)).
Proof.
  intros ids n x i h Hn H.
  rewrite nth_error_setItem, length_setLength in H.
  destruct (Nat.eqb_spec i (n - 1)) as [E|E].
  - destruct (Nat.ltb_spec (n - 1) n) as [L|L]; [|lia].
    cbn in H. left. split; [exact E|congruence].
  - cbn in H. rewrite nth_error_setLength in H. right. split; [exact E|].
    destruct (i <? n)%nat; [|discriminate].
    destruct (nth_error ids i) as [v|]; [|discriminate].
    congruence.
Qed.

Lemma afterPush_historyOk : forall s a hid,
    distinctIds (_historyIds s) -> issuedIds rt hid (_historyIds s) ->
    distinctIds (_historyIds (afterPush rt s a hid)) /\
    issuedIds rt (if redo s (Some a) then hid else S hid)
      (_historyIds (afterPush rt s a hid)).
Proof.
  intros s a hid Hd Hi. unfold afterPush.
  destruct (redo s (Some a)); [split; assumption|].
  cbn [_historyIds].
  set (n := List.length (cutForward s ++ [a])).
  assert (Hn : (0 < n)%nat) by (unfold n; rewrite length_app; cbn; lia).
  replace (Z.to_nat (Z.of_nat n - 1)) with (n - 1)%nat by lia.
  split.
  - intros i j h Hi1 Hj1.
    apply nth_error_pushed_ids in Hi1; [|exact Hn].
    apply nth_error_pushed_ids in Hj1; [|exact Hn].
    destruct Hi1 as [[Ei Eh]|[Ei Hi1]]; destruct Hj1 as [[Ej Eh']|[Ej Hj1]].
    + congruence.
    + exfalso. destruct (Hi j h Hj1) as [k [Hk Ek]].
      subst h. apply historyId_inj in Ek. lia.
    + exfalso. destruct (Hi i h Hi1) as [k [Hk Ek]].
      subst h. apply historyId_inj in Ek. lia.
    + exact (Hd i j h Hi1 Hj1).
  - intros i h Hi1.
    apply nth_error_pushed_ids in Hi1; [|exact Hn].
    destruct Hi1 as [[Ei Eh]|[Ei Hi1]].
    + exists hid. split; [lia|exact Eh].
    + destruct (Hi i h Hi1) as [k [Hk Ek]]. exists k. split; [lia|exact Ek].
Qed.

Lemma afterMutate_historyOk : forall op to s hid,
    distinctIds (_historyIds s) -> issuedIds rt hid (_historyIds s) ->
    distinctIds (_historyIds (afterMutate rt op to s hid)) /\
    issuedIds rt (if mints op to s then S hid else hid)
      (_historyIds (afterMutate rt op to s hid)).
Proof.
  intros op to s hid Hd Hi.
  assert (Hmore : issuedIds rt (S hid) (_historyIds s)).
  { intros i h H. destruct (Hi i h H) as [k [Hk Ek]].
    exists k. split; [lia|exact Ek]. }
  destruct op; cbn [afterMutate mints].
  - destruct to as [a|].
    + destruct (afterPush_historyOk s a hid Hd Hi) as [H1 H2].
      split; [exact H1|]. destruct (redo s (Some a)); exact H2.
    + split; [exact Hd|]. destruct (negb (redo s None)); assumption.
  - destruct to as [a|].
    + destruct (afterPush_historyOk (setTopIndex s (topIndex s - 1)) a hid
                  Hd Hi) as [H1 H2].
      split; [exact H1|].
      destruct (redo (setTopIndex s (topIndex s - 1)) (Some a)); exact H2.
    + split; [exact Hd|].
      destruct (negb (redo (setTopIndex s (topIndex s - 1)) None)); assumption.
  - split; assumption.
Qed.

Lemma transitionOutcome_historyOk : forall to op w,
    historyOk rt w -> historyOk rt (snd (transitionOutcome rt to op w)).
Proof.
  intros to op w [Hd Hi]. unfold transitionOutcome, historyOk.
  destruct (option_eqb (top (this w)) to).
  - cbn. destruct (Operation_eqb op Pop); split; assumption.
  - destruct (firstVeto rt (newRecord to op w) (top (this w))
                (willResume rt to (this w))) as [[sg a]|]; cbn.
    + split; assumption.
    + apply afterMutate_historyOk; assumption.
Qed.

(** X2: the four public operations never give a history ID to two slots:
    when the history IDs of a well-formed stack are distinct and made from
    numbers below [_nextHistoryId], they still are after the operation,
    whatever its outcome. *)
Theorem operations_keep_history_ids_distinct : forall fuel a act x w,
    wellFormed (this w) ->
    historyOk rt w ->
    historyOk rt (snd (pushAsync rt fuel a w)) /\
    historyOk rt (snd (replaceAsync rt fuel a w)) /\
    historyOk rt (snd (popAsync rt act w)) /\
    historyOk rt (snd (upAsync rt x w)).
Proof.
  intros fuel a act x w Hwf Hok.
  set (J := fun w0 : World => wellFormed (this w0) /\ historyOk rt w0).
  assert (Jwf : forall w0, J w0 -> wellFormed (this w0))
    by (intros w0 H; exact (proj1 H)).
  assert (Jcl : forall w0, J w0 -> J (cleared w0)) by (intros; assumption).
  assert (Jtr : forall to op w0, J w0 -> callOK to op (this w0) ->
                  J (snd (transitionOutcome rt to op w0))).
  { intros to op w0 [H1 H2] Hc. split.
    - apply transitionOutcome_wellFormed; assumption.
    - apply transitionOutcome_historyOk; assumption. }
  assert (HJ : J w) by (split; assumption).
  split; [|split; [|split]].
  - exact (proj2 (pushAsync_keeps rt J Jwf Jcl Jtr fuel a w HJ)).
  - exact (proj2 (replaceAsync_keeps rt J Jwf Jcl Jtr fuel a w HJ)).
  - exact (proj2 (popAsync_keeps rt J Jwf Jcl Jtr act w HJ)).
  - exact (proj2 (upAsync_keeps rt J Jwf Jcl Jtr x w HJ)).
Qed.

(** *** The position of a history ID *)

Lemma lastIndexOf_last : forall l x i,
    nth_error l i = Some (Some x) ->
    (forall j, (i < j)%nat -> nth_error l j <> Some (Some x)) ->
    lastIndexOf l x = Z.of_nat i.
Proof.
  intros l x. induction l as [|y r IH]; intros i Hi Hlast.
  - destruct i; discriminate.
  - cbn [lastIndexOf]. destruct i as [|i].
    + cbn in Hi. injection Hi as ->.
      rewrite (lastIndexOf_absent r x).
      * cbn. rewrite String.eqb_refl. reflexivity.
      * intros Hin. apply In_nth_error in Hin. destruct Hin as [j Hj].
        apply (Hlast (S j)); [lia|exact Hj].
    + cbn in Hi. rewrite (IH i Hi).
      * destruct (Z.leb_spec 0 (Z.of_nat i)); lia.
      * intros j Hj. apply (Hlast (S j)). lia.
Qed.

Lemma lastIndexOf_distinct : forall l x i,
    distinctIds l -> nth_error l i = Some (Some x) ->
    lastIndexOf l x = Z.of_nat i.
Proof.
  intros l x i Hd Hi. apply lastIndexOf_last; [exact Hi|].
  intros j Hj E. pose proof (Hd i j x Hi E). lia.
Qed.

(** X3: [getHistoryPosition] on a history with distinct IDs: the ID of
    the slot [i] is at position 0 when [i] is the top index, -1 when the
    slot is below it and 1 when it is in the forward history; an ID that
    no slot holds has no position. *)
Theorem getHistoryPosition_of_slot : forall s h,
    distinctIds (_historyIds s) ->
    (forall i, nth_error (_historyIds s) i = Some (Some h) ->
               getHistoryPosition h s
               = Some (Z.sgn (Z.of_nat i - topIndex s))) /\
    (~ In (Some h) (_historyIds s) -> getHistoryPosition h s = None).
Proof.
  intros s h Hd. split.
  - intros i Hi. unfold getHistoryPosition.
    rewrite (lastIndexOf_distinct _ _ _ Hd Hi).
    destruct (Z.ltb_spec (Z.of_nat i) 0) as [L|_]; [lia|].
    destruct (Z.eqb_spec (Z.of_nat i) (topIndex s)) as [E|E].
    + rewrite E, Z.sub_diag. reflexivity.
    + destruct (Z.ltb_spec (Z.of_nat i) (topIndex s)) as [L|L].
      * rewrite Z.sgn_neg by lia. reflexivity.
      * rewrite Z.sgn_pos by lia. reflexivity.
  - intros Hn. unfold getHistoryPosition.
    rewrite (lastIndexOf_absent _ _ Hn). reflexivity.
Qed.

(** X4: [getHistoryState] on a well-formed stack: without a foreground
    activity it returns [undefined]; with one, it returns the foreground
    activity with its path, the title of the stack and the history ID of
    its slot, and on a history with distinct IDs [getHistoryPosition]
    puts this ID at position 0. *)
Theorem getHistoryState_is_current : forall s,
    wellFormed s ->
    (topIndex s < 0 -> getHistoryState rt s = Resolved None) /\
    (0 <= topIndex s ->
     exists st,
       getHistoryState rt s = Resolved (Some st) /\
       top s = Some (hs_activity st) /\
       hs_path st = path (obj rt (hs_activity st)) /\
       get_title rt s = Resolved (hs_title st) /\
       item (_historyIds s) (topIndex s) = Some (hs_historyId st) /\
       (distinctIds (_historyIds s) ->
        forall h, hs_historyId st = Some h ->
                  getHistoryPosition h s = Some 0)).
Proof.
  intros s [[H1 H2] H3]. unfold getHistoryState. split.
  - intros L. destruct (Z.ltb_spec (topIndex s) 0); [reflexivity|lia].
  - intros L. destruct (Z.ltb_spec (topIndex s) 0) as [L'|_]; [lia|].
    destruct (get_title_resolves rt s H2) as [str Ht]. rewrite Ht.
    destruct (item_in_range _ (_stack s) (topIndex s)) as [a Ha];
      [lia|].
    destruct (item_in_range _ (_historyIds s) (topIndex s)) as [x Hx];
      [lia|].
    rewrite Ha, Hx. eexists. split; [reflexivity|]. cbn.
    unfold top. destruct (Z.ltb_spec (topIndex s) 0) as [L'|_]; [lia|].
    repeat split; try assumption; try reflexivity.
    intros Hd h Eh. subst x.
    unfold item in Hx. destruct (Z.ltb_spec (topIndex s) 0) as [L'|_]; [lia|].
    unfold getHistoryPosition.
    rewrite (lastIndexOf_distinct _ _ _ Hd Hx).
    rewrite Z2Nat.id by lia.
    destruct (Z.ltb_spec (topIndex s) 0) as [L'|_]; [lia|].
    rewrite Z.eqb_refl. reflexivity.
Qed.

End HistoryIds.

(** The history of the sample stack [[1; 2; 4]]: three distinct IDs, made
    from the numbers 0, 1 and 2. *)
Lemma sample_history_ok : forall rt top,
    randomDigits rt = "04217"%string ->
    historyOk rt
      {| previousTransition := None; _nextTransitionID := 0;
         _nextHistoryId := 3; emitted := [];
         this := Sample.stackOf 1 [1%nat; 2%nat; 4%nat] top |}.
Proof.
  intros rt top Hrt. unfold historyOk. cbn [_nextHistoryId this]. split.
  - intros i j h Hi Hj. cbn in Hi, Hj.
    destruct i as [|[|[|i]]]; destruct j as [|[|[|j]]]; cbn in Hi, Hj;
      try reflexivity; try congruence;
      try (destruct i; discriminate); destruct j; discriminate.
  - intros i h Hi. cbn in Hi. unfold historyId, _historyIdBase.
    rewrite Hrt.
    destruct i as [|[|[|i]]]; cbn in Hi.
    + exists 0%nat. split; [lia|]. injection Hi as <-. reflexivity.
    + exists 1%nat. split; [lia|]. injection Hi as <-. reflexivity.
    + exists 2%nat. split; [lia|]. injection Hi as <-. reflexivity.
    + destruct i; discriminate.
Qed.

Lemma operations_keep_history_ids_distinct_witness :
  let rt := Sample.runtime Sample.chainHeap in
  let w := Sample.worldOf [1%nat; 2%nat; 4%nat] 1 in
  wellFormed (this w) /\ historyOk rt w /\
  historyOk rt (snd (pushAsync rt 5 3%nat w)) /\
  historyOk rt (snd (replaceAsync rt 5 3%nat w)) /\
  historyOk rt (snd (popAsync rt None w)) /\
  historyOk rt (snd (upAsync rt (AnActivity 1%nat) w)).
Proof.
  assert (H : wellFormed (this (Sample.worldOf [1%nat; 2%nat; 4%nat] 1)))
    by (unfold wellFormed; cbn; lia).
  pose proof (sample_history_ok (Sample.runtime Sample.chainHeap) 1
                eq_refl) as Hok.
  split; [exact H|]. split; [exact Hok|].
  exact (operations_keep_history_ids_distinct
           (Sample.runtime Sample.chainHeap) 5 3%nat None (AnActivity 1%nat)
           _ H Hok).
Defined.

Lemma getHistoryPosition_of_slot_witness :
  let s := Sample.stackOf 1 [1%nat; 2%nat; 4%nat] 1 in
  distinctIds (_historyIds s) /\
  (forall i, nth_error (_historyIds s) i = Some (Some "_A042172"%string) ->
             getHistoryPosition "_A042172" s
             = Some (Z.sgn (Z.of_nat i - topIndex s))) /\
  (~ In (Some "_A042172"%string) (_historyIds s) ->
   getHistoryPosition "_A042172" s = None).
Proof.
  pose proof (proj1 (sample_history_ok (Sample.runtime Sample.plainHeap) 1
                       eq_refl)) as Hd.
  split; [exact Hd|].
  exact (getHistoryPosition_of_slot
           (Sample.stackOf 1 [1%nat; 2%nat; 4%nat] 1) "_A042172" Hd).
Defined.

Lemma getHistoryState_is_current_witness :
  let rt := Sample.runtime Sample.plainHeap in
  let s := Sample.stackOf 1 [1%nat; 2%nat; 4%nat] 1 in
  wellFormed s /\
  (topIndex s < 0 -> getHistoryState rt s = Resolved None) /\
  (0 <= topIndex s ->
   exists st,
     getHistoryState rt s = Resolved (Some st) /\
     top s = Some (hs_activity st) /\
     hs_path st = path (obj rt (hs_activity st)) /\
     get_title rt s = Resolved (hs_title st) /\
     item (_historyIds s) (topIndex s) = Some (hs_historyId st) /\
     (distinctIds (_historyIds s) ->
      forall h, hs_historyId st = Some h ->
                getHistoryPosition h s = Some 0)).
Proof.
  assert (H : wellFormed (Sample.stackOf 1 [1%nat; 2%nat; 4%nat] 1))
    by (unfold wellFormed; cbn; lia).
  split; [exact H|].
  exact (getHistoryState_is_current (Sample.runtime Sample.plainHeap) _ H).
Defined.

(** ** The forward history *)

Section Forward.

Variable rt : Runtime.

Lemma skipn_item : forall A (l : list A) i x,
    item l i = Some x ->
    skipn (Z.to_nat i) l = x :: skipn (Z.to_nat (i + 1)) l.
Proof.
  intros A l i x H. unfold item in H.
  destruct (Z.ltb_spec i 0) as [L|L]; [discriminate|].
  replace (Z.to_nat (i + 1)) with (S (Z.to_nat i)) by lia.
  remember (Z.to_nat i) as n eqn:En. clear En L i.
  revert n H. induction l as [|y l IH]; intros n H.
  - destruct n; discriminate.
  - destruct n as [|n]; cbn in H.
    + injection H as ->. reflexivity.
    + cbn [skipn]. apply IH. exact H.
Qed.

Lemma peek_loop_forward : forall b l n from,
    0 <= from -> from + Z.of_nat n = Z.of_nat (List.length l) ->
    peek_loop rt b l (upFrom from n) =
      Resolved (if b then find (isForeground rt) (skipn (Z.to_nat from) l)
                else hd_error (skipn (Z.to_nat from) l)).
Proof.
  intros b l n. induction n as [|n IH]; intros from H0 Hlen.
  - cbn. rewrite skipn_all2 by lia. destruct b; reflexivity.
  - cbn [upFrom peek_loop].
    destruct (item_in_range _ l from) as [x Hx]; [lia|].
    rewrite (skipn_item _ _ _ _ Hx). rewrite Hx.
    destruct b; cbn [negb find hd_error]; [|reflexivity].
    unfold isForeground at 1.
    destruct (negb (isBackgroundActivity (options (obj rt x))));
      [reflexivity|].
    apply IH; lia.
Qed.

(** X5: [peek] on a well-formed stack returns the first entry of the
    forward history (the entries above the top index), with
    [ignoreBackgroundActivities] the first one that is not a background
    activity, and [undefined] when there is none; it never returns an
    entry of the active region. *)
Theorem peek_first_forward : forall b s,
    wellFormed s ->
    peek rt b s =
      Resolved (if b then find (isForeground rt) (forward s)
                else hd_error (forward s)).
Proof.
  intros b s [[H1 H2] _]. unfold peek, forward.
  apply peek_loop_forward; lia.
Qed.

End Forward.

Lemma peek_first_forward_witness :
  let rt := Sample.runtime
              (fun a => match a with
                        | 3%nat => Sample.background
                        | _ => Sample.plain
                        end) in
  let s := Sample.stackOf 1 [1%nat; 2%nat; 3%nat; 4%nat] 1 in
  wellFormed s /\
  peek rt true s = Resolved (Some 4%nat) /\
  peek rt false s = Resolved (Some 3%nat).
Proof.
  assert (H : wellFormed (Sample.stackOf 1 [1%nat; 2%nat; 3%nat; 4%nat] 1))
    by (unfold wellFormed; cbn; lia).
  split; [exact H|].
  split.
  - exact (peek_first_forward _ true _ H).
  - exact (peek_first_forward _ false _ H).
Defined.

(** ** Going back, and forward again *)

Section BackAndForth.

Variable rt : Runtime.
Hypothesis all_accept : allAccept rt.

(** When no handler rejects, a [Pop] goes through. *)
Lemma pop_goes_through : forall to w,
    exists w',
      _processTransition rt to Pop w = (Resolved (newRecord to Pop w), w') /\
      this w' = setTopIndex (this w) (topIndex (this w) - 1) /\
      _nextHistoryId w' = _nextHistoryId w /\
      _nextTransitionID w' = S (_nextTransitionID w) /\
      previousTransition w' = Some (newRecord to Pop w).
Proof.
  intros to w. rewrite processTransition_outcome by exact I.
  unfold transitionOutcome.
  destruct (option_eqb (top (this w)) to).
  - eexists. split; [reflexivity|]. cbn. repeat split; reflexivity.
  - rewrite (firstVeto_allAccept rt _ _ _ all_accept).
    eexists. split; [reflexivity|]. cbn. repeat split; reflexivity.
Qed.

Lemma top_setTopIndex_below : forall s,
    top (setTopIndex s (topIndex s - 1)) = item (_stack s) (topIndex s - 1).
Proof.
  intros s. unfold top, item. cbn.
  destruct (topIndex s - 1 <? 0); reflexivity.
Qed.

Lemma top_item : forall s a,
    top s = Some a -> item (_stack s) (topIndex s) = Some a.
Proof.
  intros s a H. unfold top in H.
  destruct (topIndex s <? 0); [discriminate|exact H].
Qed.

(** X6: when no handler rejects, [popAsync()] (or [popAsync(a)] for the
    foreground activity [a]) on a well-formed stack resolves with a [Pop]
    transition from [a] to the entry below it; the array is left as it was,
    the top index is one lower, the entry below is the foreground, and
    [peek()] returns [a], the activity that was popped. *)
Theorem popAsync_goes_back : forall act a w,
    wellFormed (this w) ->
    top (this w) = Some a ->
    act = None \/ act = Some a ->
    exists t w',
      popAsync rt act w = (Resolved (Some t), w') /\
      ActivityTransition.op t = Pop /\
      ActivityTransition.from t = Some a /\
      ActivityTransition.to t
        = item (_stack (this w)) (topIndex (this w) - 1) /\
      ActivityTransition.previous t = None /\
      this w' = setTopIndex (this w) (topIndex (this w) - 1) /\
      top (this w') = ActivityTransition.to t /\
      peek rt false (this w') = Resolved (Some a).
Proof.
  intros act a w [[H1 H2] _] Htop Hact.
  pose proof (top_Some_lt _ _ Htop) as Hk.
  unfold popAsync. unfold_monad. cbn [this].
  destruct (Z.ltb_spec (topIndex (this w)) 0) as [L|_]; [lia|].
  assert (E : match act with
              | Some a0 => negb (option_eqb (top (this w)) (Some a0))
              | None => false
              end = false).
  { destruct Hact as [-> | ->]; [reflexivity|].
    rewrite Htop. cbn. rewrite Nat.eqb_refl. reflexivity. }
  rewrite E.
  destruct (pop_goes_through
              (item (_stack (this w)) (topIndex (this w) - 1)) (cleared w))
    as [w' [Hrun [Hthis _]]].
  unfold cleared in Hrun. cbn [this] in Hrun. rewrite Hrun.
  eexists. exists w'. split; [reflexivity|].
  cbn [ActivityTransition.op ActivityTransition.from ActivityTransition.to
       ActivityTransition.previous newRecord previousTransition this].
  cbn [this cleared] in Hthis. rewrite Hthis.
  repeat split; try reflexivity.
  - exact Htop.
  - apply top_setTopIndex_below.
  - unfold peek. cbn [_stack topIndex setTopIndex].
    rewrite (peek_loop_forward rt false (_stack (this w))) by lia.
    replace (topIndex (this w) - 1 + 1) with (topIndex (this w)) by lia.
    rewrite (skipn_item _ _ _ _ (top_item _ _ Htop)). reflexivity.
Qed.

(** X7: going back and forward again.  When no handler rejects, the
    foreground activity [a] has no parent and is no root activity, the
    entry below it is another activity and not transient, then [popAsync()]
    followed by [pushAsync(a)] restores the stack exactly: the push moves
    back into the forward history, with the array, the history IDs and
    [_nextHistoryId] as before. *)
Theorem popAsync_pushAsync_restores : forall fuel a w,
    wellFormed (this w) ->
    top (this w) = Some a ->
    parentActivity (options (obj rt a)) = None ->
    isRootActivity (options (obj rt a)) = false ->
    item (_stack (this w)) (topIndex (this w) - 1) <> Some a ->
    (forall b, item (_stack (this w)) (topIndex (this w) - 1) = Some b ->
               isTransient (options (obj rt b)) = false) ->
    exists t1 w1 t2 w2,
      popAsync rt None w = (Resolved (Some t1), w1) /\
      pushAsync rt fuel a w1 = (Resolved (Some t2), w2) /\
      ActivityTransition.op t2 = Push /\
      ActivityTransition.to t2 = Some a /\
      this w2 = this w /\
      _nextHistoryId w2 = _nextHistoryId w.
Proof.
  intros fuel a w [[H1 H2] H3] Htop Hpar Hroot Hne Htr.
  pose proof (top_Some_lt _ _ Htop) as Hk.
  (* the pop *)
  assert (Hpop : exists w1,
             popAsync rt None w
             = (Resolved (Some (newRecord
                  (item (_stack (this w)) (topIndex (this w) - 1)) Pop
                  (cleared w))), w1) /\
             this w1 = setTopIndex (this w) (topIndex (this w) - 1) /\
             _nextHistoryId w1 = _nextHistoryId w).
  { unfold popAsync. unfold_monad. cbn [this].
    destruct (Z.ltb_spec (topIndex (this w)) 0) as [L|_]; [lia|].
    destruct (pop_goes_through
                (item (_stack (this w)) (topIndex (this w) - 1)) (cleared w))
      as [w1 [Hrun [Hthis [Hhid _]]]].
    unfold cleared in Hrun. cbn [this] in Hrun. rewrite Hrun.
    exists w1. split; [reflexivity|]. split; [exact Hthis|exact Hhid]. }
  destruct Hpop as [w1 [Hpop [Hthis1 Hhid1]]].
  eexists. exists w1.
  (* the push *)
  assert (Htop1 : top (this w1)
                  = item (_stack (this w)) (topIndex (this w) - 1)).
  { rewrite Hthis1. apply top_setTopIndex_below. }
  assert (Hquiet : exists w',
             _upToHubOrRoot rt a w1 = (Resolved tt, w') /\
             (w' = w1 \/ w' = cleared w1)).
  { apply upToHubOrRoot_quiet.
    - unfold _popTransient. rewrite Htop1.
      destruct (item (_stack (this w)) (topIndex (this w) - 1)) as [b|] eqn:Eb;
        [|reflexivity].
      rewrite (Htr b eq_refl). reflexivity.
    - left. unfold hubOrRoot. rewrite Hroot, Hpar. reflexivity. }
  destruct Hquiet as [w' [Hup Hw']].
  assert (Hcl : cleared w' = cleared w1)
    by (destruct Hw' as [-> | ->]; reflexivity).
  assert (Hpush : exists w2,
             pushAsync rt fuel a w1
             = (Resolved (Some (newRecord (Some a) Push (cleared w1))), w2) /\
             this w2 = this w /\ _nextHistoryId w2 = _nextHistoryId w).
  { unfold pushAsync.
    rewrite (bind_resolved _ _ _ _ _ _ _ Hup).
    unfold bind at 1. unfold setPreviousTransition at 1.
    unfold bind at 1. unfold get at 1.
    change {| previousTransition := None;
              _nextTransitionID := _nextTransitionID w';
              _nextHistoryId := _nextHistoryId w';
              emitted := emitted w';
              this := this w' |} with (cleared w').
    rewrite Hcl.
    assert (Hfind : _findParents rt fuel a false (this (cleared w1))
                    = Some [a]).
    { unfold _findParents. destruct fuel; cbn; rewrite Hpar; reflexivity. }
    rewrite Hfind. cbn [forEachParent].
    assert (Hrun : _processTransition rt (Some a) Push (cleared w1)
                   = (Resolved (newRecord (Some a) Push (cleared w1)),
                      afterRun rt (Some a) Push (cleared w1))).
    { apply processTransition_exact.
      - cbn [this cleared]. rewrite Htop1. exact Hne.
      - apply firstVeto_allAccept. exact all_accept.
      - cbn [this cleared canMutate]. rewrite Hthis1. cbn.
        split; [lia|discriminate]. }
    rewrite (bind_resolved _ _ _ _ _ _ _ Hrun).
    eexists. split; [reflexivity|].
    unfold afterRun. cbn [this _nextHistoryId cleared afterMutate mints].
    rewrite Hthis1, Hhid1.
    assert (Hredo : redo (setTopIndex (this w) (topIndex (this w) - 1))
                      (Some a) = true).
    { unfold redo. cbn [_stack topIndex setTopIndex].
      replace (topIndex (this w) - 1 + 1) with (topIndex (this w)) by lia.
      rewrite (top_item _ _ Htop).
      apply andb_true_iff. split.
      - apply Z.gtb_lt. lia.
      - cbn. apply Nat.eqb_refl. }
    unfold afterPush. rewrite Hredo. cbn [negb]. split; [|reflexivity].
    destruct (this w) as [sf st ti hi]. unfold setTopIndex. cbn.
    f_equal. lia. }
  destruct Hpush as [w2 [Hpush [Hthis2 Hhid2]]].
  eexists. exists w2.
  split; [exact Hpop|]. split; [exact Hpush|].
  repeat split; assumption || reflexivity.
Qed.

(** *** Moving up *)

Lemma downTo_step : forall k, 0 <= k -> downTo k = k :: downTo (k - 1).
Proof.
  intros k H. unfold downTo.
  replace (Z.to_nat (k + 1)) with (S (Z.to_nat k)) by lia.
  cbn [downFrom]. rewrite Z2Nat.id by lia.
  replace (Z.to_nat (k - 1 + 1)) with (Z.to_nat k) by lia. reflexivity.
Qed.

Lemma contains_matches : forall x s,
    contains rt x s
    = existsb (fun i => matches rt x (item (_stack s) i)) (downTo (topIndex s)).
Proof. intros x s. destruct x; reflexivity. Qed.

Lemma arrived_matches : forall x s, arrived rt x s = matches rt x (top s).
Proof. intros x s. destruct x; reflexivity. Qed.

Lemma matches_None : forall x, matches rt x None = false.
Proof. intros x. destruct x; reflexivity. Qed.

Lemma recurse_reaches : forall x b w,
    contains rt x (this w) = true ->
    topIndex (this w) <= Z.of_nat b ->
    exists a w',
      recurse rt b x w = (Resolved (Some a), w') /\
      top (this w') = Some a /\
      matches rt x (Some a) = true /\
      _stack (this w') = _stack (this w) /\
      _historyIds (this w') = _historyIds (this w) /\
      topIndex (this w') <= topIndex (this w) /\
      (forall i, topIndex (this w') < i <= topIndex (this w) ->
                 matches rt x (item (_stack (this w)) i) = false).
Proof.
  intros x b. induction b as [|b IH]; intros w Hc Hb;
    pose proof (contains_top rt _ _ Hc) as H0;
    destruct (arrived rt x (this w)) eqn:A.
  - rewrite (recurse_arrived rt _ _ _ A).
    rewrite arrived_matches in A.
    destruct (top (this w)) as [a|] eqn:Ht;
      [|rewrite matches_None in A; discriminate].
    exists a, w. repeat split; try assumption; try reflexivity; try lia.
  - exfalso. rewrite contains_matches in Hc.
    rewrite (downTo_step _ H0) in Hc. cbn [existsb] in Hc.
    replace (topIndex (this w) - 1) with (-1) in Hc by lia.
    rewrite arrived_matches in A. unfold top in A.
    destruct (Z.ltb_spec (topIndex (this w)) 0) as [L|_]; [lia|].
    rewrite A in Hc. cbn in Hc. discriminate.
  - rewrite (recurse_arrived rt _ _ _ A).
    rewrite arrived_matches in A.
    destruct (top (this w)) as [a|] eqn:Ht;
      [|rewrite matches_None in A; discriminate].
    exists a, w. repeat split; try assumption; try reflexivity; try lia.
  - cbn [recurse]. rewrite A, Hc.
    destruct (pop_goes_through
                (item (_stack (this w)) (topIndex (this w) - 1)) w)
      as [w1 [Hrun [Hthis _]]].
    rewrite (bind_resolved _ _ _ _ _ _ _ Hrun).
    rewrite arrived_matches in A. unfold top in A.
    destruct (Z.ltb_spec (topIndex (this w)) 0) as [L|_]; [lia|].
    assert (Hc1 : contains rt x (this w1) = true).
    { rewrite contains_matches in Hc |- *.
      rewrite (downTo_step _ H0) in Hc. cbn [existsb] in Hc.
      rewrite A in Hc. rewrite Hthis. exact Hc. }
    destruct (IH w1 Hc1) as [a [w' [Hr [Ht [Hm [Hs [Hh [Hle Hnear]]]]]]]].
    { rewrite Hthis. cbn. lia. }
    rewrite Hthis in Hs, Hh, Hle, Hnear. cbn in Hs, Hh, Hle, Hnear.
    exists a, w'. repeat split; try assumption; try lia.
    intros i Hi.
    destruct (Z.eq_dec i (topIndex (this w))) as [->|Hn]; [exact A|].
    apply Hnear. lia.
Qed.


End BackAndForth.

(** ** What [Deactivated] is emitted on *)

Section Deactivation.

Variable rt : Runtime.

Lemma existsb_downFrom_ext : forall (f g : Z -> bool) n,
    (forall i, 0 <= i < Z.of_nat n -> f i = g i) ->
    existsb f (downFrom n) = existsb g (downFrom n).
Proof.
  intros f g n. induction n as [|n IH]; intros H; [reflexivity|].
  cbn [downFrom existsb]. rewrite (H (Z.of_nat n)) by lia.
  rewrite IH; [reflexivity|]. intros i Hi. apply H. lia.
Qed.

(** [contains] reads the active region only. *)
Lemma contains_same_region : forall x s l,
    (forall i, 0 <= i <= topIndex s -> item l i = item (_stack s) i) ->
    contains rt x (withStack s l) = contains rt x s.
Proof.
  intros x s l H. rewrite !contains_matches. cbn [_stack topIndex withStack].
  unfold downTo. apply existsb_downFrom_ext.
  intros i Hi. rewrite H by lia. reflexivity.
Qed.

Lemma item_removelast : forall A (l : list A) i,
    i < Z.of_nat (List.length l) - 1 -> item (removelast l) i = item l i.
Proof.
  intros A l i H. unfold item. destruct (i <? 0) eqn:L; [reflexivity|].
  apply Z.ltb_ge in L. rewrite removelast_is_firstn.
  rewrite nth_error_firstn.
  destruct (Nat.ltb_spec (Z.to_nat i) (List.length l - 1)); [reflexivity|lia].
Qed.

Lemma deactivations_are : forall t n s,
    Forall (isDeactivated t) (deactivations rt t n s).
Proof.
  intros t n. induction n as [|n IH]; intros s; cbn [deactivations].
  - constructor.
  - destruct (Z.of_nat (List.length (_stack s)) >? topIndex s + 1);
      [|constructor].
    destruct (rev (_stack s)) as [|oldTop r]; [constructor|].
    apply Forall_app. split; [|apply IH].
    destruct (contains rt (AnActivity oldTop)
                (withStack s (removelast (_stack s)))); constructor.
    + split; reflexivity.
    + constructor.
Qed.

Lemma switchDeactivations_are : forall t op to s,
    Forall (isDeactivated t) (switchDeactivations rt t op to s).
Proof.
  intros t op to s. unfold switchDeactivations, pushDeactivations.
  destruct op; destruct to as [a|]; try constructor.
  - destruct (redo s (Some a)); [constructor|apply deactivations_are].
  - destruct (redo (setTopIndex s (topIndex s - 1)) (Some a));
      [constructor|apply deactivations_are].
Qed.

Lemma deactivated_all : forall t des,
    Forall (isDeactivated t) des -> deactivated des = map emitter des.
Proof.
  intros t des H. unfold deactivated. f_equal.
  induction H as [|e l [He _] _ IH]; [reflexivity|].
  cbn. rewrite He. cbn. rewrite IH. reflexivity.
Qed.

Lemma deactivated_app : forall l1 l2,
    deactivated (l1 ++ l2) = deactivated l1 ++ deactivated l2.
Proof.
  intros l1 l2. unfold deactivated. rewrite filter_app, map_app. reflexivity.
Qed.

(** Of the emissions of a transition, those of the [switch] are the ones
    of [Deactivated]. *)
Lemma deactivated_transitionEmissions : forall t old r s s' des,
    Forall (isDeactivated t) des ->
    deactivated (transitionEmissions t old r s s' des) = map emitter des.
Proof.
  intros t old r s s' des H. unfold transitionEmissions.
  repeat rewrite deactivated_app. rewrite (deactivated_all t des H).
  destruct old; destruct (ActivityTransition.to t); destruct r; cbn;
    rewrite ?app_nil_r; reflexivity.
Qed.

(** The loop that cuts the forward history emits [Deactivated] on the
    entries that the active region does not hold, from the last one. *)
Lemma deactivations_emitters : forall t n s,
    -1 <= topIndex s ->
    (List.length (_stack s) <= n + Z.to_nat (topIndex s + 1))%nat ->
    map emitter (deactivations rt t n s)
    = map Some (filter (fun x => negb (contains rt (AnActivity x) s))
                  (rev (forward s))).
Proof.
  intros t n. induction n as [|n IH]; intros s Htop Hlen.
  - cbn. unfold forward. rewrite skipn_all2 by lia. reflexivity.
  - cbn [deactivations].
    destruct (Z.of_nat (List.length (_stack s)) >? topIndex s + 1) eqn:E.
    + apply Z.gtb_lt in E.
      destruct (rev (_stack s)) as [|oldTop r] eqn:R.
      * apply (f_equal (@List.length _)) in R. rewrite length_rev in R.
        cbn in R. lia.
      * assert (Hst : _stack s = rev r ++ [oldTop]).
        { rewrite <- (rev_involutive (_stack s)), R. reflexivity. }
        assert (Hrm : removelast (_stack s) = rev r).
        { rewrite Hst. apply removelast_last. }
        assert (Hlr : List.length (_stack s) = S (List.length (rev r))).
        { rewrite Hst, length_app. cbn. lia. }
        set (s1 := withStack s (removelast (_stack s))).
        assert (Hc : forall x, contains rt x s1 = contains rt x s).
        { intros x. apply contains_same_region. intros i Hi.
          apply item_removelast. lia. }
        assert (Hf : forward s = forward s1 ++ [oldTop]).
        { unfold forward, s1. cbn [_stack topIndex withStack].
          rewrite Hrm, Hst. rewrite skipn_app.
          replace (Z.to_nat (topIndex s + 1) - List.length (rev r))%nat
            with 0%nat by lia.
          reflexivity. }
        rewrite Hf, rev_app_distr. cbn [rev app filter].
        rewrite map_app. rewrite IH.
        -- rewrite Hc.
           rewrite (filter_ext _ _ (fun x => f_equal negb (Hc (AnActivity x)))).
           destruct (contains rt (AnActivity oldTop) s); reflexivity.
        -- exact Htop.
        -- unfold s1. cbn [_stack topIndex withStack]. rewrite Hrm. lia.
    + rewrite Z.gtb_ltb in E. apply Z.ltb_ge in E.
      unfold forward. rewrite skipn_all2 by lia. reflexivity.
Qed.

(** A [Push] or [Replace] that appends: what it discards, and the stack
    that it leaves. *)
Lemma switch_discards : forall a op s t hid b,
    wellFormed s ->
    callOK (Some a) op s ->
    op <> Pop ->
    redo (switchBase op s) (Some a) = false ->
    map emitter (switchDeactivations rt t op (Some a) s)
      = map Some
          (filter (fun x => negb (contains rt (AnActivity x) (switchBase op s)))
             (rev (forward (switchBase op s)))) /\
    _stack (afterMutate rt op (Some a) s hid)
      = cutForward (switchBase op s) ++ [a] /\
    topIndex (afterMutate rt op (Some a) s hid)
      = topIndex (switchBase op s) + 1 /\
    item (_historyIds (afterMutate rt op (Some a) s hid))
      (topIndex (switchBase op s) + 1) = Some (Some (historyId rt hid)) /\
    peek rt b (afterMutate rt op (Some a) s hid) = Resolved None.
Proof.
  intros a op s t hid b Hwf Hc Hop Hredo.
  pose proof Hwf as [[H1 H2] H3].
  assert (Hbase : -1 <= topIndex (switchBase op s)
                  < Z.of_nat (List.length (_stack (switchBase op s)))).
  { destruct op; cbn in Hc |- *; lia. }
  assert (Hsw : switchDeactivations rt t op (Some a) s
                = deactivations rt t
                    (List.length (_stack (switchBase op s)))
                    (switchBase op s)).
  { destruct op; [| |congruence];
      cbn [switchDeactivations switchBase] in *;
      unfold pushDeactivations; rewrite Hredo; reflexivity. }
  assert (Hafter : afterMutate rt op (Some a) s hid
                   = afterPush rt (switchBase op s) a hid).
  { destruct op; [reflexivity|reflexivity|congruence]. }
  rewrite Hafter, Hsw. unfold afterPush. rewrite Hredo.
  cbn [_stack topIndex _historyIds].
  pose proof (length_cutForward _ Hbase) as Hlen.
  split; [|split; [|split; [|split]]].
  - apply deactivations_emitters; lia.
  - reflexivity.
  - rewrite length_app. cbn. lia.
  - unfold item.
    destruct (Z.ltb_spec (topIndex (switchBase op s) + 1) 0) as [L|_]; [lia|].
    assert (Hn : List.length (cutForward (switchBase op s) ++ [a])
                 = S (Z.to_nat (topIndex (switchBase op s) + 1))).
    { rewrite length_app. cbn [List.length]. lia. }
    rewrite Hn.
    replace (Z.to_nat (Z.of_nat (S (Z.to_nat (topIndex (switchBase op s) + 1)))
                       - 1))
      with (Z.to_nat (topIndex (switchBase op s) + 1)) by lia.
    rewrite nth_error_setItem, length_setLength.
    rewrite Nat.eqb_refl.
    destruct (Nat.ltb_spec (Z.to_nat (topIndex (switchBase op s) + 1))
                (S (Z.to_nat (topIndex (switchBase op s) + 1))));
      [reflexivity|lia].
  - unfold peek. cbn [_stack topIndex].
    replace (Z.to_nat _) with 0%nat by lia.
    reflexivity.
Qed.

(** X9: a [Push] or [Replace] of [a] that goes through and does not move
    into the forward history discards the entries above the top index
    (for [Replace], the replaced foreground activity with them): it emits
    [Deactivated] on each discarded entry that the remaining active region
    does not hold as well, from the last entry down, and on no other
    activity; afterwards the array is the remaining active region followed
    by [a], and [peek] returns [undefined]. *)
Theorem push_deactivates_discarded : forall a op w b,
    allAccept rt ->
    wellFormed (this w) ->
    callOK (Some a) op (this w) ->
    op <> Pop ->
    top (this w) <> Some a ->
    redo (switchBase op (this w)) (Some a) = false ->
    exists w',
      _processTransition rt (Some a) op w
        = (Resolved (newRecord (Some a) op w), w') /\
      deactivated (skipn (List.length (emitted w)) (emitted w'))
        = map Some
            (filter (fun x => negb (contains rt (AnActivity x)
                                      (switchBase op (this w))))
               (rev (forward (switchBase op (this w))))) /\
      _stack (this w') = cutForward (switchBase op (this w)) ++ [a] /\
      peek rt b (this w') = Resolved None.
Proof.
  intros a op w b Hacc Hwf Hc Hop Hne Hredo.
  exists (afterRun rt (Some a) op w). split.
  { apply processTransition_exact.
    - exact Hne.
    - apply firstVeto_allAccept. exact Hacc.
    - apply callOK_canMutate; assumption. }
  destruct (switch_discards a op (this w) (newRecord (Some a) op w)
              (_nextHistoryId w) b Hwf Hc Hop Hredo)
    as [Hde [Hst [_ [_ Hpeek]]]].
  unfold afterRun. cbn [emitted this].
  split; [|split; assumption].
  rewrite skipn_app, skipn_all, Nat.sub_diag. cbn [skipn app].
  rewrite (deactivated_transitionEmissions _ _ _ _ _ _
             (switchDeactivations_are _ _ _ _)).
  exact Hde.
Qed.

End Deactivation.

(** ** Replacing the foreground activity *)

Section Replacing.

Variable rt : Runtime.
Hypothesis all_accept : allAccept rt.

(** X10: when no handler rejects, [replaceAsync(a)] for an activity [a]
    without parent that is no root activity, on a well-formed stack whose
    foreground activity [old] is not transient, and where neither [old] nor
    the entry below it is [a], resolves with one [Replace] transition from
    [old] to [a]: [a] takes the slot of [old] with a new history ID, the
    top index is as before, the forward history is discarded, and
    [Deactivated] is emitted on [old] and on the discarded entries that the
    entries below [old] do not hold as well. *)
Theorem replaceAsync_takes_the_slot : forall fuel a old w,
    wellFormed (this w) ->
    top (this w) = Some old ->
    old <> a ->
    item (_stack (this w)) (topIndex (this w) - 1) <> Some a ->
    parentActivity (options (obj rt a)) = None ->
    isRootActivity (options (obj rt a)) = false ->
    isTransient (options (obj rt old)) = false ->
    exists t w',
      replaceAsync rt fuel a w = (Resolved (Some t), w') /\
      ActivityTransition.op t = Replace /\
      ActivityTransition.from t = Some old /\
      ActivityTransition.to t = Some a /\
      ActivityTransition.previous t = None /\
      topIndex (this w') = topIndex (this w) /\
      top (this w') = Some a /\
      _stack (this w')
        = firstn (Z.to_nat (topIndex (this w))) (_stack (this w)) ++ [a] /\
      item (_historyIds (this w')) (topIndex (this w))
        = Some (Some (historyId rt (_nextHistoryId w))) /\
      deactivated (skipn (List.length (emitted w)) (emitted w'))
        = map Some
            (filter (fun x => negb (contains rt (AnActivity x)
                                      (switchBase Replace (this w))))
               (rev (forward (switchBase Replace (this w))))).
Proof.
  intros fuel a old w Hwf Htop Hold Hbelow Hpar Hroot Htr.
  pose proof Hwf as [[H1 H2] H3].
  pose proof (top_Some_lt _ _ Htop) as Hk.
  assert (Hquiet : exists w1,
             _upToHubOrRoot rt a w = (Resolved tt, w1) /\
             (w1 = w \/ w1 = cleared w)).
  { apply upToHubOrRoot_quiet.
    - unfold _popTransient. rewrite Htop, Htr. reflexivity.
    - left. unfold hubOrRoot. rewrite Hroot, Hpar. reflexivity. }
  destruct Hquiet as [w1 [Hup Hw1]].
  assert (Hcl : cleared w1 = cleared w)
    by (destruct Hw1 as [-> | ->]; reflexivity).
  assert (Hne : top (this (cleared w)) <> Some a).
  { cbn [this cleared]. rewrite Htop. congruence. }
  assert (Hc : callOK (Some a) Replace (this (cleared w))).
  { cbn. split; [discriminate|lia]. }
  assert (Hrun : _processTransition rt (Some a) Replace (cleared w)
                 = (Resolved (newRecord (Some a) Replace (cleared w)),
                    afterRun rt (Some a) Replace (cleared w))).
  { apply processTransition_exact.
    - exact Hne.
    - apply firstVeto_allAccept. exact all_accept.
    - apply callOK_canMutate; assumption. }
  assert (Hredo : redo (switchBase Replace (this w)) (Some a) = false).
  { unfold redo. cbn [switchBase _stack topIndex setTopIndex].
    replace (topIndex (this w) - 1 + 1) with (topIndex (this w)) by lia.
    rewrite (top_item _ _ Htop). apply andb_false_iff. right.
    apply option_eqb_neq. congruence. }
  destruct (switch_discards rt a Replace (this w)
              (newRecord (Some a) Replace (cleared w)) (_nextHistoryId w)
              false Hwf Hc ltac:(discriminate) Hredo)
    as [Hde [Hst [Hti [Hid _]]]].
  cbn [switchBase topIndex setTopIndex] in Hti, Hid.
  replace (topIndex (this w) - 1 + 1) with (topIndex (this w)) in Hti, Hid
    by lia.
  exists (newRecord (Some a) Replace (cleared w)),
         (afterRun rt (Some a) Replace (cleared w)).
  split.
  { unfold replaceAsync.
    rewrite (bind_resolved _ _ _ _ _ _ _ Hup).
    unfold bind at 1. unfold setPreviousTransition at 1.
    unfold bind at 1. unfold get at 1.
    change {| previousTransition := None;
              _nextTransitionID := _nextTransitionID w1;
              _nextHistoryId := _nextHistoryId w1;
              emitted := emitted w1;
              this := this w1 |} with (cleared w1).
    rewrite Hcl. cbn [this cleared].
    destruct (Z.ltb_spec (topIndex (this w)) 0) as [L|_]; [lia|].
    apply option_eqb_neq in Hbelow. rewrite Hbelow. cbn [negb andb orb].
    assert (Hfind : _findParents rt fuel a true (this w) = Some [a]).
    { unfold _findParents. destruct fuel; cbn; rewrite Hpar; reflexivity. }
    rewrite Hfind. cbn [forEachParent].
    change {| previousTransition := None;
              _nextTransitionID := _nextTransitionID w;
              _nextHistoryId := _nextHistoryId w;
              emitted := emitted w;
              this := this w |} with (cleared w).
    rewrite (bind_resolved _ _ _ _ _ _ _ Hrun). reflexivity. }
  unfold afterRun.
  cbn [ActivityTransition.op ActivityTransition.from ActivityTransition.to
       ActivityTransition.previous newRecord previousTransition this emitted
       _nextHistoryId cleared].
  repeat split; try reflexivity; try assumption.
  - unfold top. rewrite Hti.
    destruct (Z.ltb_spec (topIndex (this w)) 0) as [L|_]; [lia|].
    rewrite Hst. unfold cutForward.
    cbn [switchBase _stack topIndex setTopIndex].
    replace (topIndex (this w) - 1 + 1) with (topIndex (this w)) by lia.
    replace (topIndex (this w))
      with (Z.of_nat (List.length
              (firstn (Z.to_nat (topIndex (this w))) (_stack (this w)))))
      at 2 by (rewrite length_firstn; lia).
    apply item_app_last.
  - rewrite Hst. unfold cutForward.
    cbn [switchBase _stack topIndex setTopIndex].
    replace (topIndex (this w) - 1 + 1) with (topIndex (this w)) by lia.
    reflexivity.
  - rewrite skipn_app, skipn_all, Nat.sub_diag. cbn [skipn app].
    rewrite (deactivated_transitionEmissions _ _ _ _ _ _
               (switchDeactivations_are rt _ _ _ _)).
    exact Hde.
Qed.


End Replacing.

(** In the sample runtimes every handler accepts. *)
Lemma sample_allAccept : forall heap, allAccept (Sample.runtime heap).
Proof. intros heap sg a t. reflexivity. Qed.

Lemma sample_wellFormed : forall l i,
    -1 <= i < Z.of_nat (List.length l) ->
    wellFormed (Sample.stackOf 1 l i).
Proof.
  intros l i H. unfold wellFormed, Sample.stackOf. cbn.
  rewrite length_map, length_seq. lia.
Qed.

Lemma popAsync_goes_back_witness :
  let rt := Sample.runtime Sample.plainHeap in
  let w := Sample.worldOf [1%nat; 2%nat; 3%nat] 2 in
  allAccept rt /\ wellFormed (this w) /\ top (this w) = Some 3%nat /\
  (@None Activity = None \/ None = Some 3%nat) /\
  exists t w',
    popAsync rt None w = (Resolved (Some t), w') /\
    ActivityTransition.op t = Pop /\
    ActivityTransition.from t = Some 3%nat /\
    ActivityTransition.to t = item (_stack (this w)) (topIndex (this w) - 1) /\
    ActivityTransition.previous t = None /\
    this w' = setTopIndex (this w) (topIndex (this w) - 1) /\
    top (this w') = ActivityTransition.to t /\
    peek rt false (this w') = Resolved (Some 3%nat).
Proof.
  pose proof (sample_allAccept Sample.plainHeap) as Ha.
  assert (Hw : wellFormed (this (Sample.worldOf [1%nat; 2%nat; 3%nat] 2)))
    by (apply sample_wellFormed; cbn; lia).
  split; [exact Ha|]. split; [exact Hw|]. split; [reflexivity|].
  split; [left; reflexivity|].
  exact (popAsync_goes_back (Sample.runtime Sample.plainHeap) Ha None 3%nat
           _ Hw eq_refl (or_introl eq_refl)).
Defined.

Lemma popAsync_pushAsync_restores_witness :
  let rt := Sample.runtime Sample.plainHeap in
  let w := Sample.worldOf [1%nat; 2%nat; 3%nat] 2 in
  allAccept rt /\ wellFormed (this w) /\ top (this w) = Some 3%nat /\
  parentActivity (options (obj rt 3%nat)) = None /\
  isRootActivity (options (obj rt 3%nat)) = false /\
  item (_stack (this w)) (topIndex (this w) - 1) <> Some 3%nat /\
  (forall b, item (_stack (this w)) (topIndex (this w) - 1) = Some b ->
             isTransient (options (obj rt b)) = false) /\
  exists t1 w1 t2 w2,
    popAsync rt None w = (Resolved (Some t1), w1) /\
    pushAsync rt 5 3%nat w1 = (Resolved (Some t2), w2) /\
    ActivityTransition.op t2 = Push /\
    ActivityTransition.to t2 = Some 3%nat /\
    this w2 = this w /\
    _nextHistoryId w2 = _nextHistoryId w.
Proof.
  pose proof (sample_allAccept Sample.plainHeap) as Ha.
  assert (Hw : wellFormed (this (Sample.worldOf [1%nat; 2%nat; 3%nat] 2)))
    by (apply sample_wellFormed; cbn; lia).
  assert (Hne : item (_stack (this (Sample.worldOf [1%nat; 2%nat; 3%nat] 2)))
                  (topIndex (this (Sample.worldOf [1%nat; 2%nat; 3%nat] 2))
                   - 1) <> Some 3%nat)
    by (cbn; discriminate).
  assert (Htr : forall b,
             item (_stack (this (Sample.worldOf [1%nat; 2%nat; 3%nat] 2)))
               (topIndex (this (Sample.worldOf [1%nat; 2%nat; 3%nat] 2)) - 1)
             = Some b ->
             isTransient (options (obj (Sample.runtime Sample.plainHeap) b))
             = false)
    by (intros b _; reflexivity).
  split; [exact Ha|]. split; [exact Hw|]. split; [reflexivity|].
  split; [reflexivity|]. split; [reflexivity|]. split; [exact Hne|].
  split; [exact Htr|].
  exact (popAsync_pushAsync_restores (Sample.runtime Sample.plainHeap) Ha 5
           3%nat _ Hw eq_refl eq_refl eq_refl Hne Htr).
Defined.


Lemma push_deactivates_discarded_witness :
  let rt := Sample.runtime Sample.plainHeap in
  let w := Sample.worldOf [1%nat; 2%nat; 3%nat; 2%nat] 1 in
  allAccept rt /\ wellFormed (this w) /\
  callOK (Some 5%nat) Push (this w) /\ Push <> Pop /\
  top (this w) <> Some 5%nat /\
  redo (switchBase Push (this w)) (Some 5%nat) = false /\
  exists w',
    _processTransition rt (Some 5%nat) Push w
      = (Resolved (newRecord (Some 5%nat) Push w), w') /\
    deactivated (skipn (List.length (emitted w)) (emitted w'))
      = [Some 3%nat] /\
    _stack (this w') = [1%nat; 2%nat; 5%nat] /\
    peek rt false (this w') = Resolved None.
Proof.
  pose proof (sample_allAccept Sample.plainHeap) as Ha.
  assert (Hw : wellFormed
                 (this (Sample.worldOf [1%nat; 2%nat; 3%nat; 2%nat] 1)))
    by (apply sample_wellFormed; cbn; lia).
  assert (Hc : callOK (Some 5%nat) Push
                 (this (Sample.worldOf [1%nat; 2%nat; 3%nat; 2%nat] 1)))
    by (cbn; discriminate).
  assert (Hop : Push <> Pop) by discriminate.
  assert (Hne : top (this (Sample.worldOf [1%nat; 2%nat; 3%nat; 2%nat] 1))
                <> Some 5%nat) by (cbn; discriminate).
  split; [exact Ha|]. split; [exact Hw|]. split; [exact Hc|].
  split; [exact Hop|]. split; [exact Hne|]. split; [reflexivity|].
  exact (push_deactivates_discarded (Sample.runtime Sample.plainHeap) 5%nat
           Push _ false Ha Hw Hc Hop Hne eq_refl).
Defined.

Lemma replaceAsync_takes_the_slot_witness :
  let rt := Sample.runtime Sample.plainHeap in
  let w := Sample.worldOf [1%nat; 2%nat; 3%nat; 4%nat] 2 in
  allAccept rt /\ wellFormed (this w) /\ top (this w) = Some 3%nat /\
  3%nat <> 5%nat /\
  item (_stack (this w)) (topIndex (this w) - 1) <> Some 5%nat /\
  parentActivity (options (obj rt 5%nat)) = None /\
  isRootActivity (options (obj rt 5%nat)) = false /\
  isTransient (options (obj rt 3%nat)) = false /\
  exists t w',
    replaceAsync rt 5 5%nat w = (Resolved (Some t), w') /\
    ActivityTransition.op t = Replace /\
    ActivityTransition.from t = Some 3%nat /\
    ActivityTransition.to t = Some 5%nat /\
    ActivityTransition.previous t = None /\
    topIndex (this w') = 2 /\
    top (this w') = Some 5%nat /\
    _stack (this w') = [1%nat; 2%nat; 5%nat] /\
    item (_historyIds (this w')) 2 = Some (Some "_A042174"%string) /\
    deactivated (skipn (List.length (emitted w)) (emitted w'))
      = [Some 4%nat; Some 3%nat].
Proof.
  pose proof (sample_allAccept Sample.plainHeap) as Ha.
  assert (Hw : wellFormed
                 (this (Sample.worldOf [1%nat; 2%nat; 3%nat; 4%nat] 2)))
    by (apply sample_wellFormed; cbn; lia).
  assert (Hold : 3%nat <> 5%nat) by discriminate.
  assert (Hne : item (_stack (this (Sample.worldOf
                                      [1%nat; 2%nat; 3%nat; 4%nat] 2)))
                  (topIndex (this (Sample.worldOf
                                     [1%nat; 2%nat; 3%nat; 4%nat] 2)) - 1)
                <> Some 5%nat) by (cbn; discriminate).
  split; [exact Ha|]. split; [exact Hw|]. split; [reflexivity|].
  split; [exact Hold|]. split; [exact Hne|].
  split; [reflexivity|]. split; [reflexivity|]. split; [reflexivity|].
  exact (replaceAsync_takes_the_slot (Sample.runtime Sample.plainHeap) Ha 5
           5%nat 3%nat _ Hw eq_refl Hold Hne eq_refl eq_refl eq_refl).
Defined.

(** ** The numbers of the transitions *)

Section Numbers.

Variable rt : Runtime.

Lemma committed_vetoedEmissions : forall t old r s,
    committed (vetoedEmissions rt t old r s) = [].
Proof.
  intros t old r s. unfold vetoedEmissions, committed.
  destruct old as [o|]; [destruct (accepts rt Suspending o t)|];
    destruct (ActivityTransition.to t); destruct r; reflexivity.
Qed.

Lemma payload_vetoedEmissions : forall t old r s,
    Forall (fun e => payload e = t) (vetoedEmissions rt t old r s).
Proof.
  intros t old r s. unfold vetoedEmissions.
  destruct old as [o|]; [destruct (accepts rt Suspending o t)|];
    destruct (ActivityTransition.to t); repeat constructor.
Qed.

Lemma payload_transitionEmissions : forall t old r s s' des,
    Forall (isDeactivated t) des ->
    Forall (fun e => payload e = t) (transitionEmissions t old r s s' des).
Proof.
  intros t old r s s' des H. unfold transitionEmissions.
  assert (Hd : Forall (fun e => payload e = t) des).
  { apply (Forall_impl _ (fun e (He : isDeactivated t e) => proj2 He) H). }
  repeat (apply Forall_app; split); try exact Hd;
    destruct old; destruct (ActivityTransition.to t); destruct r;
    repeat constructor.
Qed.

Lemma StronglySorted_snoc : forall l n,
    StronglySorted lt l -> Forall (fun x => (x < n)%nat) l ->
    StronglySorted lt (l ++ [n]).
Proof.
  intros l n Hs. induction Hs as [|x l Hs IH Hx]; intros Hl; cbn.
  - constructor; constructor.
  - inversion Hl as [|? ? Hxn Hl']; subst. constructor.
    + apply IH. exact Hl'.
    + apply Forall_app. split; [exact Hx|].
      constructor; [exact Hxn|constructor].
Qed.

Lemma committed_below : forall n l,
    Forall (fun e => (ActivityTransition.id (payload e) < n)%nat) l ->
    Forall (fun x => (x < n)%nat) (map ActivityTransition.id (committed l)).
Proof.
  intros n l H. unfold committed.
  induction H as [|e l He _ IH]; cbn; [constructor|].
  destruct (Signal_eqb (signal e) Transition); cbn; [constructor|]; assumption.
Qed.

(** The emissions [l] of the transition [t] of the world [w], of which
    [c] are announced by [Transition], keep the numbers in order. *)
Lemma numbered_step : forall w t l,
    numbered w ->
    ActivityTransition.id t = _nextTransitionID w ->
    Forall (fun e => payload e = t) l ->
    committed l = [] \/ committed l = [t] ->
    Forall (fun e => (ActivityTransition.id (payload e)
                      < S (_nextTransitionID w))%nat) (emitted w ++ l) /\
    StronglySorted lt
      (map ActivityTransition.id (committed (emitted w ++ l))).
Proof.
  intros w t l [Hb Hs] Hid Hl Hc. split.
  - apply Forall_app. split.
    + apply (Forall_impl _ (fun e He => Nat.lt_lt_succ_r _ _ He) Hb).
    + refine (Forall_impl _ _ Hl). intros e He. rewrite He, Hid. lia.
  - rewrite committed_app, map_app.
    destruct Hc as [-> | ->]; cbn [map].
    + rewrite app_nil_r. exact Hs.
    + rewrite Hid. apply StronglySorted_snoc; [exact Hs|].
      apply committed_below. exact Hb.
Qed.

Lemma transitionOutcome_numbered : forall to op w,
    numbered w -> numbered (snd (transitionOutcome rt to op w)).
Proof.
  intros to op w Hn. unfold transitionOutcome.
  destruct (option_eqb (top (this w)) to).
  - cbn [snd]. unfold numbered, afterNoop. cbn [emitted _nextTransitionID].
    pose proof (numbered_step w (newRecord to op w) [] Hn eq_refl
                  (Forall_nil _) (or_introl eq_refl)) as H.
    rewrite app_nil_r in H. exact H.
  - destruct (firstVeto rt (newRecord to op w) (top (this w))
                (willResume rt to (this w))) as [[sg a]|]; cbn [snd].
    + unfold numbered, afterVeto. cbn [emitted _nextTransitionID].
      apply (numbered_step w (newRecord to op w)); [exact Hn|reflexivity| |].
      * apply payload_vetoedEmissions.
      * left. apply committed_vetoedEmissions.
    + unfold numbered, afterRun. cbn [emitted _nextTransitionID].
      apply (numbered_step w (newRecord to op w)); [exact Hn|reflexivity| |].
      * apply payload_transitionEmissions. apply switchDeactivations_are.
      * right. apply committed_transitionEmissions.
        apply switchDeactivations_are.
Qed.

(** X11: the transitions are numbered in order.  If, on a well-formed
    stack, the IDs of the transitions emitted so far are below
    [_nextTransitionID] and those announced by [Transition] increase, the
    same holds after [pushAsync], [replaceAsync], [popAsync] or [upAsync],
    whatever the outcome: no two announced transitions share an ID. *)
Theorem operations_number_transitions : forall fuel a act x w,
    wellFormed (this w) ->
    numbered w ->
    numbered (snd (pushAsync rt fuel a w)) /\
    numbered (snd (replaceAsync rt fuel a w)) /\
    numbered (snd (popAsync rt act w)) /\
    numbered (snd (upAsync rt x w)).
Proof.
  intros fuel a act x w Hwf Hok.
  set (J := fun w0 : World => wellFormed (this w0) /\ numbered w0).
  assert (Jwf : forall w0, J w0 -> wellFormed (this w0))
    by (intros w0 H; exact (proj1 H)).
  assert (Jcl : forall w0, J w0 -> J (cleared w0)) by (intros; assumption).
  assert (Jtr : forall to op w0, J w0 -> callOK to op (this w0) ->
                  J (snd (transitionOutcome rt to op w0))).
  { intros to op w0 [H1 H2] Hc. split.
    - apply transitionOutcome_wellFormed; assumption.
    - apply transitionOutcome_numbered; assumption. }
  assert (HJ : J w) by (split; assumption).
  split; [|split; [|split]].
  - exact (proj2 (pushAsync_keeps rt J Jwf Jcl Jtr fuel a w HJ)).
  - exact (proj2 (replaceAsync_keeps rt J Jwf Jcl Jtr fuel a w HJ)).
  - exact (proj2 (popAsync_keeps rt J Jwf Jcl Jtr act w HJ)).
  - exact (proj2 (upAsync_keeps rt J Jwf Jcl Jtr x w HJ)).
Qed.

End Numbers.


(** ** The parents to push *)

Section Parents.

Variable rt : Runtime.

Lemma findParents_loop_lineage : forall fuel excl s head result l,
    lineage rt excl s (head :: result) ->
    _findParents_loop rt fuel excl s head result = Some l ->
    exists pre h,
      l = (h :: pre) ++ result /\
      last (h :: pre) h = head /\
      lineage rt excl s l /\
      (parentActivity (options (obj rt h)) = None \/
       parentOnStack rt excl s h = true).
Proof.
  intros fuel. induction fuel as [|fuel IH]; intros excl s head result l Hl H.
  - cbn in H.
    destruct (parentActivity (options (obj rt head))) as [p|] eqn:P;
      [discriminate|].
    injection H as <-. exists [], head. repeat split; [exact Hl|].
    left. exact P.
  - cbn [_findParents_loop] in H.
    destruct (parentActivity (options (obj rt head))) as [p|] eqn:P.
    + destruct p as [parent|c].
      * destruct (contains rt (AnActivity parent) s
                  && (negb excl || negb (option_eqb (top s) (Some parent))))
          eqn:C.
        -- injection H as <-. exists [], head. repeat split; [exact Hl|].
           right. unfold parentOnStack. rewrite P. exact C.
        -- apply IH in H.
           ++ destruct H as [pre [h [-> [Hlast [Hlin Hh]]]]].
              exists (pre ++ [head]), h. repeat split.
              ** cbn. rewrite <- app_assoc. reflexivity.
              ** change (h :: pre ++ [head]) with ((h :: pre) ++ [head]).
                 apply last_last.
              ** exact Hlin.
              ** exact Hh.
           ++ cbn [lineage]. repeat split; [| |exact Hl].
              ** unfold declaredParent. rewrite P. reflexivity.
              ** unfold parentOnStack. rewrite P. exact C.
      * destruct ((negb excl && isInstance rt (top s) c)
                  || match getParent rt c None s with
                     | Some _ => true
                     | None => false
                     end) eqn:C.
        -- injection H as <-. exists [], head. repeat split; [exact Hl|].
           right. unfold parentOnStack. rewrite P. exact C.
        -- apply IH in H.
           ++ destruct H as [pre [h [-> [Hlast [Hlin Hh]]]]].
              exists (pre ++ [head]), h. repeat split.
              ** cbn. rewrite <- app_assoc. reflexivity.
              ** change (h :: pre ++ [head]) with ((h :: pre) ++ [head]).
                 apply last_last.
              ** exact Hlin.
              ** exact Hh.
           ++ cbn [lineage]. repeat split; [| |exact Hl].
              ** unfold declaredParent. rewrite P. reflexivity.
              ** unfold parentOnStack. rewrite P. exact C.
    + injection H as <-. exists [], head. repeat split; [exact Hl|].
      left. exact P.
Qed.

Lemma findParents_loop_eq : forall fuel excl s head result,
    _findParents_loop rt (S fuel) excl s head result =
      match parentActivity (options (obj rt head)) with
      | None => Some (head :: result)
      | Some (ParentInstance parent) =>
          if contains rt (AnActivity parent) s
             && (negb excl || negb (option_eqb (top s) (Some parent)))
          then Some (head :: result)
          else _findParents_loop rt fuel excl s parent (head :: result)
      | Some (ParentClass c) =>
          if (negb excl && isInstance rt (top s) c)
             || match getParent rt c None s with
                | Some _ => true
                | None => false
                end
          then Some (head :: result)
          else _findParents_loop rt fuel excl s (getInstance rt c)
                 (head :: result)
      end.
Proof.
  intros fuel excl s head result. cbn [_findParents_loop].
  destruct (parentActivity (options (obj rt head))) as [[parent|c]|];
    reflexivity.
Qed.

(** More turns do not change what the loop of [_findParents] returns. *)
Lemma findParents_loop_more : forall fuel excl s head result l,
    _findParents_loop rt fuel excl s head result = Some l ->
    _findParents_loop rt (S fuel) excl s head result = Some l.
Proof.
  intros fuel. induction fuel as [|fuel IH]; intros excl s head result l H.
  - cbn in H |- *.
    destruct (parentActivity (options (obj rt head))); [discriminate|exact H].
  - rewrite findParents_loop_eq in H. rewrite findParents_loop_eq.
    destruct (parentActivity (options (obj rt head))) as [[parent|c]|];
      [| |exact H].
    + destruct (contains rt (AnActivity parent) s
                && (negb excl || negb (option_eqb (top s) (Some parent))));
        [exact H|].
      apply IH. exact H.
    + destruct ((negb excl && isInstance rt (top s) c)
                || match getParent rt c None s with
                   | Some _ => true
                   | None => false
                   end); [exact H|].
      apply IH. exact H.
Qed.

(** X13: what [_findParents(a, excludeTop)] returns is a chain of parents
    that ends with [a]: each activity of the list is the parent that the
    next one declares (the instance, or [getInstance()] of the class) and
    that the stack does not hold; the first one declares no parent, or one
    that the stack holds.  The result does not depend on the number of
    turns given to the loop, once it is enough. *)
Theorem findParents_is_a_lineage : forall fuel a excl s l,
    _findParents rt fuel a excl s = Some l ->
    (exists h rest,
        l = h :: rest /\
        (parentActivity (options (obj rt h)) = None \/
         parentOnStack rt excl s h = true)) /\
    last l a = a /\
    lineage rt excl s l /\
    (forall more, _findParents rt (more + fuel) a excl s = Some l).
Proof.
  intros fuel a excl s l H. unfold _findParents in *.
  destruct (findParents_loop_lineage fuel excl s a [] l I H)
    as [pre [h [Hl [Hlast [Hlin Hh]]]]].
  rewrite app_nil_r in Hl. subst l.
  split; [exists h, pre; split; [reflexivity|exact Hh]|].
  split; [|split; [exact Hlin|]].
  - rewrite <- Hlast at 2. clear. revert h.
    induction pre as [|x pre IH]; intros h; [reflexivity|].
    cbn [last] in *. destruct pre as [|y pre]; [reflexivity|]. apply IH.
  - intros more. induction more as [|more IH]; [exact H|].
    apply findParents_loop_more. exact IH.
Qed.

(** *** [getParent] *)

Lemma isInstance_Some : forall o c,
    isInstance rt o c = true ->
    exists a, o = Some a /\ instanceOf rt a c = true.
Proof.
  intros o c H. destruct o as [a|]; [|discriminate]. exists a. split;
    [reflexivity|exact H].
Qed.

Lemma getParent_loop_nearest : forall c l n seen,
    match getParent_loop rt c None l seen (downFrom n) with
    | Some a =>
        exists i, 0 <= i < Z.of_nat n /\ item l i = Some a /\
                  instanceOf rt a c = true /\
                  forall j, i < j < Z.of_nat n ->
                            isInstance rt (item l j) c = false
    | None =>
        forall j, 0 <= j < Z.of_nat n -> isInstance rt (item l j) c = false
    end.
Proof.
  intros c l n. induction n as [|n IH]; intros seen.
  - cbn. intros j Hj. lia.
  - cbn [downFrom getParent_loop]. rewrite orb_true_r. cbn [andb].
    destruct (isInstance rt (item l (Z.of_nat n)) c) eqn:E.
    + destruct (isInstance_Some _ _ E) as [a [Ha Hi]]. rewrite Ha.
      exists (Z.of_nat n).
      split; [lia|]. split; [exact Ha|]. split; [exact Hi|].
      intros j Hj. lia.
    + specialize (IH (seen || option_eqb (item l (Z.of_nat n)) None)).
      destruct (getParent_loop rt c None l
                  (seen || option_eqb (item l (Z.of_nat n)) None)
                  (downFrom n)) as [a|].
      * destruct IH as [i [Hi [Ha [Hc Hn]]]].
        exists i. repeat split; try assumption; try lia.
        intros j Hj. destruct (Z.eq_dec j (Z.of_nat n)) as [->|Hne];
          [exact E|apply Hn; lia].
      * intros j Hj. destruct (Z.eq_dec j (Z.of_nat n)) as [->|Hne];
          [exact E|apply IH; lia].
Qed.

Lemma getParent_loop_before : forall c b l bound n seen a,
    (seen = true ->
     exists j, Z.of_nat n <= j <= bound /\ item l j = Some b) ->
    Z.of_nat n <= bound + 1 ->
    getParent_loop rt c (Some b) l seen (downFrom n) = Some a ->
    exists i j, 0 <= i < j /\ j <= bound /\ item l j = Some b /\
                item l i = Some a /\ instanceOf rt a c = true.
Proof.
  intros c b l bound n. induction n as [|n IH]; intros seen a Hseen Hn H.
  - discriminate.
  - cbn [downFrom getParent_loop] in H. rewrite orb_false_r in H.
    destruct (seen && isInstance rt (item l (Z.of_nat n)) c) eqn:E.
    + apply andb_true_iff in E. destruct E as [Es Ei].
      destruct (Hseen Es) as [j [Hj Hb]].
      destruct (isInstance_Some _ _ Ei) as [a' [Ha Hi]].
      rewrite Ha in H. injection H as <-.
      exists (Z.of_nat n), j. repeat split; try assumption; lia.
    + apply (IH (seen || option_eqb (item l (Z.of_nat n)) (Some b)) a);
        [|lia|exact H].
      intros Hs. apply orb_true_iff in Hs. destruct Hs as [Hs|Hs].
      * destruct (Hseen Hs) as [j [Hj Hb]]. exists j. split; [lia|exact Hb].
      * apply option_eqb_eq in Hs. exists (Z.of_nat n). split; [lia|exact Hs].
Qed.

(** X14: [getParent(C)] returns the instance of [C] nearest to the
    foreground among the entries strictly below the top index, and
    [undefined] when there is none there; [getParent(C, before)] only
    returns an instance of [C] that lies strictly below an occurrence of
    [before] in the active region. *)
Theorem getParent_nearest_below : forall c s,
    match getParent rt c None s with
    | Some a =>
        exists i, 0 <= i < topIndex s /\ item (_stack s) i = Some a /\
                  instanceOf rt a c = true /\
                  forall j, i < j < topIndex s ->
                            isInstance rt (item (_stack s) j) c = false
    | None =>
        forall j, 0 <= j < topIndex s ->
                  isInstance rt (item (_stack s) j) c = false
    end /\
    forall b a,
      getParent rt c (Some b) s = Some a ->
      exists i j, 0 <= i < j /\ j <= topIndex s /\
                  item (_stack s) j = Some b /\
                  item (_stack s) i = Some a /\ instanceOf rt a c = true.
Proof.
  intros c s. unfold getParent, downTo.
  replace (Z.to_nat (topIndex s - 1 + 1)) with (Z.to_nat (topIndex s)) by lia.
  split.
  - pose proof (getParent_loop_nearest c (_stack s) (Z.to_nat (topIndex s))
                  (option_eqb (item (_stack s) (topIndex s)) None)) as H.
    destruct (getParent_loop rt c None (_stack s)
                (option_eqb (item (_stack s) (topIndex s)) None)
                (downFrom (Z.to_nat (topIndex s)))) as [a|].
    + destruct H as [i [Hi [Ha [Hc Hn]]]].
      exists i. repeat split; try assumption; try lia.
      intros j Hj. apply Hn. lia.
    + intros j Hj. apply H. lia.
  - intros b a H.
    destruct (Z.ltb_spec (topIndex s) 0) as [L|L].
    + replace (Z.to_nat (topIndex s)) with 0%nat in H by lia. discriminate.
    + apply (getParent_loop_before c b (_stack s) (topIndex s)
               (Z.to_nat (topIndex s))
               (option_eqb (item (_stack s) (topIndex s)) (Some b)) a);
        [|lia|exact H].
      intros Hs. apply option_eqb_eq in Hs.
      exists (topIndex s). split; [lia|exact Hs].
Qed.

End Parents.

(** ** The links between the transitions of one call *)

Section Links.

Variable rt : Runtime.





End Links.

(** ** The cursor *)

Section Cursors.

Variable rt : Runtime.

Lemma Cursor_clamp_inside : forall k l,
    k < Z.of_nat (List.length l) ->
    Cursor_clamp {| idx := k; stack := l |} = {| idx := k; stack := l |}.
Proof.
  intros k l H. unfold Cursor_clamp. cbn [idx stack].
  destruct (Z.geb_spec k (Z.of_nat (List.length l))); [lia|reflexivity].
Qed.

Lemma Cursor_activity_inside : forall k l,
    k < Z.of_nat (List.length l) ->
    Cursor_activity {| idx := k; stack := l |} = item l k.
Proof.
  intros k l H. unfold Cursor_activity. rewrite Cursor_clamp_inside by exact H.
  cbn [idx stack]. unfold item. destruct (k <? 0); reflexivity.
Qed.

(** The loop of [_popTransient] stops on the nearest entry that is not
    transient, or below the array. *)
Lemma skipTransient_stops : forall n k l,
    -1 <= k < Z.of_nat (List.length l) ->
    k + 1 < Z.of_nat n ->
    exists i,
      skipTransient rt n {| idx := k; stack := l |}
        = {| idx := i; stack := l |} /\
      -1 <= i <= k /\
      (forall j x, i < j <= k -> item l j = Some x ->
                   isTransient (options (obj rt x)) = true) /\
      (0 <= i ->
       exists b, item l i = Some b /\
                 isTransient (options (obj rt b)) = false).
Proof.
  intros n. induction n as [|n IH]; intros k l Hk Hn; [lia|].
  cbn [skipTransient].
  rewrite Cursor_activity_inside, Cursor_clamp_inside by lia.
  destruct (Z.eq_dec k (-1)) as [->|Hne].
  - cbn [item Z.ltb]. exists (-1). repeat split; lia.
  - destruct (item_in_range _ l k) as [a Ha]; [lia|]. rewrite Ha.
    destruct (isTransient (options (obj rt a))) eqn:T.
    + unfold Cursor_goBack. cbn [idx stack].
      destruct (IH (k - 1) l) as [i [Hr [Hi [Hall Hstop]]]]; [lia|lia|].
      exists i. split; [exact Hr|]. split; [lia|]. split; [|exact Hstop].
      intros j x Hj Hx. destruct (Z.eq_dec j k) as [->|Hjk].
      * rewrite Ha in Hx. injection Hx as <-. exact T.
      * apply (Hall j x); [lia|exact Hx].
    + exists k. split; [reflexivity|]. split; [lia|]. split.
      * intros j x Hj. lia.
      * intros _. exists a. split; assumption.
Qed.

(** X15: on a well-formed stack, the activity that [_popTransient] moves
    up to is the entry nearest to the foreground that is not transient,
    all the entries above it up to the foreground being transient; it
    moves nowhere when the foreground activity is missing or not
    transient, or when every entry of the active region is transient. *)
Theorem popTransient_target : forall s,
    wellFormed s ->
    match _popTransient rt s with
    | Some b =>
        exists i, 0 <= i < topIndex s /\ item (_stack s) i = Some b /\
                  isTransient (options (obj rt b)) = false /\
                  forall j x, i < j <= topIndex s ->
                              item (_stack s) j = Some x ->
                              isTransient (options (obj rt x)) = true
    | None =>
        (forall a, top s = Some a ->
                   isTransient (options (obj rt a)) = false) \/
        (forall j x, 0 <= j <= topIndex s -> item (_stack s) j = Some x ->
                     isTransient (options (obj rt x)) = true)
    end.
Proof.
  intros s [[H1 H2] _]. unfold _popTransient.
  destruct (top s) as [a|] eqn:Ht; [|left; intros a Ha; discriminate].
  destruct (isTransient (options (obj rt a))) eqn:T;
    [|left; intros a' Ha; injection Ha as <-; exact T].
  unfold getCursor.
  destruct (skipTransient_stops (S (List.length (_stack s))) (topIndex s)
              (_stack s)) as [i [Hr [Hi [Hall Hstop]]]]; [lia|lia|].
  rewrite Hr. rewrite Cursor_activity_inside by lia.
  destruct (Z.ltb_spec i 0) as [L|L].
  - replace i with (-1) in * by lia. cbn [item Z.ltb].
    right. intros j x Hj Hx. apply (Hall j x); [lia|exact Hx].
  - destruct (Hstop L) as [b [Hb Tb]]. rewrite Hb.
    exists i. split; [|split; [exact Hb|split; [exact Tb|exact Hall]]].
    split; [lia|].
    destruct (Z.eq_dec i (topIndex s)) as [->|Hne]; [|lia].
    rewrite (top_item _ _ Ht) in Hb. injection Hb as <-. congruence.
Qed.

(** *** [goBack] and [goParent] *)

Lemma goParent_loop_stops : forall parent l n,
    (goParent_loop rt parent l (downFrom n) = -1 /\
     forall j, 0 <= j < Z.of_nat n -> isParent rt parent (item l j) = false) \/
    (0 <= goParent_loop rt parent l (downFrom n) < Z.of_nat n /\
     isParent rt parent (item l (goParent_loop rt parent l (downFrom n)))
     = true /\
     forall j, goParent_loop rt parent l (downFrom n) < j < Z.of_nat n ->
               isParent rt parent (item l j) = false).
Proof.
  intros parent l n. induction n as [|n IH].
  - left. split; [reflexivity|]. intros j Hj. lia.
  - cbn [downFrom goParent_loop].
    destruct (isParent rt parent (item l (Z.of_nat n))) eqn:E.
    + right. split; [lia|]. split; [exact E|]. intros j Hj. lia.
    + destruct IH as [[Hr Hn]|[Hr [Hp Hn]]].
      * left. split; [exact Hr|]. intros j Hj.
        destruct (Z.eq_dec j (Z.of_nat n)) as [->|Hne];
          [exact E|apply Hn; lia].
      * right. split; [lia|]. split; [exact Hp|]. intros j Hj.
        destruct (Z.eq_dec j (Z.of_nat n)) as [->|Hne];
          [exact E|apply Hn; lia].
Qed.

(** For a parent given as a class, the loop of [goParent] stops where the
    loop of [getParent] returns. *)
Lemma getParent_loop_goParent : forall c l n seen,
    getParent_loop rt c None l seen (downFrom n)
    = item l (goParent_loop rt (Some (ParentClass c)) l (downFrom n)).
Proof.
  intros c l n. induction n as [|n IH]; intros seen.
  - reflexivity.
  - cbn [downFrom getParent_loop goParent_loop isParent].
    rewrite orb_true_r. cbn [andb].
    destruct (isInstance rt (item l (Z.of_nat n)) c); [reflexivity|apply IH].
Qed.

(** X16: the cursor of [getCursor] on a well-formed stack with the
    foreground activity [cur].  It starts on [cur]; [goBack] moves it to
    the entry below; [goParent] moves it, for a parent declared as a
    class, to the activity that [getParent] returns for this class; for a
    parent declared as an instance [p], to the nearest occurrence of [p]
    below the foreground, and past the end when there is none; and past
    the end when [cur] declares no parent. *)
Theorem cursor_moves : forall s cur,
    wellFormed s ->
    top s = Some cur ->
    Cursor_activity (getCursor s) = Some cur /\
    Cursor_activity (Cursor_goBack (getCursor s))
      = item (_stack s) (topIndex s - 1) /\
    match parentActivity (options (obj rt cur)) with
    | Some (ParentClass c) =>
        Cursor_activity (Cursor_goParent rt (getCursor s))
        = getParent rt c None s
    | Some (ParentInstance p) =>
        (Cursor_activity (Cursor_goParent rt (getCursor s)) = Some p /\
         exists i, 0 <= i < topIndex s /\ item (_stack s) i = Some p /\
                   idx (Cursor_goParent rt (getCursor s)) = i /\
                   forall j, i < j < topIndex s ->
                             item (_stack s) j <> Some p) \/
        (Cursor_activity (Cursor_goParent rt (getCursor s)) = None /\
         forall j, 0 <= j < topIndex s -> item (_stack s) j <> Some p)
    | None => Cursor_activity (Cursor_goParent rt (getCursor s)) = None
    end.
Proof.
  intros s cur [[H1 H2] _] Htop.
  pose proof (top_Some_lt _ _ Htop) as Hk.
  pose proof (top_item _ _ Htop) as Hitem.
  assert (Hact : Cursor_activity (getCursor s) = Some cur).
  { unfold getCursor. rewrite Cursor_activity_inside by lia. exact Hitem. }
  split; [exact Hact|]. split.
  { unfold getCursor, Cursor_goBack. cbn [idx stack].
    apply Cursor_activity_inside. lia. }
  unfold Cursor_goParent. rewrite Hact.
  unfold getCursor. rewrite Cursor_clamp_inside by lia. cbn [idx stack].
  unfold downTo.
  replace (Z.to_nat (topIndex s - 1 + 1)) with (Z.to_nat (topIndex s)) by lia.
  set (n := Z.to_nat (topIndex s)).
  assert (Hn : Z.of_nat n = topIndex s) by (unfold n; lia).
  destruct (parentActivity (options (obj rt cur))) as [[p|c]|].
  - destruct (goParent_loop_stops (Some (ParentInstance p)) (_stack s) n)
      as [[Hr Hnone]|[Hr [Hp Hnear]]].
    + right. rewrite Hr. rewrite Cursor_activity_inside by lia.
      split; [reflexivity|].
      intros j Hj E. specialize (Hnone j ltac:(lia)).
      cbn [isParent] in Hnone. rewrite E in Hnone. cbn in Hnone.
      rewrite Nat.eqb_refl in Hnone. discriminate.
    + left. cbn [isParent] in Hp. apply option_eqb_eq in Hp.
      rewrite Cursor_activity_inside by lia.
      split; [exact Hp|].
      exists (goParent_loop rt (Some (ParentInstance p)) (_stack s)
                (downFrom n)).
      split; [lia|]. split; [exact Hp|]. split; [reflexivity|].
      intros j Hj E. specialize (Hnear j ltac:(lia)).
      cbn [isParent] in Hnear. rewrite E in Hnear. cbn in Hnear.
      rewrite Nat.eqb_refl in Hnear. discriminate.
  - unfold getParent, downTo.
    replace (Z.to_nat (topIndex s - 1 + 1)) with n by (unfold n; lia).
    rewrite getParent_loop_goParent.
    destruct (goParent_loop_stops (Some (ParentClass c)) (_stack s) n)
      as [[Hr Hnone]|[Hr [Hp Hnear]]].
    + rewrite Hr. rewrite Cursor_activity_inside by lia. reflexivity.
    + rewrite Cursor_activity_inside by lia. reflexivity.
  - destruct (goParent_loop_stops None (_stack s) n)
      as [[Hr Hnone]|[Hr [Hp Hnear]]].
    + rewrite Hr. rewrite Cursor_activity_inside by lia. reflexivity.
    + exfalso. cbn [isParent] in Hp. apply option_eqb_eq in Hp.
      destruct (item_in_range _ (_stack s)
                  (goParent_loop rt None (_stack s) (downFrom n)))
        as [x Hx]; [lia|].
      congruence.
Qed.

End Cursors.

(** ** The history state after a known ID *)

Section HistoryAfter.

Variable rt : Runtime.


End HistoryAfter.

Lemma operations_number_transitions_witness :
  let rt := Sample.runtime Sample.chainHeap in
  let w := Sample.worldOf [1%nat; 2%nat; 4%nat] 1 in
  wellFormed (this w) /\ numbered w /\
  numbered (snd (pushAsync rt 5 3%nat w)) /\
  numbered (snd (replaceAsync rt 5 3%nat w)) /\
  numbered (snd (popAsync rt None w)) /\
  numbered (snd (upAsync rt (AnActivity 1%nat) w)).
Proof.
  assert (Hw : wellFormed (this (Sample.worldOf [1%nat; 2%nat; 4%nat] 1)))
    by (apply sample_wellFormed; cbn; lia).
  assert (Hn : numbered (Sample.worldOf [1%nat; 2%nat; 4%nat] 1))
    by (split; constructor).
  split; [exact Hw|]. split; [exact Hn|].
  exact (operations_number_transitions (Sample.runtime Sample.chainHeap) 5
           3%nat None (AnActivity 1%nat) _ Hw Hn).
Defined.


Lemma findParents_is_a_lineage_witness :
  let rt := Sample.runtime Sample.chainHeap in
  let s := Sample.stackOf 1 [1%nat] 0 in
  _findParents rt 5 3%nat false s = Some [2%nat; 3%nat] /\
  (exists h rest,
      [2%nat; 3%nat] = h :: rest /\
      (parentActivity (options (obj rt h)) = None \/
       parentOnStack rt false s h = true)) /\
  last [2%nat; 3%nat] 3%nat = 3%nat /\
  lineage rt false s [2%nat; 3%nat] /\
  (forall more,
      _findParents rt (more + 5) 3%nat false s = Some [2%nat; 3%nat]).
Proof.
  split; [reflexivity|].
  exact (findParents_is_a_lineage (Sample.runtime Sample.chainHeap) 5 3%nat
           false (Sample.stackOf 1 [1%nat] 0) [2%nat; 3%nat] eq_refl).
Defined.

Lemma popTransient_target_witness :
  let rt := Sample.runtime
              (fun a => match a with
                        | 3%nat | 4%nat => Sample.transient
                        | _ => Sample.plain
                        end) in
  let s := Sample.stackOf 1 [1%nat; 2%nat; 3%nat; 4%nat] 3 in
  wellFormed s /\
  _popTransient rt s = Some 2%nat /\
  exists i, 0 <= i < topIndex s /\ item (_stack s) i = Some 2%nat /\
            isTransient (options (obj rt 2%nat)) = false /\
            forall j x, i < j <= topIndex s ->
                        item (_stack s) j = Some x ->
                        isTransient (options (obj rt x)) = true.
Proof.
  assert (Hw : wellFormed (Sample.stackOf 1 [1%nat; 2%nat; 3%nat; 4%nat] 3))
    by (apply sample_wellFormed; cbn; lia).
  split; [exact Hw|]. split; [reflexivity|].
  exact (popTransient_target
           (Sample.runtime
              (fun a => match a with
                        | 3%nat | 4%nat => Sample.transient
                        | _ => Sample.plain
                        end)) _ Hw).
Defined.

Lemma cursor_moves_witness :
  let rt := Sample.runtime Sample.chainHeap in
  let s := Sample.stackOf 1 [2%nat; 1%nat; 2%nat; 4%nat; 3%nat] 4 in
  wellFormed s /\ top s = Some 3%nat /\
  Cursor_activity (getCursor s) = Some 3%nat /\
  Cursor_activity (Cursor_goBack (getCursor s)) = Some 4%nat /\
  ((Cursor_activity (Cursor_goParent rt (getCursor s)) = Some 2%nat /\
    exists i, 0 <= i < topIndex s /\ item (_stack s) i = Some 2%nat /\
              idx (Cursor_goParent rt (getCursor s)) = i /\
              forall j, i < j < topIndex s ->
                        item (_stack s) j <> Some 2%nat) \/
   (Cursor_activity (Cursor_goParent rt (getCursor s)) = None /\
    forall j, 0 <= j < topIndex s -> item (_stack s) j <> Some 2%nat)).
Proof.
  assert (Hw : wellFormed
                 (Sample.stackOf 1 [2%nat; 1%nat; 2%nat; 4%nat; 3%nat] 4))
    by (apply sample_wellFormed; cbn; lia).
  split; [exact Hw|]. split; [reflexivity|].
  exact (cursor_moves (Sample.runtime Sample.chainHeap) _ 3%nat Hw eq_refl).
Defined.


(** ** Hubs and roots *)

Section HubsAndRoots.

Variable rt : Runtime.
Hypothesis all_accept : allAccept rt.

(** [_upToHubOrRoot] with a target that the stack contains, and no
    transient activity to pop: the target is the foreground afterwards. *)
Lemma upToHubOrRoot_moves : forall a x w,
    _popTransient rt (this w) = None ->
    hubOrRoot rt a (this w) = Some x ->
    contains rt (AnActivity x) (this w) = true ->
    topIndex (this w) <= 1000 ->
    exists w1,
      _upToHubOrRoot rt a w = (Resolved tt, w1) /\
      top (this w1) = Some x /\
      _stack (this w1) = _stack (this w) /\
      _historyIds (this w1) = _historyIds (this w) /\
      topIndex (this w1) <= topIndex (this w) /\
      (forall i, topIndex (this w1) < i <= topIndex (this w) ->
                 item (_stack (this w)) i <> Some x).
Proof.
  intros a x w Hpt Hhub Hc Hd.
  destruct (recurse_reaches rt all_accept (AnActivity x) 1000 (cleared w) Hc)
    as [b [w1 [Hup [Htop [Hm [Hs [Hh [Hle Hnear]]]]]]]];
    [cbn [this cleared]; lia|].
  change (recurse rt 1000 (AnActivity x) (cleared w))
    with (upAsync rt (AnActivity x) w) in Hup.
  cbn [this cleared] in Hs, Hh, Hle, Hnear.
  cbn [matches] in Hm. apply option_eqb_eq in Hm. injection Hm as ->.
  exists w1. split.
  - unfold _upToHubOrRoot. unfold bind at 1. unfold get at 1.
    rewrite Hpt, Hhub. unfold bind at 1. unfold ret at 1.
    rewrite (bind_resolved _ _ _ _ _ _ _ Hup). reflexivity.
  - repeat split; try assumption.
    intros i Hi E. specialize (Hnear i Hi). cbn [matches] in Hnear.
    rewrite E in Hnear. cbn in Hnear. rewrite Nat.eqb_refl in Hnear.
    discriminate.
Qed.

Lemma item_cutForward : forall s i,
    0 <= i <= topIndex s -> item (cutForward s) i = item (_stack s) i.
Proof.
  intros s i H. unfold item, cutForward.
  destruct (Z.ltb_spec i 0) as [L|_]; [lia|].
  rewrite nth_error_firstn.
  destruct (Nat.ltb_spec (Z.to_nat i) (Z.to_nat (topIndex s + 1)));
    [reflexivity|lia].
Qed.

Lemma popTransient_quiet : forall s,
    (forall x, top s = Some x -> isTransient (options (obj rt x)) = false) ->
    _popTransient rt s = None.
Proof.
  intros s H. unfold _popTransient.
  destruct (top s) as [x|]; [|reflexivity].
  rewrite (H x eq_refl). reflexivity.
Qed.

(** X18: a child sits on its hub.  When no handler rejects, [pushAsync(a)]
    for an activity [a] (no root activity) whose declared parent is the
    hub activity [p], on a well-formed stack at most 1000 entries deep that
    contains [p] and whose foreground activity is not transient, first
    moves up to [p] and then pushes [a]: it resolves with a [Push]
    transition from [p] to [a], after which [a] is the foreground activity
    and the entry below it is [p]. *)
Theorem pushAsync_child_sits_on_hub : forall fuel a p w,
    wellFormed (this w) ->
    topIndex (this w) <= 1000 ->
    (forall x, top (this w) = Some x ->
               isTransient (options (obj rt x)) = false) ->
    isRootActivity (options (obj rt a)) = false ->
    parentActivity (options (obj rt a)) = Some (ParentInstance p) ->
    isHubActivity (options (obj rt p)) = true ->
    contains rt (AnActivity p) (this w) = true ->
    a <> p ->
    exists t w',
      pushAsync rt (S fuel) a w = (Resolved (Some t), w') /\
      ActivityTransition.op t = Push /\
      ActivityTransition.from t = Some p /\
      ActivityTransition.to t = Some a /\
      top (this w') = Some a /\
      item (_stack (this w')) (topIndex (this w') - 1) = Some p /\
      topIndex (this w') <= topIndex (this w) + 1.
Proof.
  intros fuel a p w Hwf Hd Htr Hroot Hpar Hhub Hc Hne.
  pose proof Hwf as [[H1 H2] H3].
  assert (Htarget : hubOrRoot rt a (this w) = Some p).
  { unfold hubOrRoot. rewrite Hroot, Hpar, Hhub. reflexivity. }
  destruct (upToHubOrRoot_moves a p w (popTransient_quiet _ Htr) Htarget Hc Hd)
    as [w1 [Hup [Htop1 [Hs1 [Hh1 [Hle1 _]]]]]].
  pose proof (top_Some_lt _ _ Htop1) as Hk1.
  assert (Hfind : _findParents rt (S fuel) a false (this (cleared w1))
                  = Some [a]).
  { unfold _findParents. rewrite findParents_loop_eq. rewrite Hpar.
    cbn [this cleared negb orb].
    rewrite (arrived_contains rt (AnActivity p) (this w1)); [reflexivity|].
    cbn [arrived]. rewrite Htop1. cbn. apply Nat.eqb_refl. }
  assert (Hrun : _processTransition rt (Some a) Push (cleared w1)
                 = (Resolved (newRecord (Some a) Push (cleared w1)),
                    afterRun rt (Some a) Push (cleared w1))).
  { apply processTransition_exact.
    - cbn [this cleared]. rewrite Htop1. congruence.
    - apply firstVeto_allAccept. exact all_accept.
    - cbn [this cleared canMutate]. split; [lia|discriminate]. }
  exists (newRecord (Some a) Push (cleared w1)),
         (afterRun rt (Some a) Push (cleared w1)).
  split.
  { unfold pushAsync.
    rewrite (bind_resolved _ _ _ _ _ _ _ Hup).
    unfold bind at 1. unfold setPreviousTransition at 1.
    unfold bind at 1. unfold get at 1.
    change {| previousTransition := None;
              _nextTransitionID := _nextTransitionID w1;
              _nextHistoryId := _nextHistoryId w1;
              emitted := emitted w1;
              this := this w1 |} with (cleared w1).
    rewrite Hfind. cbn [forEachParent].
    rewrite (bind_resolved _ _ _ _ _ _ _ Hrun). reflexivity. }
  unfold afterRun.
  cbn [ActivityTransition.op ActivityTransition.from ActivityTransition.to
       newRecord this cleared afterMutate _nextHistoryId].
  destruct (afterPush_top rt (this w1) a (_nextHistoryId w1))
    as [Hti [Hta Hcut]]; [lia|].
  repeat split; try assumption; try lia.
  rewrite Hti. replace (topIndex (this w1) + 1 - 1) with (topIndex (this w1))
    by lia.
  rewrite <- (item_cutForward (afterPush rt (this w1) a (_nextHistoryId w1)))
    by lia.
  rewrite Hcut. unfold item.
  destruct (Z.ltb_spec (topIndex (this w1)) 0) as [L|_]; [lia|].
  rewrite nth_error_app1
    by (pose proof (length_cutForward (this w1)); lia).
  pose proof (item_cutForward (this w1) (topIndex (this w1))) as Hi.
  unfold item in Hi.
  destruct (Z.ltb_spec (topIndex (this w1)) 0) as [L|_]; [lia|].
  rewrite Hi by lia.
  pose proof (top_item _ _ Htop1) as Hp. unfold item in Hp.
  destruct (Z.ltb_spec (topIndex (this w1)) 0) as [L|_]; [lia|]. exact Hp.
Qed.

(** X19: when no handler rejects, [pushAsync(a)] for a root activity [a]
    without parent that the stack contains, on a well-formed stack at most
    1000 entries deep whose foreground activity is not transient, moves up
    to the occurrence of [a] nearest to the foreground and pushes nothing:
    [a] is the foreground activity afterwards, the array and the history
    IDs are as before, and the activities moved over are the forward
    history. *)
Theorem pushAsync_root_moves_up : forall fuel a w,
    wellFormed (this w) ->
    topIndex (this w) <= 1000 ->
    (forall x, top (this w) = Some x ->
               isTransient (options (obj rt x)) = false) ->
    isRootActivity (options (obj rt a)) = true ->
    parentActivity (options (obj rt a)) = None ->
    contains rt (AnActivity a) (this w) = true ->
    exists t w',
      pushAsync rt fuel a w = (Resolved (Some t), w') /\
      ActivityTransition.from t = Some a /\
      ActivityTransition.to t = Some a /\
      top (this w') = Some a /\
      _stack (this w') = _stack (this w) /\
      _historyIds (this w') = _historyIds (this w) /\
      topIndex (this w') <= topIndex (this w) /\
      (forall i, topIndex (this w') < i <= topIndex (this w) ->
                 item (_stack (this w)) i <> Some a).
Proof.
  intros fuel a w Hwf Hd Htr Hroot Hpar Hc.
  assert (Htarget : hubOrRoot rt a (this w) = Some a).
  { unfold hubOrRoot. rewrite Hroot, Hc. reflexivity. }
  destruct (upToHubOrRoot_moves a a w (popTransient_quiet _ Htr) Htarget Hc Hd)
    as [w1 [Hup [Htop1 [Hs1 [Hh1 [Hle1 Hnear]]]]]].
  assert (Hfind : _findParents rt fuel a false (this (cleared w1))
                  = Some [a]).
  { unfold _findParents. destruct fuel; cbn; rewrite Hpar; reflexivity. }
  pose proof (processTransition_noop rt (Some a) Push (cleared w1) Htop1)
    as Hrun.
  eexists. eexists. split.
  { unfold pushAsync.
    rewrite (bind_resolved _ _ _ _ _ _ _ Hup).
    unfold bind at 1. unfold setPreviousTransition at 1.
    unfold bind at 1. unfold get at 1.
    change {| previousTransition := None;
              _nextTransitionID := _nextTransitionID w1;
              _nextHistoryId := _nextHistoryId w1;
              emitted := emitted w1;
              this := this w1 |} with (cleared w1).
    rewrite Hfind. cbn [forEachParent].
    rewrite (bind_resolved _ _ _ _ _ _ _ Hrun). reflexivity. }
  cbn [ActivityTransition.from ActivityTransition.to newRecord this cleared
       Operation_eqb].
  repeat split; assumption.
Qed.

End HubsAndRoots.

Lemma pushAsync_child_sits_on_hub_witness :
  let rt := Sample.runtime Sample.hubHeap in
  let w := Sample.worldOf [1%nat; 3%nat; 4%nat] 2 in
  allAccept rt /\ wellFormed (this w) /\ topIndex (this w) <= 1000 /\
  (forall x, top (this w) = Some x ->
             isTransient (options (obj rt x)) = false) /\
  isRootActivity (options (obj rt 2%nat)) = false /\
  parentActivity (options (obj rt 2%nat)) = Some (ParentInstance 1%nat) /\
  isHubActivity (options (obj rt 1%nat)) = true /\
  contains rt (AnActivity 1%nat) (this w) = true /\
  2%nat <> 1%nat /\
  exists t w',
    pushAsync rt 5 2%nat w = (Resolved (Some t), w') /\
    ActivityTransition.op t = Push /\
    ActivityTransition.from t = Some 1%nat /\
    ActivityTransition.to t = Some 2%nat /\
    top (this w') = Some 2%nat /\
    item (_stack (this w')) (topIndex (this w') - 1) = Some 1%nat /\
    topIndex (this w') <= topIndex (this w) + 1.
Proof.
  pose proof (sample_allAccept Sample.hubHeap) as Ha.
  assert (Hw : wellFormed (this (Sample.worldOf [1%nat; 3%nat; 4%nat] 2)))
    by (apply sample_wellFormed; cbn; lia).
  assert (Hd : topIndex (this (Sample.worldOf [1%nat; 3%nat; 4%nat] 2))
               <= 1000) by (cbn; lia).
  assert (Htr : forall x,
             top (this (Sample.worldOf [1%nat; 3%nat; 4%nat] 2)) = Some x ->
             isTransient (options (obj (Sample.runtime Sample.hubHeap) x))
             = false)
    by (intros x H; injection H as <-; reflexivity).
  assert (Hne : 2%nat <> 1%nat) by discriminate.
  split; [exact Ha|]. split; [exact Hw|]. split; [exact Hd|].
  split; [exact Htr|]. split; [reflexivity|]. split; [reflexivity|].
  split; [reflexivity|]. split; [reflexivity|]. split; [exact Hne|].
  exact (pushAsync_child_sits_on_hub (Sample.runtime Sample.hubHeap) Ha 4
           2%nat 1%nat _ Hw Hd Htr eq_refl eq_refl eq_refl eq_refl Hne).
Defined.

Lemma pushAsync_root_moves_up_witness :
  let rt := Sample.runtime
              (fun a => match a with
                        | 1%nat =>
                            {| title := None;
                               options :=
                                 {| parentActivity := None;
                                    isRootActivity := true;
                                    isHubActivity := false;
                                    isTransient := false;
                                    isBackgroundActivity := false |};
                               path := None |}
                        | _ => Sample.plain
                        end) in
  let w := Sample.worldOf [1%nat; 2%nat; 3%nat] 2 in
  allAccept rt /\ wellFormed (this w) /\ topIndex (this w) <= 1000 /\
  (forall x, top (this w) = Some x ->
             isTransient (options (obj rt x)) = false) /\
  isRootActivity (options (obj rt 1%nat)) = true /\
  parentActivity (options (obj rt 1%nat)) = None /\
  contains rt (AnActivity 1%nat) (this w) = true /\
  exists t w',
    pushAsync rt 5 1%nat w = (Resolved (Some t), w') /\
    ActivityTransition.from t = Some 1%nat /\
    ActivityTransition.to t = Some 1%nat /\
    top (this w') = Some 1%nat /\
    _stack (this w') = _stack (this w) /\
    _historyIds (this w') = _historyIds (this w) /\
    topIndex (this w') <= topIndex (this w) /\
    (forall i, topIndex (this w') < i <= topIndex (this w) ->
               item (_stack (this w)) i <> Some 1%nat).
Proof.
  set (heap := fun a : Activity =>
                 match a with
                 | 1%nat =>
                     {| title := None;
                        options :=
                          {| parentActivity := None;
                             isRootActivity := true;
                             isHubActivity := false;
                             isTransient := false;
                             isBackgroundActivity := false |};
                        path := None |}
                 | _ => Sample.plain
                 end).
  pose proof (sample_allAccept heap) as Ha.
  assert (Hw : wellFormed (this (Sample.worldOf [1%nat; 2%nat; 3%nat] 2)))
    by (apply sample_wellFormed; cbn; lia).
  assert (Hd : topIndex (this (Sample.worldOf [1%nat; 2%nat; 3%nat] 2))
               <= 1000) by (cbn; lia).
  assert (Htr : forall x,
             top (this (Sample.worldOf [1%nat; 2%nat; 3%nat] 2)) = Some x ->
             isTransient (options (obj (Sample.runtime heap) x)) = false)
    by (intros x H; injection H as <-; reflexivity).
  split; [exact Ha|]. split; [exact Hw|]. split; [exact Hd|].
  split; [exact Htr|]. split; [reflexivity|]. split; [reflexivity|].
  split; [reflexivity|].
  exact (pushAsync_root_moves_up (Sample.runtime heap) Ha 5 1%nat _ Hw Hd Htr
           eq_refl eq_refl eq_refl).
Defined.


(** ** Positions in the history after going back *)

Section HistoryMoves.

Variable rt : Runtime.
Hypothesis all_accept : allAccept rt.

(** X21: going back moves the history.  On a well-formed stack with
    distinct history IDs, the ID [h] of the foreground slot is at position
    0; when no handler rejects, after [popAsync()] it is at position 1
    (ahead), the ID of the slot below, if it has one, is at position 0,
    and no history ID has been added or removed. *)
Theorem popAsync_moves_history_ahead : forall a h w,
    wellFormed (this w) ->
    distinctIds (_historyIds (this w)) ->
    top (this w) = Some a ->
    item (_historyIds (this w)) (topIndex (this w)) = Some (Some h) ->
    getHistoryPosition h (this w) = Some 0 /\
    exists t w',
      popAsync rt None w = (Resolved (Some t), w') /\
      _historyIds (this w') = _historyIds (this w) /\
      getHistoryPosition h (this w') = Some 1 /\
      forall h',
        item (_historyIds (this w)) (topIndex (this w) - 1) = Some (Some h') ->
        getHistoryPosition h' (this w') = Some 0.
Proof.
  intros a h w Hwf Hd Htop Hh.
  pose proof Hwf as [[H1 H2] H3].
  pose proof (top_Some_lt _ _ Htop) as Hk.
  assert (Hnth : forall k x, 0 <= k ->
             item (_historyIds (this w)) k = Some (Some x) ->
             lastIndexOf (_historyIds (this w)) x = k).
  { intros k x Hk0 Hx. unfold item in Hx.
    destruct (Z.ltb_spec k 0) as [L|_]; [lia|].
    rewrite (lastIndexOf_distinct _ _ _ Hd Hx). lia. }
  split.
  { unfold getHistoryPosition. rewrite (Hnth _ _ (proj1 Hk) Hh).
    destruct (Z.ltb_spec (topIndex (this w)) 0) as [L|_]; [lia|].
    rewrite Z.eqb_refl. reflexivity. }
  assert (Hpop : exists w',
             popAsync rt None w
             = (Resolved (Some (newRecord
                  (item (_stack (this w)) (topIndex (this w) - 1)) Pop
                  (cleared w))), w') /\
             this w' = setTopIndex (this w) (topIndex (this w) - 1)).
  { unfold popAsync. unfold_monad. cbn [this].
    destruct (Z.ltb_spec (topIndex (this w)) 0) as [L|_]; [lia|].
    destruct (pop_goes_through rt all_accept
                (item (_stack (this w)) (topIndex (this w) - 1)) (cleared w))
      as [w' [Hrun [Hthis _]]].
    unfold cleared in Hrun. cbn [this] in Hrun. rewrite Hrun.
    exists w'. split; [reflexivity|exact Hthis]. }
  destruct Hpop as [w' [Hpop Hthis]].
  eexists. exists w'. split; [exact Hpop|].
  rewrite Hthis. cbn [_historyIds setTopIndex].
  split; [reflexivity|]. split.
  - unfold getHistoryPosition. cbn [_historyIds topIndex setTopIndex].
    rewrite (Hnth _ _ (proj1 Hk) Hh).
    destruct (Z.ltb_spec (topIndex (this w)) 0) as [L|_]; [lia|].
    destruct (Z.eqb_spec (topIndex (this w)) (topIndex (this w) - 1));
      [lia|].
    destruct (Z.ltb_spec (topIndex (this w)) (topIndex (this w) - 1));
      [lia|reflexivity].
  - intros h' Hh'.
    pose proof (item_Some_lt _ _ _ _ Hh') as Hk'.
    unfold getHistoryPosition. cbn [_historyIds topIndex setTopIndex].
    rewrite (Hnth _ _ (proj1 Hk') Hh').
    destruct (Z.ltb_spec (topIndex (this w) - 1) 0) as [L|_]; [lia|].
    rewrite Z.eqb_refl. reflexivity.
Qed.

End HistoryMoves.

Lemma popAsync_moves_history_ahead_witness :
  let rt := Sample.runtime Sample.plainHeap in
  let w := {| previousTransition := None; _nextTransitionID := 0;
              _nextHistoryId := 3; emitted := [];
              this := Sample.stackOf 1 [1%nat; 2%nat; 4%nat] 1 |} in
  allAccept rt /\ wellFormed (this w) /\
  distinctIds (_historyIds (this w)) /\
  top (this w) = Some 2%nat /\
  item (_historyIds (this w)) (topIndex (this w))
    = Some (Some "_A042171"%string) /\
  getHistoryPosition "_A042171" (this w) = Some 0 /\
  exists t w',
    popAsync rt None w = (Resolved (Some t), w') /\
    _historyIds (this w') = _historyIds (this w) /\
    getHistoryPosition "_A042171" (this w') = Some 1 /\
    forall h',
      item (_historyIds (this w)) (topIndex (this w) - 1) = Some (Some h') ->
      getHistoryPosition h' (this w') = Some 0.
Proof.
  pose proof (sample_allAccept Sample.plainHeap) as Ha.
  assert (Hw : wellFormed (Sample.stackOf 1 [1%nat; 2%nat; 4%nat] 1))
    by (apply sample_wellFormed; cbn; lia).
  pose proof (proj1 (sample_history_ok (Sample.runtime Sample.plainHeap) 1
                       eq_refl)) as Hd.
  split; [exact Ha|]. split; [exact Hw|]. split; [exact Hd|].
  split; [reflexivity|]. split; [reflexivity|].
  exact (popAsync_moves_history_ahead (Sample.runtime Sample.plainHeap) Ha
           2%nat "_A042171"
           {| previousTransition := None; _nextTransitionID := 0;
              _nextHistoryId := 3; emitted := [];
              this := Sample.stackOf 1 [1%nat; 2%nat; 4%nat] 1 |}
           Hw Hd eq_refl eq_refl).
Defined.

(** ** Transient activities *)

Section Transients.

Variable rt : Runtime.
Hypothesis all_accept : allAccept rt.

Lemma popTransient_Some : forall s b,
    wellFormed s ->
    _popTransient rt s = Some b ->
    exists i, 0 <= i < topIndex s /\ item (_stack s) i = Some b /\
              isTransient (options (obj rt b)) = false /\
              forall j x, i < j <= topIndex s ->
                          item (_stack s) j = Some x ->
                          isTransient (options (obj rt x)) = true.
Proof.
  intros s b [[H1 H2] _] H. unfold _popTransient in H.
  destruct (top s) as [a|] eqn:Ht; [|discriminate].
  destruct (isTransient (options (obj rt a))) eqn:T; [|discriminate].
  unfold getCursor in H.
  destruct (skipTransient_stops rt (S (List.length (_stack s))) (topIndex s)
              (_stack s)) as [i [Hr [Hi [Hall Hstop]]]]; [lia|lia|].
  rewrite Hr in H. rewrite Cursor_activity_inside in H by lia.
  destruct (Z.ltb_spec i 0) as [L|L].
  - replace i with (-1) in H by lia. discriminate.
  - destruct (Hstop L) as [b' [Hb Tb]]. rewrite Hb in H. injection H as <-.
    exists i. split; [|split; [exact Hb|split; [exact Tb|exact Hall]]].
    split; [lia|].
    destruct (Z.eq_dec i (topIndex s)) as [->|Hne]; [|lia].
    rewrite (top_item _ _ Ht) in Hb. injection Hb as <-. congruence.
Qed.

(** X22: pushing from a transient activity drops the transient
    activities.  When no handler rejects, [pushAsync(a)] for an activity
    [a] without parent that is neither root nor transient, on a
    well-formed stack at most 1000 entries deep on which [_popTransient]
    finds the activity [b] (other than [a]) below the transient foreground,
    first moves up to [b] and then pushes [a]: afterwards the array is the
    part of the old array up to [b], followed by [a], which is the
    foreground activity. *)
Theorem pushAsync_drops_transients : forall fuel a b w,
    wellFormed (this w) ->
    topIndex (this w) <= 1000 ->
    _popTransient rt (this w) = Some b ->
    parentActivity (options (obj rt a)) = None ->
    isRootActivity (options (obj rt a)) = false ->
    isTransient (options (obj rt a)) = false ->
    a <> b ->
    exists t w' i,
      pushAsync rt fuel a w = (Resolved (Some t), w') /\
      0 <= i < topIndex (this w) /\
      item (_stack (this w)) i = Some b /\
      ActivityTransition.op t = Push /\
      ActivityTransition.from t = Some b /\
      ActivityTransition.to t = Some a /\
      topIndex (this w') = i + 1 /\
      top (this w') = Some a /\
      _stack (this w') = firstn (Z.to_nat (i + 1)) (_stack (this w)) ++ [a].
Proof.
  intros fuel a b w Hwf Hd Hpt Hpar Hroot Hta Hne.
  pose proof Hwf as [[H1 H2] H3].
  destruct (popTransient_Some _ _ Hwf Hpt) as [i [Hi [Hb [Tb Hall]]]].
  assert (Hc : contains rt (AnActivity b) (this w) = true).
  { apply (item_contains rt _ i); [exact Hb|lia]. }
  destruct (recurse_reaches rt all_accept (AnActivity b) 1000 (cleared w) Hc)
    as [b' [w1 [Hup [Htop1 [Hm [Hs1 [Hh1 [Hle1 Hnear]]]]]]]];
    [cbn [this cleared]; lia|].
  change (recurse rt 1000 (AnActivity b) (cleared w))
    with (upAsync rt (AnActivity b) w) in Hup.
  cbn [this cleared] in Hs1, Hh1, Hle1, Hnear.
  cbn [matches] in Hm. apply option_eqb_eq in Hm. injection Hm as ->.
  pose proof (top_Some_lt _ _ Htop1) as Hk1.
  pose proof (top_item _ _ Htop1) as Hitem1. rewrite Hs1 in Hitem1.
  assert (Hidx : topIndex (this w1) = i).
  { destruct (Z.lt_trichotomy (topIndex (this w1)) i) as [L|[E|L]].
    - specialize (Hnear i ltac:(lia)). cbn [matches] in Hnear.
      rewrite Hb in Hnear. cbn in Hnear. rewrite Nat.eqb_refl in Hnear.
      discriminate.
    - exact E.
    - rewrite (Hall (topIndex (this w1)) b ltac:(lia) Hitem1) in Tb.
      discriminate. }
  assert (Hwf1 : wellFormed (this w1)).
  { unfold wellFormed. rewrite Hs1, Hh1. split; [lia|exact H3]. }
  assert (Hupto : _upToHubOrRoot rt a w = (Resolved tt, w1)).
  { unfold _upToHubOrRoot. unfold bind at 1. unfold get at 1.
    rewrite Hpt.
    assert (Hnone : hubOrRoot rt a (this w) = None).
    { unfold hubOrRoot. rewrite Hroot, Hpar. reflexivity. }
    rewrite Hnone.
    unfold bind at 1. rewrite (bind_resolved _ _ _ _ _ _ _ Hup).
    reflexivity. }
  assert (Hredo : redo (switchBase Push (this w1)) (Some a) = false).
  { unfold redo. cbn [switchBase]. apply andb_false_iff. right.
    apply option_eqb_neq. rewrite Hs1, Hidx. intros E.
    rewrite (Hall (i + 1) a ltac:(lia) E) in Hta. discriminate. }
  assert (Hcall : callOK (Some a) Push (this w1)) by (cbn; discriminate).
  assert (Hrun : _processTransition rt (Some a) Push (cleared w1)
                 = (Resolved (newRecord (Some a) Push (cleared w1)),
                    afterRun rt (Some a) Push (cleared w1))).
  { apply processTransition_exact.
    - cbn [this cleared]. rewrite Htop1. congruence.
    - apply firstVeto_allAccept. exact all_accept.
    - apply callOK_canMutate; assumption. }
  destruct (switch_discards rt a Push (this w1)
              (newRecord (Some a) Push (cleared w1)) (_nextHistoryId w1)
              false Hwf1 Hcall ltac:(discriminate) Hredo)
    as [_ [Hst [Hti _]]].
  cbn [switchBase] in Hst, Hti.
  exists (newRecord (Some a) Push (cleared w1)),
         (afterRun rt (Some a) Push (cleared w1)), i.
  split.
  { unfold pushAsync.
    rewrite (bind_resolved _ _ _ _ _ _ _ Hupto).
    unfold bind at 1. unfold setPreviousTransition at 1.
    unfold bind at 1. unfold get at 1.
    change {| previousTransition := None;
              _nextTransitionID := _nextTransitionID w1;
              _nextHistoryId := _nextHistoryId w1;
              emitted := emitted w1;
              this := this w1 |} with (cleared w1).
    assert (Hfind : _findParents rt fuel a false (this (cleared w1))
                    = Some [a]).
    { unfold _findParents. destruct fuel; cbn; rewrite Hpar; reflexivity. }
    rewrite Hfind. cbn [forEachParent].
    rewrite (bind_resolved _ _ _ _ _ _ _ Hrun). reflexivity. }
  unfold afterRun.
  cbn [ActivityTransition.op ActivityTransition.from ActivityTransition.to
       newRecord this cleared _nextHistoryId].
  split; [exact Hi|]. split; [exact Hb|]. split; [reflexivity|].
  split; [exact Htop1|]. split; [reflexivity|].
  split; [rewrite Hti; lia|]. split.
  - unfold top. rewrite Hti.
    destruct (Z.ltb_spec (topIndex (this w1) + 1) 0) as [L|_]; [lia|].
    rewrite Hst.
    replace (topIndex (this w1) + 1)
      with (Z.of_nat (List.length (cutForward (this w1))))
      by (rewrite length_cutForward; lia).
    apply item_app_last.
  - rewrite Hst. unfold cutForward. rewrite Hs1, Hidx. reflexivity.
Qed.

End Transients.

Lemma pushAsync_drops_transients_witness :
  let rt := Sample.runtime
              (fun a => match a with
                        | 3%nat | 4%nat => Sample.transient
                        | _ => Sample.plain
                        end) in
  let w := Sample.worldOf [1%nat; 2%nat; 3%nat; 4%nat] 3 in
  allAccept rt /\ wellFormed (this w) /\ topIndex (this w) <= 1000 /\
  _popTransient rt (this w) = Some 2%nat /\
  parentActivity (options (obj rt 5%nat)) = None /\
  isRootActivity (options (obj rt 5%nat)) = false /\
  isTransient (options (obj rt 5%nat)) = false /\
  5%nat <> 2%nat /\
  exists t w' i,
    pushAsync rt 5 5%nat w = (Resolved (Some t), w') /\
    0 <= i < topIndex (this w) /\
    item (_stack (this w)) i = Some 2%nat /\
    ActivityTransition.op t = Push /\
    ActivityTransition.from t = Some 2%nat /\
    ActivityTransition.to t = Some 5%nat /\
    topIndex (this w') = i + 1 /\
    top (this w') = Some 5%nat /\
    _stack (this w') = firstn (Z.to_nat (i + 1)) (_stack (this w)) ++ [5%nat].
Proof.
  set (heap := fun a : Activity =>
                 match a with
                 | 3%nat | 4%nat => Sample.transient
                 | _ => Sample.plain
                 end).
  pose proof (sample_allAccept heap) as Ha.
  assert (Hw : wellFormed
                 (this (Sample.worldOf [1%nat; 2%nat; 3%nat; 4%nat] 3)))
    by (apply sample_wellFormed; cbn; lia).
  assert (Hd : topIndex (this (Sample.worldOf [1%nat; 2%nat; 3%nat; 4%nat] 3))
               <= 1000) by (cbn; lia).
  assert (Hne : 5%nat <> 2%nat) by discriminate.
  split; [exact Ha|]. split; [exact Hw|]. split; [exact Hd|].
  split; [reflexivity|]. split; [reflexivity|]. split; [reflexivity|].
  split; [reflexivity|]. split; [exact Hne|].
  exact (pushAsync_drops_transients (Sample.runtime heap) Ha 5 5%nat 2%nat _
           Hw Hd eq_refl eq_refl eq_refl eq_refl Hne).
Defined.

(** With the classes of even and of odd references: on the stack
    [[10; 11; 12; 13]], the instance of class 0 nearest below the
    foreground is 12, the one below 12 is 10, and the cursor on 13, which
    declares class 0 as its parent, goes to 12. *)
Example getParent_and_goParent_by_class :
  let heap := fun a : Activity =>
                match a with
                | 13%nat =>
                    {| title := None;
                       options :=
                         {| parentActivity := Some (ParentClass 0%nat);
                            isRootActivity := false;
                            isHubActivity := false;
                            isTransient := false;
                            isBackgroundActivity := false |};
                       path := None |}
                | _ => Sample.plain
                end in
  let rt := {| obj := heap;
               instanceOf := fun a c => Nat.eqb (Nat.modulo a 2) c;
               getInstance := fun c => c;
               accepts := fun _ _ _ => true;
               randomDigits := "04217" |} in
  let s := Sample.stackOf 1 [10%nat; 11%nat; 12%nat; 13%nat] 3 in
  getParent rt 0%nat None s = Some 12%nat /\
  getParent rt 0%nat (Some 12%nat) s = Some 10%nat /\
  getParent rt 1%nat None s = Some 11%nat /\
  getParent rt 1%nat (Some 10%nat) s = None /\
  Cursor_activity (Cursor_goParent rt (getCursor s)) = Some 12%nat.
Proof. repeat split; reflexivity. Qed.
